(** * The runsc container lifecycle controller, embedded in Rocq

    The model follows the Go packages of the runtime, one module each:
    [specs] (the OCI document), [config] (runsc/config/flags.go),
    [boot], [cgroup], [sandbox] (data the controller reads from its
    collaborators), [container] (runsc/container/container.go), [control]
    (pkg/sentry/control/lifecycle.go) and [cmd] (the do and wait commands).
    After the model come the vocabulary
    of the properties, the concrete containers and environments the
    operations are run on, and the properties themselves.

    Conventions.
    - A Go [error] is an [option string]; [None] is [nil].
    - A Go [panic] is the [Panic] outcome of the monad [M]; it carries the
      state at the point of the panic, so that what had been recorded before
      the panic can be inspected.
    - Calls that leave the process (advisory locks, sentry RPCs, signals,
      cgroup drivers, /proc writes) take their result from an [Env] record
      and leave an [Event] in the log of the [World]; the host file system
      and the saved state file are part of the [World]. *)

From Stdlib Require Import ZArith Lia Ascii String.
From stdpp Require Import base strings list gmap pretty.

Definition error : Type := option string.

Definition dq : string := String "034"%char EmptyString.

(** [%q] of Go's fmt for a string without special characters. *)
Definition quote (s : string) : string := dq +:+ s +:+ dq.

(** ** specs: the parts of the OCI runtime spec the controller reads *)
Module specs.

Record Mount := {
  Destination : string;
  Type' : string;
  Source : string;
  Options : list string;
}.

Record Root_t := { Path : string; Readonly : bool }.

Record Process_t := { OOMScoreAdj : option Z }.

Record Hooks_t := { Poststart : list string; Poststop : list string }.

(** specutils.ContainerType, the result of specutils.SpecContainerType. The
    function reads the CRI annotations of the spec; it is not among the
    sources, so the spec record carries its result. *)
Inductive ContainerType :=
  | ContainerTypeUnspecified
  | ContainerTypeUnknown
  | ContainerTypeSandbox
  | ContainerTypeContainer.

Record Spec := {
  Root : Root_t;
  Mounts : list Mount;
  Process : Process_t;
  Hooks : option Hooks_t;
  SpecContainerType : ContainerType;
}.

#[global] Instance ContainerType_eq_dec : EqDecision ContainerType.
Proof. solve_decision. Defined.

(** *** What only the creation of a container reads *)

(** specs.LinuxIDMapping: three uint32. *)
Record LinuxIDMapping := {
  ContainerID : Z;
  HostID : Z;
  Size : Z;
}.

(** specs.LinuxNamespace: its Type and its Path. *)
Record LinuxNamespace := { NsType : string; NsPath : string }.

Definition UserNamespace : string := "user".

(** specs.Linux, as far as the creation of a container reads it. *)
Record Linux_t := {
  UIDMappings : list LinuxIDMapping;
  GIDMappings : list LinuxIDMapping;
  CgroupsPath : string;
  Namespaces : list LinuxNamespace;
}.

(** &specs.Linux{} *)
Definition emptyLinux : Linux_t :=
  {| UIDMappings := []; GIDMappings := []; CgroupsPath := ""; Namespaces := [] |}.

(** The document handed to the creation of a container: [Kept] is what the
    operations on the created container read of it; besides it the creation
    reads the annotations, the Linux section and the Prestart and
    CreateRuntime hooks (of spec.Hooks, when it is not nil). [SandboxID] is
    the result of specutils.SandboxID, which reads the CRI annotations and
    is not among the sources. *)
Record Document := {
  Kept : Spec;
  Annotations : gmap string string;
  Linux : option Linux_t;
  Prestart : list string;
  CreateRuntime : list string;
  SandboxID : option string;
}.

Definition set_Linux (linux : option Linux_t) (d : Document) : Document :=
  {| Kept := Kept d; Annotations := Annotations d; Linux := linux; Prestart := Prestart d;
     CreateRuntime := CreateRuntime d; SandboxID := SandboxID d |}.

End specs.

(** ** config: overlay media and the overlay2 flag *)
Module config.

(** config.OverlayMedium is a string type: the empty string, "memory",
    "self", or "dir=<path>"; any other string is not a medium. *)
Inductive OverlayMedium :=
  | NoOverlay
  | MemoryOverlay
  | SelfOverlay
  | AnonOverlay (dir : string)
  | BadMedium (s : string).

Definition IsBackedByAnon (m : OverlayMedium) : bool :=
  match m with AnonOverlay _ => true | _ => false end.

Definition OverlayMedium_String (m : OverlayMedium) : string :=
  match m with
  | NoOverlay => ""
  | MemoryOverlay => "memory"
  | SelfOverlay => "self"
  | AnonOverlay d => "dir=" +:+ d
  | BadMedium s => s
  end.

(** config.Overlay2 as seen through its four accessors. *)
Record Overlay2 := {
  RootOverlayMedium : OverlayMedium;
  RootOverlaySize : string;
  SubMountOverlayMedium : OverlayMedium;
  SubMountOverlaySize : string;
}.

(** *** Flags (runsc/config/flags.go) *)

Definition flagDebug : string := "debug".
Definition flagDebugToUserLog : string := "debug-to-user-log".
Definition flagStrace : string := "strace".
Definition flagStraceSyscalls : string := "strace-syscalls".
Definition flagStraceLogSize : string := "strace-log-size".
Definition flagHostUDS : string := "host-uds".
Definition flagNetDisconnectOK : string := "net-disconnect-ok".
Definition flagReproduceNFTables : string := "reproduce-nftables".
Definition flagOCISeccomp : string := "oci-seccomp".
Definition flagOverlay2 : string := "overlay2".
Definition flagAllowFlagOverride : string := "allow-flag-override".

(** The value held by a flag or by a field of Config: what flag.Get returns.
    [VOther] stands for the flag types with their own parser (overlay2,
    enumerations), by their canonical text. *)
Inductive FlagValue :=
  | VBool (b : bool)
  | VInt (n : Z)
  | VString (s : string)
  | VOther (s : string).

#[global] Instance FlagValue_eq_dec : EqDecision FlagValue.
Proof. solve_decision. Defined.

(** A registered flag: the value it holds (what flag.Get returns) and its
    method [fl.Value.Set], which works on the value held: from that value
    and the text it yields the error it returns and the value the flag
    holds afterwards. A Set may write although it fails. *)
Record Flag := {
  Value : FlagValue;
  Set' : FlagValue -> string -> error * FlagValue;
}.

(** flag.FlagSet, as far as Lookup and Set are concerned. *)
Abbreviation FlagSet := (gmap string Flag).

(** Config, as reflection sees it: the struct fields in declaration order,
    each with its `flag` tag if it has one, and its value. *)
Record Config := { fields : list (option string * FlagValue) }.

(** The field Config.AllowFlagOverride carries the tag allow-flag-override. *)
Definition AllowFlagOverride (c : Config) : bool :=
  match List.find (fun f => bool_decide (f.1 = Some flagAllowFlagOverride)) (fields c) with
  | Some (_, VBool b) => b
  | _ => false
  end.

(** What config.go contributes to flags.go: the consistency check of a
    configuration and the parser of the overlay2 flag, which yields the
    medium of the parsed value. *)
Class ConfigExternals := {
  validate : Config -> error;
  Overlay2_Set : string -> string + OverlayMedium;
}.

(** strconv.ParseBool *)
Definition ParseBool (s : string) : string + bool :=
  if bool_decide (s ∈ ["1"; "t"; "T"; "TRUE"; "true"; "True"]) then inr true
  else if bool_decide (s ∈ ["0"; "f"; "F"; "FALSE"; "false"; "False"]) then inr false
  else inl ("strconv.ParseBool: parsing " +:+ quote s +:+ ": invalid syntax").

(** The Set methods of Go's flag package for bool and string flags.
    boolValue.Set assigns the result of strconv.ParseBool to the flag before
    it returns, whether or not the parse failed: a text that does not parse
    stores false and returns errParse. stringValue.Set never fails. *)
Definition errParse : string := "parse error".

Definition boolValue_Set (held : FlagValue) (s : string) : error * FlagValue :=
  match ParseBool s with
  | inl _ => (Some errParse, VBool false)
  | inr b => (None, VBool b)
  end.

Definition stringValue_Set (held : FlagValue) (s : string) : error * FlagValue :=
  (None, VString s).

Inductive Outcome (A : Type) :=
  | Returned (a : A)
  | Panicked (msg : string).

Arguments Returned {A} a.
Arguments Panicked {A} msg.

Section flags.
Context `{ConfigExternals}.

(** checkOverlay2 ensures that overlay2 can only be enabled using "memory" or
    "self" mediums. *)
Definition checkOverlay2 (name value : string) : error :=
  match Overlay2_Set value with
  | inl err => Some ("invalid overlay2 annotation: " +:+ err)
  | inr medium =>
      match medium with
      | NoOverlay | MemoryOverlay | SelfOverlay => None
      | _ => Some (quote value +:+ " overlay medium requires flag " +:+
                   quote flagAllowFlagOverride +:+ " to be enabled")
      end
  end.

(** checkOciSeccomp ensures that seccomp can be enabled but not disabled. *)
Definition checkOciSeccomp (name value : string) : error :=
  match ParseBool value with
  | inl err => Some err
  | inr enable =>
      if negb enable
      then Some ("disabling " +:+ quote name +:+ " requires flag " +:+
                 quote flagAllowFlagOverride +:+ " to be enabled")
      else None
  end.

(** overrideAllowlist lists all flags that can be changed using OCI
    annotations without an administrator setting --allow-flag-override. *)
Definition overrideAllowlist : list (string * option (string -> string -> error)) :=
  [ (flagDebug, None);
    (flagDebugToUserLog, None);
    (flagStrace, None);
    (flagStraceSyscalls, None);
    (flagStraceLogSize, None);
    (flagHostUDS, None);
    (flagNetDisconnectOK, None);
    (flagReproduceNFTables, None);
    (flagOverlay2, Some checkOverlay2);
    (flagOCISeccomp, Some checkOciSeccomp) ].

Definition allowlisted (name : string) : option (option (string -> string -> error)) :=
  snd <$> List.find (fun e => bool_decide (e.1 = name)) overrideAllowlist.

Definition isOverrideAllowed (c : Config) (name value : string) : error :=
  if AllowFlagOverride c then None
  else
    match allowlisted name with
    | Some check =>
        match check with
        | Some chk =>
            match chk name value with
            | Some err => Some err
            | None => None
            end
        | None => None
        end
    | None => Some "flag override disabled, use --allow-flag-override to enable it"
    end.

Definition errSetting (name value err : string) : string :=
  "error setting flag " +:+ name +:+ "=" +:+ quote value +:+ ": " +:+ err.

(** The loop of Override over the struct fields: [before] are the fields
    already passed, [rest] the fields still to visit. [fl.Value.Set] works
    on the flag in the flag set, so what it stored is there also when it
    returned an error; the field is written only when it returned nil. *)
Fixpoint Override_fields (c : Config) (flagSet : FlagSet) (name value : string)
    (force : bool) (before rest : list (option string * FlagValue))
    : Outcome (error * Config * FlagSet) :=
  match rest with
  | [] =>
      Returned (Some ("flag " +:+ quote name +:+ " not found. Cannot set it to " +:+ quote value),
                c, flagSet)
  | (tag, old) :: rest' =>
      if bool_decide (tag = Some name) then
        match flagSet !! name with
        | None => Panicked ("Flag " +:+ quote name +:+ " not found")
        | Some fl =>
            match (if force then None else isOverrideAllowed c name value) with
            | Some err => Returned (Some (errSetting name value err), c, flagSet)
            | None =>
                let (e, x) := Set' fl (Value fl) value in
                let flagSet' := <[name := {| Value := x; Set' := Set' fl |}]> flagSet in
                match e with
                | Some err => Returned (Some (errSetting name value err), c, flagSet')
                | None =>
                    let c' := {| fields := before ++ (tag, x) :: rest' |} in
                    Returned (validate c', c', flagSet')
                end
            end
        end
      else Override_fields c flagSet name value force (before ++ [(tag, old)]) rest'
  end.

(** Override writes a new value to a flag. *)
Definition Override (c : Config) (flagSet : FlagSet) (name value : string) (force : bool)
    : Outcome (error * Config * FlagSet) :=
  Override_fields c flagSet name value force [] (fields c).

End flags.

(** *** The fields of Config that the creation of a container reads

    Each is the field of the struct whose tag names the flag. *)
Definition boolField (name : string) (c : Config) : bool :=
  match List.find (fun f => bool_decide (f.1 = Some name)) (fields c) with
  | Some (_, VBool b) => b
  | _ => false
  end.

Definition RootDir (c : Config) : string :=
  match List.find (fun f => bool_decide (f.1 = Some "root")) (fields c) with
  | Some (_, VString s) => s
  | _ => ""
  end.

Definition SystemdCgroup : Config -> bool := boolField "systemd-cgroup".

Definition Rootless : Config -> bool := boolField "rootless".

Definition IgnoreCgroups : Config -> bool := boolField "ignore-cgroups".

Definition DirectFS : Config -> bool := boolField "directfs".

Definition TestOnlyAllowRunAsCurrentUserWithoutChroot : Config -> bool :=
  boolField "TESTONLY-unsafe-nonroot".

(** Config.Network, by the text of the network type (sandbox, host or
    none); the zero value is the sandbox network. *)
Definition Network (c : Config) : string :=
  match List.find (fun f => bool_decide (f.1 = Some "network")) (fields c) with
  | Some (_, VOther s) => s
  | Some (_, VString s) => s
  | _ => "sandbox"
  end.

Definition NetworkHost : string := "host".

End config.

(** ** boot: gofer mount configurations and mount hints *)
Module boot.

Inductive GoferMountConfLowerType := NoneLower | Lisafs | Erofs.

Inductive GoferMountConfUpperType :=
  | NoOverlay
  | MemoryOverlay
  | SelfOverlay
  | AnonOverlay.

Record GoferMountConf := {
  Lower : GoferMountConfLowerType;
  Upper : GoferMountConfUpperType;
  Size : string;
}.

#[global] Instance Lower_eq_dec : EqDecision GoferMountConfLowerType.
Proof. solve_decision. Defined.

#[global] Instance Upper_eq_dec : EqDecision GoferMountConfUpperType.
Proof. solve_decision. Defined.

(** Modelled from the spec: the methods of boot.GoferMountConf are not among
    the sources. By the data model a configuration is the pair (lower layer,
    upper layer); a mount is served by Lisafs or EROFS when that is its lower
    layer, and it has a self-backed filestore when its upper layer is the
    self overlay. *)
Definition ShouldUseLisafs (g : GoferMountConf) : bool :=
  bool_decide (Lower g = Lisafs).

Definition ShouldUseErofs (g : GoferMountConf) : bool :=
  bool_decide (Lower g = Erofs).

Definition IsSelfBacked (g : GoferMountConf) : bool :=
  bool_decide (Upper g = SelfOverlay).

(** boot.ContainerRuntimeState, what the sentry answers about a container. *)
Inductive ContainerRuntimeState :=
  | RuntimeStateInvalid
  | RuntimeStateCreating
  | RuntimeStateRunning
  | RuntimeStateStopped.

#[global] Instance ContainerRuntimeState_eq_dec : EqDecision ContainerRuntimeState.
Proof. solve_decision. Defined.

(** Mount type names: boot.Bind, tmpfs.Name, erofs.Name. *)
Definition Bind : string := "bind".
Definition tmpfs_Name : string := "tmpfs".
Definition erofs_Name : string := "erofs".

(** A pod mount hint. The predicates IsSandboxLocal and ShouldShareMount of
    boot.MountHint are not among the sources; the hint carries their
    results. *)
Record MountHint := {
  Name : string;
  Mount : specs.Mount;
  IsSandboxLocal : bool;
  ShouldShareMount : bool;
}.

Record PodMountHints := { Mounts : list MountHint }.

Record RootfsHint := {
  RMount : specs.Mount;
  Overlay : config.OverlayMedium;
  RSize : string;
}.

End boot.

(** ** cgroup and sandbox: handles persisted with the container *)
Module cgroup.

Record Cgroup := { CgroupPath : string }.

End cgroup.

Module sandbox.

Record Sandbox := {
  ID : string;
  Pid : Z;
  OriginalOOMScoreAdj : Z;
  MountHints : boot.PodMountHints;
  CgroupJSON : option cgroup.Cgroup;
}.

(** Modelled from the spec: Sandbox.IsRootContainer is not among the sources.
    The root container is the container whose id equals its sandbox id. *)
Definition IsRootContainer (s : Sandbox) (cid : string) : bool :=
  bool_decide (ID s = cid).

End sandbox.

(** ** container: the lifecycle controller (runsc/container/container.go) *)
Module container.

(** Status is a Go integer type with five named values; [StatusOther] stands
    for any other integer, which the default branch of changeStatus
    rejects. *)
Inductive Status :=
  | Creating
  | Created
  | Paused
  | Running
  | Stopped
  | StatusOther (n : Z).

#[global] Instance Status_eq_dec : EqDecision Status.
Proof. solve_decision. Defined.

(** The String method of Status is not among the sources; the lower-case
    name of the state is used in messages. *)
Definition Status_String (s : Status) : string :=
  match s with
  | Creating => "creating"
  | Created => "created"
  | Paused => "paused"
  | Running => "running"
  | Stopped => "stopped"
  | StatusOther n => "Status(" +:+ pretty n +:+ ")"
  end.

Record FullID := { SandboxID : string; ContainerID : string }.

Record StateFile := { RootDir : string; SaverID : FullID }.

(** The container record. BundleDir, CreatedAt, Owner and ConsoleSocket are
    carried by the Go struct but read by none of the operations below.
    A nil slice of gofer mount configurations is the empty list. *)
Record Container := {
  ID : string;
  Spec : specs.Spec;
  Status_ : Status;
  GoferPid : Z;
  Sandbox : option sandbox.Sandbox;
  CompatCgroup : option cgroup.Cgroup;
  Saver : StateFile;
  GoferMountConfs : list boot.GoferMountConf;
  goferIsChild : bool;
}.

Definition set_Status (s : Status) (c : Container) : Container :=
  {| ID := ID c; Spec := Spec c; Status_ := s; GoferPid := GoferPid c;
     Sandbox := Sandbox c; CompatCgroup := CompatCgroup c; Saver := Saver c;
     GoferMountConfs := GoferMountConfs c; goferIsChild := goferIsChild c |}.

Definition set_Sandbox (sb : option sandbox.Sandbox) (c : Container) : Container :=
  {| ID := ID c; Spec := Spec c; Status_ := Status_ c; GoferPid := GoferPid c;
     Sandbox := sb; CompatCgroup := CompatCgroup c; Saver := Saver c;
     GoferMountConfs := GoferMountConfs c; goferIsChild := goferIsChild c |}.

Definition set_GoferPid (p : Z) (c : Container) : Container :=
  {| ID := ID c; Spec := Spec c; Status_ := Status_ c; GoferPid := p;
     Sandbox := Sandbox c; CompatCgroup := CompatCgroup c; Saver := Saver c;
     GoferMountConfs := GoferMountConfs c; goferIsChild := goferIsChild c |}.

Definition set_Spec (spec : specs.Spec) (c : Container) : Container :=
  {| ID := ID c; Spec := spec; Status_ := Status_ c; GoferPid := GoferPid c;
     Sandbox := Sandbox c; CompatCgroup := CompatCgroup c; Saver := Saver c;
     GoferMountConfs := GoferMountConfs c; goferIsChild := goferIsChild c |}.

Definition set_Mounts (mounts : list specs.Mount) (spec : specs.Spec) : specs.Spec :=
  {| specs.Root := specs.Root spec; specs.Mounts := mounts;
     specs.Process := specs.Process spec; specs.Hooks := specs.Hooks spec;
     specs.SpecContainerType := specs.SpecContainerType spec |}.

Definition set_goferIsChild (b : bool) (c : Container) : Container :=
  {| ID := ID c; Spec := Spec c; Status_ := Status_ c; GoferPid := GoferPid c;
     Sandbox := Sandbox c; CompatCgroup := CompatCgroup c; Saver := Saver c;
     GoferMountConfs := GoferMountConfs c; goferIsChild := b |}.

Definition set_GoferMountConfs (l : list boot.GoferMountConf) (c : Container) : Container :=
  {| ID := ID c; Spec := Spec c; Status_ := Status_ c; GoferPid := GoferPid c;
     Sandbox := Sandbox c; CompatCgroup := CompatCgroup c; Saver := Saver c;
     GoferMountConfs := l; goferIsChild := goferIsChild c |}.

(** *** The world outside the process *)

Inductive FileKind := Dir | Regular.

Inductive Event :=
  | EvLock
  | EvUnlock
  | EvClose
  | EvSave (c : Container)
  | EvSaverDestroy
  | EvSandboxPause (cid : string)
  | EvSandboxResume (cid : string)
  | EvSandboxWait (cid : string)
  | EvSandboxSignalContainer (cid : string) (sig : Z) (all : bool)
  | EvSandboxDestroyContainer (cid : string)
  | EvSandboxStart (action : string) (cid : string)
  | EvSandboxContainerRuntimeState (cid : string)
  | EvCgroupJoin (cg : cgroup.Cgroup)
  | EvCgroupLeave (cg : cgroup.Cgroup)
  | EvKill (pid sig : Z)
  | EvWait4 (pid : Z)
  | EvUninstall (cg : cgroup.Cgroup)
  | EvRemove (path : string)
  | EvOpen (path : string)
  | EvOOMScoreAdj (pid score : Z)
  | EvHooks (hooks : list string).

(** What becomes of a write to /proc/<pid>/oom_score_adj: it is done, the
    process is gone (the file does not exist, or the write fails with ESRCH),
    or it fails otherwise. *)
Inductive OOMWrite :=
  | Written
  | ProcessGone
  | WriteFailed (err : string).

Record World := {
  fs : gmap string FileKind;
  saved : option Container;
  log : list Event;
}.

(** What createGoferProcess returns: the IO files, the filestore files, the
    device IO file and the mounts file, each by its name. *)
Record GoferFiles := {
  ioFiles : list string;
  goferFilestores : list string;
  devIOFile : option string;
  mountsFile : option string;
}.

(** Results of the calls that leave the process, for one operation. *)
Record Env := {
  env_lock : error;
  env_unlock : error;
  env_SaveLocked : error;
  env_SaverDestroy : error;
  env_SandboxPause : error;
  env_SandboxResume : error;
  env_SandboxWait : Z * error;
  env_SandboxIsRunning : bool;
  env_SandboxSignalContainer : error;
  env_SandboxDestroyContainer : error;
  env_SandboxStartRoot : error;
  env_SandboxStartSubcontainer : error;
  env_SandboxRestore : error;
  env_SandboxRestoreSubcontainer : error;
  env_SandboxContainerRuntimeState : boot.ContainerRuntimeState * error;
  env_CgroupJoin : cgroup.Cgroup -> error;
  env_ReadMounts : string + list specs.Mount;
  env_Kill : error;
  env_Wait4 : error;
  env_goferGone : bool;
  env_Uninstall : cgroup.Cgroup -> error;
  env_Remove : string -> error;
  env_LoadSandbox : list Container * error;
  env_writeOOMScoreAdj : Z -> OOMWrite;
  env_startGofer : string + Z * GoferFiles;
}.

Record State := { self : Container; world : World }.

Inductive Res (A : Type) :=
  | Ok (a : A) (s : State)
  | Panic (msg : string) (s : State).

Arguments Ok {A} a s.
Arguments Panic {A} msg s.

Definition M (A : Type) : Type := State -> Res A.

#[global] Instance M_ret : MRet M := fun A a s => Ok a s.

#[global] Instance M_bind : MBind M := fun A B f m s =>
  match m s with
  | Ok a s' => f a s'
  | Panic msg s' => Panic msg s'
  end.

Definition panic {A : Type} (msg : string) : M A := fun s => Panic msg s.

Definition getc : M Container := fun s => Ok (self s) s.

Definition modc (f : Container -> Container) : M unit :=
  fun s => Ok tt {| self := f (self s); world := world s |}.

Definition getw : M World := fun s => Ok (world s) s.

Definition modw (f : World -> World) : M unit :=
  fun s => Ok tt {| self := self s; world := f (world s) |}.

Definition emit (e : Event) : M unit :=
  modw (fun w => {| fs := fs w; saved := saved w; log := log w ++ [e] |}).

(** Go's [defer]: the deferred call runs when the body returns and also when
    it panics; if the deferred call panics too, its panic is the one that
    goes on. *)
Definition defer {A : Type} (cleanup : M unit) (body : M A) : M A := fun s =>
  match body s with
  | Ok a s' =>
      match cleanup s' with
      | Ok _ s'' => Ok a s''
      | Panic msg s'' => Panic msg s''
      end
  | Panic msg s' =>
      match cleanup s' with
      | Ok _ s'' => Panic msg s''
      | Panic msg' s'' => Panic msg' s''
      end
  end.

Definition invalidTransition (from to : Status) : string :=
  "invalid state transition: " +:+ Status_String from +:+ " => " +:+ Status_String to.

(** changeStatus transitions from one status to another ensuring that the
    transition is valid. *)
Definition changeStatus (s : Status) : M unit :=
  c ← getc;
  match s with
  | Creating =>
      panic (invalidTransition (Status_ c) s)
  | Created =>
      if bool_decide (Status_ c ≠ Creating) then panic (invalidTransition (Status_ c) s)
      else if bool_decide (Sandbox c = None) then panic "sandbox cannot be nil"
      else modc (set_Status s)
  | Paused =>
      if bool_decide (Status_ c ≠ Running) then panic (invalidTransition (Status_ c) s)
      else if bool_decide (Sandbox c = None) then panic "sandbox cannot be nil"
      else modc (set_Status s)
  | Running =>
      if bool_decide (Status_ c ≠ Created) && bool_decide (Status_ c ≠ Paused)
      then panic (invalidTransition (Status_ c) s)
      else if bool_decide (Sandbox c = None) then panic "sandbox cannot be nil"
      else modc (set_Status s)
  | Stopped =>
      modc (set_Status s)
  | StatusOther _ =>
      panic ("invalid new state: " +:+ Status_String s)
  end.

(** *** Functions of other packages

    specutils, boot and config functions called by the controller whose
    bodies are not among the sources. *)
Class Externals := {
  IsGoferMount : specs.Mount -> bool;
  IsReadonlyMount : list string -> bool;
  FindMount : boot.PodMountHints -> string -> option boot.MountHint;
  SelfFilestorePath : string -> string -> string;
  GetOverlay2 : config.Config -> config.Overlay2;
  GPUFunctionalityRequested : specs.Spec -> config.Config -> bool;
  TPUFunctionalityRequested : specs.Spec -> config.Config -> bool;
  GPUFunctionalityRequestedViaHook : specs.Spec -> config.Config -> bool;
  NewRootfsHint : specs.Spec -> string + option boot.RootfsHint;
}.

(** Modelled from the spec: boot.NewRootfsHint is not among the sources. By
    the mount planning rules a rootfs hint either requests EROFS, and the
    lower layer of the root is then Erofs, or the root is served by Lisafs as
    a bind mount. *)
Definition RootfsHintValid (h : boot.RootfsHint) : Prop :=
  specs.Type' (boot.RMount h) = boot.erofs_Name \/
  specs.Type' (boot.RMount h) = boot.Bind.

Section operations.
Context `{Externals}.
Context (env : Env).

(** [orReturn m k]: return the error of [m] to the caller if there is one,
    otherwise go on with [k]. *)
Definition orReturn (m : M error) (k : M error) : M error :=
  r ← m;
  match r with
  | Some err => mret (Some err)
  | None => k
  end.

(** *** The state file (4.1)

    Modelled from the spec: StateFile (runsc/container/state_file.go) is not
    among the sources. lock takes the advisory lock or fails; unlock releases
    it and UnlockOrDie panics when the release fails; save replaces the meta
    file with the record (goferIsChild is not part of it); destroy removes
    the container directory. *)
Definition Saver_lock : M error :=
  match env_lock env with
  | Some err => mret (Some err)
  | None => emit EvLock;; mret None
  end.

Definition Saver_UnlockOrDie : M unit :=
  match env_unlock env with
  | Some err => panic ("error releasing lock: " +:+ err)
  | None => emit EvUnlock
  end.

Definition Saver_close : M unit := emit EvClose.

Definition Saver_SaveLocked : M error :=
  match env_SaveLocked env with
  | Some err => mret (Some err)
  | None =>
      c ← getc;
      let record := set_goferIsChild false c in
      modw (fun w => {| fs := fs w; saved := Some record; log := log w |});;
      emit (EvSave record);;
      mret None
  end.

Definition Saver_Destroy : M error :=
  match env_SaverDestroy env with
  | Some err => mret (Some err)
  | None =>
      modw (fun w => {| fs := fs w; saved := None; log := log w |});;
      emit EvSaverDestroy;;
      mret None
  end.

(** *** The sandbox RPC client (4.6)

    The methods of sandbox.Sandbox are not among the sources. Each call is
    logged and answers what the environment says; a call through a nil
    sandbox pointer dereferences it. *)
Definition theSandbox : M sandbox.Sandbox :=
  c ← getc;
  match Sandbox c with
  | Some sb => mret sb
  | None => panic "runtime error: invalid memory address or nil pointer dereference"
  end.

Definition Sandbox_Wait (cid : string) : M (Z * error) :=
  theSandbox;; emit (EvSandboxWait cid);; mret (env_SandboxWait env).

Definition Sandbox_Pause (cid : string) : M error :=
  theSandbox;; emit (EvSandboxPause cid);; mret (env_SandboxPause env).

Definition Sandbox_Resume (cid : string) : M error :=
  theSandbox;; emit (EvSandboxResume cid);; mret (env_SandboxResume env).

Definition Sandbox_SignalContainer (cid : string) (sig : Z) (all : bool) : M error :=
  theSandbox;; emit (EvSandboxSignalContainer cid sig all);;
  mret (env_SandboxSignalContainer env).

Definition Sandbox_DestroyContainer (cid : string) : M error :=
  theSandbox;; emit (EvSandboxDestroyContainer cid);;
  mret (env_SandboxDestroyContainer env).

Definition Sandbox_StartRoot : M error :=
  c ← getc; theSandbox;; emit (EvSandboxStart "start root" (ID c));;
  mret (env_SandboxStartRoot env).

Definition Sandbox_StartSubcontainer : M error :=
  c ← getc; theSandbox;; emit (EvSandboxStart "start subcontainer" (ID c));;
  mret (env_SandboxStartSubcontainer env).

Definition Sandbox_Restore : M error :=
  c ← getc; theSandbox;; emit (EvSandboxStart "restore root" (ID c));;
  mret (env_SandboxRestore env).

Definition Sandbox_RestoreSubcontainer : M error :=
  c ← getc; theSandbox;; emit (EvSandboxStart "restore subcontainer" (ID c));;
  mret (env_SandboxRestoreSubcontainer env).

Definition Sandbox_ContainerRuntimeState (cid : string)
    : M (boot.ContainerRuntimeState * error) :=
  theSandbox;; emit (EvSandboxContainerRuntimeState cid);;
  mret (env_SandboxContainerRuntimeState env).

(** *** Operations of the container *)

(** saveLocked saves the container metadata to a file. *)
Definition saveLocked : M error :=
  r ← Saver_SaveLocked;
  match r with
  | Some err => mret (Some ("saving container metadata: " +:+ err))
  | None => mret None
  end.

(** IsSandboxRunning returns true if the sandbox exists and is running. *)
Definition IsSandboxRunning : M bool :=
  c ← getc;
  mret (bool_decide (Sandbox c ≠ None) && env_SandboxIsRunning env).

Definition requireStatus (action : string) (statuses : list Status) : M error :=
  c ← getc;
  if existsb (fun s => bool_decide (Status_ c = s)) statuses then mret None
  else mret (Some ("cannot " +:+ action +:+ " container " +:+ quote (ID c) +:+
                   " in state " +:+ Status_String (Status_ c))).

(** Wait waits for the container to exit, and returns its WaitStatus. *)
Definition Wait : M (Z * error) :=
  c ← getc;
  r ← Sandbox_Wait (ID c);
  (if bool_decide (r.2 = None) then changeStatus Stopped else mret tt);;
  mret r.

(** SignalContainer sends the signal to the container. *)
Definition SignalContainer (sig : Z) (all : bool) : M error :=
  orReturn (requireStatus "signal" [Running; Stopped]) (
    running ← IsSandboxRunning;
    if negb running then mret (Some "sandbox is not running")
    else
      c ← getc;
      Sandbox_SignalContainer (ID c) sig all).

(** Pause suspends the container and its kernel. *)
Definition Pause : M error :=
  orReturn Saver_lock (
    defer Saver_UnlockOrDie (
      c ← getc;
      if bool_decide (Status_ c ≠ Created) && bool_decide (Status_ c ≠ Running)
      then mret (Some ("cannot pause container " +:+ quote (ID c) +:+
                       " in state " +:+ Status_String (Status_ c)))
      else
        r ← Sandbox_Pause (ID c);
        match r with
        | Some err =>
            mret (Some ("pausing container " +:+ quote (ID c) +:+ ": " +:+ err))
        | None => changeStatus Paused;; saveLocked
        end)).

(** Resume unpauses the container and its kernel. *)
Definition Resume : M error :=
  orReturn Saver_lock (
    defer Saver_UnlockOrDie (
      c ← getc;
      if bool_decide (Status_ c ≠ Paused)
      then mret (Some ("cannot resume container " +:+ quote (ID c) +:+
                       " in state " +:+ Status_String (Status_ c)))
      else
        r ← Sandbox_Resume (ID c);
        match r with
        | Some err => mret (Some ("resuming container: " +:+ err))
        | None => changeStatus Running;; saveLocked
        end)).

Definition sandboxID (c : Container) : string := SandboxID (SaverID (Saver c)).

(** *** Host files *)

Inductive OSError :=
  | ENOENT
  | EOther (msg : string).

Definition OSError_String (e : OSError) : string :=
  match e with
  | ENOENT => "no such file or directory"
  | EOther msg => msg
  end.

Definition IsNotExist (e : OSError) : bool :=
  match e with ENOENT => true | EOther _ => false end.

(** os.Remove: a path that does not exist gives ENOENT; otherwise the
    environment may refuse the removal; otherwise the path is gone. *)
Definition os_Remove (path : string) : M (option OSError) :=
  w ← getw;
  match fs w !! path with
  | None => mret (Some ENOENT)
  | Some _ =>
      match env_Remove env path with
      | Some err => mret (Some (EOther err))
      | None =>
          modw (fun w => {| fs := delete path (fs w); saved := saved w; log := log w |});;
          emit (EvRemove path);;
          mret None
      end
  end.

(** os.Open of an existing path. *)
Definition os_Open (path : string) : M (option OSError) :=
  w ← getw;
  match fs w !! path with
  | None => mret (Some ENOENT)
  | Some _ => emit (EvOpen path);; mret None
  end.

Definition Cgroup_Uninstall (cg : cgroup.Cgroup) : M error :=
  emit (EvUninstall cg);; mret (env_Uninstall env cg).

Definition SIGKILL : Z := 9%Z.

(** The polling loop at the end of waitForStopped retries kill(pid, 0) every
    100ms for 5 seconds; [env_goferGone] says whether one of the polls finds
    the gofer gone. *)
Definition waitForStopped : M error :=
  c ← getc;
  if bool_decide (GoferPid c = 0%Z) then mret None
  else
    running ← IsSandboxRunning;
    still ← (if (running : bool)
             then r ← SignalContainer 0%Z false; mret (bool_decide (r = None))
             else mret false);
    if (still : bool) then mret (Some "container is still running")
    else if goferIsChild c then
      emit (EvWait4 (GoferPid c));;
      match env_Wait4 env with
      | Some err => mret (Some ("error waiting the gofer process: " +:+ err))
      | None => modc (set_GoferPid 0%Z);; mret None
      end
    else if env_goferGone env then modc (set_GoferPid 0%Z);; mret None
    else mret (Some "gofer is still running").

(** The first block of stop: if the container has a sandbox, the sandbox is
    told to destroy the container and the reference is dropped. It yields the
    error to return, or the parent cgroup to uninstall later (that of the
    sandbox, when the container is its root). *)
Definition stopInSandbox : M (string + option cgroup.Cgroup) :=
  c ← getc;
  match Sandbox c with
  | Some sb =>
      e ← Sandbox_DestroyContainer (ID c);
      match e with
      | Some err =>
          mret (inl ("destroying container " +:+ quote (ID c) +:+ ": " +:+ err))
      | None =>
          modc (set_Sandbox None);;
          mret (inr (if sandbox.IsRootContainer sb (ID c)
                     then sandbox.CgroupJSON sb else None))
      end
  | None => mret (inr None)
  end.

(** The rest of stop: the gofer is killed and awaited, and the cgroups are
    uninstalled. *)
Definition stopGofer (parentCgroup : option cgroup.Cgroup) : M error :=
  c ← getc;
  (if bool_decide (GoferPid c ≠ 0%Z) then emit (EvKill (GoferPid c) SIGKILL) else mret tt);;
  orReturn waitForStopped (
    orReturn (match CompatCgroup c with
              | Some cg => Cgroup_Uninstall cg
              | None => mret None
              end) (
      match parentCgroup with
      | Some cg => Cgroup_Uninstall cg
      | None => mret None
      end)).

(** stop stops the container (for regular containers) or the sandbox (for
    root containers), and waits for the container or sandbox and the gofer
    to stop. *)
Definition stop : M error :=
  r ← stopInSandbox;
  match r with
  | inl err => mret (Some err)
  | inr parentCgroup => stopGofer parentCgroup
  end.

Definition indexOutOfRange (i len : nat) : string :=
  "runtime error: index out of range [" +:+ pretty i +:+ "] with length " +:+ pretty len.

(** The loop of forEachSelfMount over Spec.Mounts. [fn] returns the error
    texts it appends to the error list of its caller. *)
Fixpoint forEachSelfMount_mounts (fn : string -> M (list string))
    (confs : list boot.GoferMountConf) (mounts : list specs.Mount)
    (goferMntIdx : nat) : M (list string) :=
  match mounts with
  | [] => mret []
  | m :: rest =>
      if negb (IsGoferMount m) then forEachSelfMount_mounts fn confs rest goferMntIdx
      else
        match confs !! goferMntIdx with
        | None => panic (indexOutOfRange goferMntIdx (length confs))
        | Some g =>
            e ← (if boot.IsSelfBacked g then fn (specs.Source m) else mret []);
            es ← forEachSelfMount_mounts fn confs rest (S goferMntIdx);
            mret (e ++ es)
        end
  end.

Definition forEachSelfMount (fn : string -> M (list string)) : M (list string) :=
  c ← getc;
  match GoferMountConfs c with
  | [] => mret []
  | g0 :: _ =>
      e ← (if boot.IsSelfBacked g0 then fn (specs.Path (specs.Root (Spec c))) else mret []);
      es ← forEachSelfMount_mounts fn (GoferMountConfs c) (specs.Mounts (Spec c)) 1;
      mret (e ++ es)
  end.

Definition isRoot (spec : specs.Spec) : bool :=
  bool_decide (specs.SpecContainerType spec ≠ specs.ContainerTypeContainer).

(** setOOMScoreAdj sets oom_score_adj to the given value for the given PID.
    It's a noop if the process has already exited. *)
Definition setOOMScoreAdj (pid scoreAdj : Z) : M error :=
  match env_writeOOMScoreAdj env pid with
  | Written => emit (EvOOMScoreAdj pid scoreAdj);; mret None
  | ProcessGone => mret None
  | WriteFailed err => mret (Some err)
  end.

(** The loop of adjustSandboxOOMScoreAdj: the pair (lowScore, scoreFound)
    after the containers seen so far. *)
Fixpoint lowestScore (containers : list Container) (lowScore : Z) (scoreFound : bool)
    : Z * bool :=
  match containers with
  | [] => (lowScore, scoreFound)
  | container :: rest =>
      if bool_decide (specs.SpecContainerType (Spec container) = specs.ContainerTypeSandbox)
      then lowestScore rest lowScore scoreFound
      else
        match specs.OOMScoreAdj (specs.Process (Spec container)) with
        | Some score =>
            if negb scoreFound || bool_decide (score < lowScore)%Z
            then lowestScore rest score true
            else lowestScore rest lowScore scoreFound
        | None => lowestScore rest lowScore scoreFound
        end
  end.

(** adjustSandboxOOMScoreAdj sets the oom_score_adj for the sandbox.
    oom_score_adj is set to the lowest oom_score_adj among the containers
    running in the sandbox. *)
Definition adjustSandboxOOMScoreAdj (s : sandbox.Sandbox) (spec : specs.Spec)
    (rootDir : string) (destroy : bool) : M error :=
  if isRoot spec && destroy then mret None
  else
    match env_LoadSandbox env with
    | (_, Some err) => mret (Some ("loading sandbox containers: " +:+ err))
    | (containers, None) =>
        match containers with
        | [] => mret None
        | first :: _ =>
            let '(lowScore, scoreFound) := lowestScore containers 0%Z false in
            r ← (if negb scoreFound && destroy then
                   match Sandbox first with
                   | Some sb => mret (sandbox.OriginalOOMScoreAdj sb, true)
                   | None =>
                       panic "runtime error: invalid memory address or nil pointer dereference"
                   end
                 else mret (lowScore, scoreFound));
            if negb r.2 then mret None
            else setOOMScoreAdj (sandbox.Pid s) r.1
        end
    end.

Definition executeHooksBestEffort (hooks : list string) : M unit :=
  emit (EvHooks hooks).

Definition newline : string := String "010"%char EmptyString.

(** strings.Join *)
Fixpoint Join (elems : list string) (sep : string) : string :=
  match elems with
  | [] => ""
  | [e] => e
  | e :: rest => e +:+ sep +:+ Join rest sep
  end.

Definition errList (prefix : string) (e : error) : list string :=
  match e with
  | Some err => [prefix +:+ err]
  | None => []
  end.

(** The test of the callback below: the sandbox is known and has a hint for
    the mount source that makes it a shared mount. *)
Definition sharedBySandbox (sb : option sandbox.Sandbox) (mountSrc : string) : bool :=
  match sb with
  | Some s =>
      match FindMount (sandbox.MountHints s) mountSrc with
      | Some hint => boot.ShouldShareMount hint
      | None => false
      end
  | None => false
  end.

(** The callback Destroy hands to forEachSelfMount. *)
Definition removeSelfFilestore (sb : option sandbox.Sandbox) (mountSrc : string)
    : M (list string) :=
  if sharedBySandbox sb mountSrc then mret []
  else
    c ← getc;
    let filestorePath := SelfFilestorePath mountSrc (sandboxID c) in
    r ← os_Remove filestorePath;
    match r with
    | Some err =>
        mret ["failed to delete filestore file " +:+ quote filestorePath +:+ ": " +:+
              OSError_String err]
    | None => mret []
    end.

(** The loop of Destroy over the mount hints of the sandbox, run when the
    root container is destroyed. *)
Fixpoint removeSharedFilestores (sid : string) (hints : list boot.MountHint)
    : M (list string) :=
  match hints with
  | [] => mret []
  | hint :: rest =>
      if negb (boot.ShouldShareMount hint) then removeSharedFilestores sid rest
      else
        let filestorePath := SelfFilestorePath (specs.Source (boot.Mount hint)) sid in
        r ← os_Remove filestorePath;
        let e := match r with
                 | Some err =>
                     if negb (IsNotExist err)
                     then ["failed to delete shared filestore file " +:+
                           quote filestorePath +:+ ": " +:+ OSError_String err]
                     else []
                 | None => []
                 end in
        es ← removeSharedFilestores sid rest;
        mret (e ++ es)
  end.

(** What Destroy does under the lock of the state file. *)
Definition destroyLocked : M error :=
  c ← getc;
  let sb := Sandbox c in
  e1 ← stop;
  e2 ← Saver_Destroy;
  e3 ← forEachSelfMount (removeSelfFilestore sb);
  e4 ← match sb with
       | Some s =>
           if sandbox.IsRootContainer s (ID c)
           then removeSharedFilestores (sandboxID c) (boot.Mounts (sandbox.MountHints s))
           else mret []
       | None => mret []
       end;
  changeStatus Stopped;;
  e5 ← match sb with
       | Some s => adjustSandboxOOMScoreAdj s (Spec c) (RootDir (Saver c)) true
       | None => mret None
       end;
  match specs.Hooks (Spec c) with
  | Some hooks => executeHooksBestEffort (specs.Poststop hooks)
  | None => mret tt
  end;;
  let errs := errList "stopping container: " e1 ++
              errList "deleting container state files: " e2 ++
              e3 ++ e4 ++ errList "" e5 in
  match errs with
  | [] => mret None
  | _ => mret (Some (Join errs newline))
  end.

(** Destroy stops all processes and frees all resources associated with the
    container. *)
Definition Destroy : M error :=
  orReturn Saver_lock (defer (Saver_UnlockOrDie;; Saver_close) destroyLocked).

(** *** Mount planning (4.4) *)

Definition createGoferConf (overlayMedium : config.OverlayMedium) (overlaySize : string)
    (mountType : string) (mountSrc : string) : M (string + boot.GoferMountConf) :=
  let lower :=
    if bool_decide (mountType = boot.Bind) then Some boot.Lisafs
    else if bool_decide (mountType = boot.tmpfs_Name) then Some boot.NoneLower
    else if bool_decide (mountType = boot.erofs_Name) then Some boot.Erofs
    else None in
  match lower with
  | None => mret (inl ("unsupported mount type " +:+ quote mountType +:+ " in mount hint"))
  | Some lower =>
      match overlayMedium with
      | config.NoOverlay =>
          mret (inr {| boot.Lower := lower; boot.Upper := boot.NoOverlay; boot.Size := "" |})
      | config.MemoryOverlay =>
          mret (inr {| boot.Lower := lower; boot.Upper := boot.MemoryOverlay;
                       boot.Size := overlaySize |})
      | config.SelfOverlay =>
          w ← getw;
          match fs w !! mountSrc with
          | None =>
              mret (inl ("failed to stat mount " +:+ quote mountSrc +:+
                         " to see if it were a directory: " +:+ OSError_String ENOENT))
          | Some Regular =>
              mret (inr {| boot.Lower := lower; boot.Upper := boot.MemoryOverlay;
                           boot.Size := overlaySize |})
          | Some Dir =>
              mret (inr {| boot.Lower := lower; boot.Upper := boot.SelfOverlay;
                           boot.Size := overlaySize |})
          end
      | _ =>
          if config.IsBackedByAnon overlayMedium
          then mret (inr {| boot.Lower := lower; boot.Upper := boot.AnonOverlay;
                            boot.Size := overlaySize |})
          else mret (inl ("unexpected overlay medium " +:+
                          quote (config.OverlayMedium_String overlayMedium)))
      end
  end.

Definition appendGoferConf (g : boot.GoferMountConf) : M unit :=
  modc (fun c => set_GoferMountConfs (GoferMountConfs c ++ [g]) c).

(** The loop of initGoferConfs over the bind mounts. *)
Fixpoint initGoferConfs_mounts (ovlConf : config.Overlay2)
    (mountHints : boot.PodMountHints) (mounts : list specs.Mount) : M error :=
  match mounts with
  | [] => mret None
  | m :: rest =>
      if negb (IsGoferMount m) then initGoferConfs_mounts ovlConf mountHints rest
      else
        let overlayMedium := config.SubMountOverlayMedium ovlConf in
        let overlaySize := config.SubMountOverlaySize ovlConf in
        let mountType := boot.Bind in
        let overlayMedium :=
          if IsReadonlyMount (specs.Options m) then config.NoOverlay else overlayMedium in
        let '(overlayMedium, mountType, overlaySize) :=
          match FindMount mountHints (specs.Source m) with
          | Some hint =>
              if boot.IsSandboxLocal hint then
                (config.SelfOverlay,
                 if negb (IsGoferMount (boot.Mount hint))
                 then specs.Type' (boot.Mount hint) else mountType,
                 "")
              else (overlayMedium, mountType, overlaySize)
          | None => (overlayMedium, mountType, overlaySize)
          end in
        r ← createGoferConf overlayMedium overlaySize mountType (specs.Source m);
        match r with
        | inl err => mret (Some err)
        | inr goferConf =>
            appendGoferConf goferConf;;
            initGoferConfs_mounts ovlConf mountHints rest
        end
  end.

(** initGoferConfs initializes c.GoferMountConfs with all the gofer configs
    that dictate how each gofer mount should be configured. *)
Definition initGoferConfs (ovlConf : config.Overlay2) (mountHints : boot.PodMountHints)
    (rootfsHint : option boot.RootfsHint) : M error :=
  c ← getc;
  let overlayMedium := config.RootOverlayMedium ovlConf in
  let overlaySize := config.RootOverlaySize ovlConf in
  let mountType := boot.Bind in
  let '(overlayMedium, mountType, overlaySize) :=
    match rootfsHint with
    | Some hint =>
        (boot.Overlay hint,
         if negb (IsGoferMount (boot.RMount hint))
         then specs.Type' (boot.RMount hint) else mountType,
         boot.RSize hint)
    | None => (overlayMedium, mountType, overlaySize)
    end in
  let overlayMedium :=
    if specs.Readonly (specs.Root (Spec c)) then config.NoOverlay else overlayMedium in
  r ← createGoferConf overlayMedium overlaySize mountType (specs.Path (specs.Root (Spec c)));
  match r with
  | inl err => mret (Some err)
  | inr goferConf =>
      appendGoferConf goferConf;;
      initGoferConfs_mounts ovlConf mountHints (specs.Mounts (Spec c))
  end.

(** shouldCreateDeviceGofer indicates whether a device gofer connection
    should be created. *)
Definition shouldCreateDeviceGofer (spec : specs.Spec) (conf : config.Config) : bool :=
  GPUFunctionalityRequested spec conf || TPUFunctionalityRequested spec conf.

(** shouldSpawnGofer indicates whether the gofer process should be spawned. *)
Definition shouldSpawnGofer (spec : specs.Spec) (conf : config.Config)
    (goferConfs : list boot.GoferMountConf) : bool :=
  if existsb boot.ShouldUseLisafs goferConfs then true
  else shouldCreateDeviceGofer spec conf.

(** createGoferProcess returns an IO file list and a mounts file on success.
    The part after the goferless branch (donations, namespaces, the exec of
    the gofer and the creation of the filestores) is represented by its
    outcome [env_startGofer]: an error, or the PID of the started gofer and
    the files handed back. *)
Definition createGoferProcess (conf : config.Config) (mountHints : boot.PodMountHints)
    (attached : bool) : M (string + GoferFiles) :=
  c ← getc;
  match NewRootfsHint (Spec c) with
  | inl err => mret (inl ("error creating rootfs hint: " +:+ err))
  | inr rootfsHint =>
      e ← initGoferConfs (GetOverlay2 conf) mountHints rootfsHint;
      match e with
      | Some err => mret (inl ("error initializing gofer confs: " +:+ err))
      | None =>
          c ← getc;
          match GoferMountConfs c with
          | [] => panic (indexOutOfRange 0 0)
          | g0 :: _ =>
              if negb (boot.ShouldUseLisafs g0) && GPUFunctionalityRequestedViaHook (Spec c) conf
              then mret (inl "nvidia-container-runtime-hook cannot be used together with non-lisafs backed root mount")
              else if negb (shouldSpawnGofer (Spec c) conf (GoferMountConfs c)) then
                if negb (boot.ShouldUseErofs g0)
                then panic "goferless mode is only possible with EROFS rootfs"
                else
                  match rootfsHint with
                  | None =>
                      panic "runtime error: invalid memory address or nil pointer dereference"
                  | Some hint =>
                      let src := specs.Source (boot.RMount hint) in
                      r ← os_Open src;
                      match r with
                      | Some err =>
                          mret (inl ("opening rootfs image " +:+ quote src +:+ ": " +:+
                                     OSError_String err))
                      | None =>
                          mret (inr {| ioFiles := [src]; goferFilestores := [];
                                       devIOFile := None; mountsFile := None |})
                      end
                  end
              else
                match env_startGofer env with
                | inl err => mret (inl ("gofer: " +:+ err))
                | inr (pid, files) =>
                    modc (set_GoferPid pid);;
                    modc (set_goferIsChild true);;
                    mret (inr files)
                end
          end
      end
  end.

(** runInCgroup executes fn inside the specified cgroup. If cg is nil,
    execute it in the current context. *)
Definition runInCgroup (cg : option cgroup.Cgroup) (fn : M error) : M error :=
  match cg with
  | None => fn
  | Some g =>
      match env_CgroupJoin env g with
      | Some err => mret (Some err)
      | None => emit (EvCgroupJoin g);; defer (emit (EvCgroupLeave g)) fn
      end
  end.

(** adjustGoferOOMScoreAdj sets the oom_store_adj for the container's gofer. *)
Definition adjustGoferOOMScoreAdj : M error :=
  c ← getc;
  match specs.OOMScoreAdj (specs.Process (Spec c)) with
  | Some score =>
      if bool_decide (GoferPid c = 0%Z) then mret None
      else setOOMScoreAdj (GoferPid c) score
  | None => mret None
  end.

(** The part of startImpl that runs under the lock of the state file. *)
Definition startLocked (conf : config.Config) (action : string)
    (startRoot startSub : M error) : M error :=
  orReturn (requireStatus action [Created]) (
    c ← getc;
    orReturn
      (if isRoot (Spec c) then startRoot
       else
         sb ← theSandbox;
         runInCgroup (sandbox.CgroupJSON sb) (
           r ← createGoferProcess conf (sandbox.MountHints sb) false;
           match r with
           | inl err => mret (Some err)
           | inr files =>
               orReturn
                 (match mountsFile files with
                  | Some _ =>
                      match env_ReadMounts env with
                      | inl err => mret (Some ("reading mounts file: " +:+ err))
                      | inr cleanMounts =>
                          modc (fun c => set_Spec (set_Mounts cleanMounts (Spec c)) c);;
                          mret None
                      end
                  | None => mret None
                  end)
                 startSub
           end)) (
      c ← getc;
      match specs.Hooks (Spec c) with
      | Some hooks => executeHooksBestEffort (specs.Poststart hooks)
      | None => mret tt
      end;;
      changeStatus Running;;
      saveLocked)).

(** startImpl: the lock is released once the record is saved, before the OOM
    scores are adjusted, and on every earlier way out. *)
Definition startImpl (conf : config.Config) (action : string)
    (startRoot startSub : M error) : M error :=
  orReturn Saver_lock (
    orReturn (defer Saver_UnlockOrDie (startLocked conf action startRoot startSub)) (
      c ← getc;
      sb ← theSandbox;
      orReturn (adjustSandboxOOMScoreAdj sb (Spec c) (RootDir (Saver c)) false)
               adjustGoferOOMScoreAdj)).

(** Start starts running the containerized process inside the sandbox. *)
Definition Start (conf : config.Config) : M error :=
  startImpl conf "start" Sandbox_StartRoot Sandbox_StartSubcontainer.

(** Restore takes a container and replaces its kernel and file system to
    restore a container from its state file. *)
Definition Restore (conf : config.Config) : M error :=
  startImpl conf "restore" Sandbox_Restore Sandbox_RestoreSubcontainer.

(** CheckStopped checks if the container is stopped and updates its status. *)
Definition CheckStopped : M unit :=
  c ← getc;
  r ← Sandbox_ContainerRuntimeState (ID c);
  match r.2 with
  | Some _ =>
      running ← IsSandboxRunning;
      if negb running then changeStatus Stopped else mret tt
  | None =>
      if bool_decide (r.1 = boot.RuntimeStateStopped) then changeStatus Stopped
      else mret tt
  end.

End operations.

(** *** Creation of a container (New, Run) *)

Definition set_CompatCgroup (cg : option cgroup.Cgroup) (c : Container) : Container :=
  {| ID := ID c; Spec := Spec c; Status_ := Status_ c; GoferPid := GoferPid c;
     Sandbox := Sandbox c; CompatCgroup := cg; Saver := Saver c;
     GoferMountConfs := GoferMountConfs c; goferIsChild := goferIsChild c |}.

Definition cgroupParentAnnotation : string := "dev.gvisor.spec.cgroup-parent".

(** A byte of the class [\w+\.-] of the regular expression of validateID:
    an ASCII letter or digit, or one of _ + . and -. *)
Definition idByte (c : ascii) : bool :=
  let b := nat_of_ascii c in
  bool_decide (48 <= b <= 57) || bool_decide (65 <= b <= 90) ||
  bool_decide (97 <= b <= 122) || bool_decide (c = "_"%char) ||
  bool_decide (c = "+"%char) || bool_decide (c = "."%char) || bool_decide (c = "-"%char).

(** validateID validates the container id: the regular expression
    ^[\w+\.-]+$ matches the texts that are not empty and consist of bytes of
    the class. *)
Definition validateID (id : string) : error :=
  if bool_decide (id ≠ "") && forallb idByte (list_ascii_of_string id) then None
  else Some ("invalid container id: " +:+ id).

(** Args is used to configure a new container. BundleDir, UserLog, PassFiles
    and ExecFile are handed on to the sandbox and read by nothing here. *)
Record Args := {
  ArgsID : string;
  ArgsSpec : specs.Document;
  ConsoleSocket : string;
  PIDFile : string;
  Attached : bool;
}.

(** What becomes of Cgroup.Install: it is done, it fails with EACCES or
    EROFS, or it fails otherwise. *)
Inductive InstallError :=
  | InstallDenied (err : string)
  | InstallFailed (err : string).

(** What fmt.Sscanf with the format "%d %d %d" makes of a line of a map file:
    an error, or the number of items parsed and the three numbers. *)
Inductive Scanned :=
  | ScanError (err : string)
  | ScannedInts (numParsed : nat) (myStart parentStart rangeLen : Z).

(** A file of /proc/self as bufio.Scanner reads it: the lines, each with what
    Sscanf makes of it, and the error of the scanner at the end. *)
Record MapFile := {
  mapLines : list (string * Scanned);
  scanErr : error;
}.

(** Results of the calls of the creation that leave the package or the
    process. specutils.GetNS answers for the user namespace, by the Linux
    section of the document; the cgroup driver answers by the path. *)
Record CreateEnv := {
  env_MkdirAll : error;
  env_GetNS_user : option specs.Linux_t -> bool;
  env_OpenMapFile : string -> string + MapFile;
  env_LockForNew : error;
  env_TransformSystemdPath : string -> string -> bool -> string + string;
  env_NewFromPath : string -> bool -> string + option cgroup.Cgroup;
  env_Install : cgroup.Cgroup -> option InstallError;
  env_IsOnlyV2 : bool;
  env_NewPodMountHints : string + boot.PodMountHints;
  env_nvidiaHostSetup : error;
  env_sandboxNew : string + sandbox.Sandbox;
  env_Load : string + Container;
  env_NewWithSocket : error;
  env_CreateSubcontainer : error;
  env_executeHooks : list string -> error;
  env_WriteFile : error;
}.

Definition nilDereference : string :=
  "runtime error: invalid memory address or nil pointer dereference".

Section creation.
Context `{Externals}.
Context (env : Env) (cenv : CreateEnv).

(** cleanup.Make(f) followed by [defer cu.Clean()]: [f] runs when the
    function is left, by return or by panic, unless cu.Release() has been
    called. The body returns, with its result, whether it has called
    Release. [deferred] stands for the calls deferred after cu.Clean(): they
    run before it. *)
Definition withCleanup {A : Type} (f : M unit) (deferred : M unit) (body : M (bool * A))
    : M A := fun s =>
  match body s with
  | Ok (released, a) s' =>
      defer (if (released : bool) then mret tt else f) (defer deferred (mret a)) s'
  | Panic msg s' => defer f (defer deferred (panic msg)) s'
  end.

Definition createParentCgroup (parentPath : string) (conf : config.Config)
    : M (string + option cgroup.Cgroup) :=
  c ← getc;
  if config.SystemdCgroup conf then
    match env_TransformSystemdPath cenv parentPath (ID c) (config.Rootless conf) with
    | inl err => mret (inl err)
    | inr systemdPath => mret (env_NewFromPath cenv systemdPath (config.SystemdCgroup conf))
    end
  else mret (env_NewFromPath cenv parentPath (config.SystemdCgroup conf)).

(** cgroupInstall creates cgroups dir structure and sets their respective
    resources. In case of success, returns the cgroups instance and nil
    error. For rootless, it's possible that cgroups operations fail, in this
    case the error is suppressed and a nil cgroups instance is returned to
    indicate that no cgroups was configured. *)
Definition cgroupInstall (conf : config.Config) (cg : option cgroup.Cgroup)
    : M (string + option cgroup.Cgroup) :=
  match cg with
  | None => panic nilDereference
  | Some g =>
      match env_Install cenv g with
      | None => mret (inr (Some g))
      | Some (InstallDenied err) =>
          if config.Rootless conf then mret (inr None)
          else mret (inl ("configuring cgroup: " +:+ err))
      | Some (InstallFailed err) => mret (inl ("configuring cgroup: " +:+ err))
      end
  end.

(** setupCgroupForSubcontainer sets up empty cgroups for subcontainers. *)
Definition setupCgroupForSubcontainer (conf : config.Config) (spec : specs.Document)
    : M (string + option cgroup.Cgroup) :=
  if isRoot (specs.Kept spec) &&
     bool_decide (specs.Annotations spec !! cgroupParentAnnotation = None)
  then mret (inr None)
  else
    match specs.Linux spec with
    | None => mret (inr None)
    | Some linux =>
        if bool_decide (specs.CgroupsPath linux = "") then mret (inr None)
        else
          r ← createParentCgroup (specs.CgroupsPath linux) conf;
          match r with
          | inl err => mret (inl err)
          | inr None => mret (inr None)
          | inr (Some cg) => cgroupInstall conf (Some cg)
          end
    end.

(** setupCgroupForRoot configures and returns cgroup for the sandbox and the
    root container. If `cgroupParentAnnotation` is set, use that path as the
    sandbox cgroup and use Spec.Linux.CgroupsPath as the root container
    cgroup. The first block yields what to return at once, or the parent
    cgroup to install. *)
Definition setupCgroupForRoot (conf : config.Config) (spec : specs.Document)
    : M (string + option cgroup.Cgroup * option cgroup.Cgroup) :=
  found ← match specs.Annotations spec !! cgroupParentAnnotation with
          | Some parentPath =>
              r ← createParentCgroup parentPath conf;
              match r with
              | inl err => mret (inl (inl err))
              | inr parentCgroup => mret (inr parentCgroup)
              end
          | None =>
              match specs.Linux spec with
              | None => mret (inl (inr (None, None)))
              | Some linux =>
                  if bool_decide (specs.CgroupsPath linux = "")
                  then mret (inl (inr (None, None)))
                  else
                    r ← createParentCgroup (specs.CgroupsPath linux) conf;
                    match r with
                    | inl err => mret (inl (inl err))
                    | inr None => mret (inl (inr (None, None)))
                    | inr (Some cg) => mret (inr (Some cg))
                    end
              end
          end;
  match found with
  | inl result => mret result
  | inr parentCgroup =>
      match specs.Linux spec with
      | None => panic nilDereference
      | Some _ =>
          r ← cgroupInstall conf parentCgroup;
          match r with
          | inl err => mret (inl err)
          | inr None => mret (inr (None, None))
          | inr (Some parent) =>
              r ← setupCgroupForSubcontainer conf spec;
              match r with
              | inl err => Cgroup_Uninstall env parent;; mret (inl err)
              | inr subCgroup => mret (inr (Some parent, subCgroup))
              end
          end
      end
  end.

(** The loop of getIdentityMapping over the lines of the map file. *)
Fixpoint identityMappings (mapFile : string) (lines : list (string * Scanned))
    (mappings : list specs.LinuxIDMapping) : string + list specs.LinuxIDMapping :=
  match lines with
  | [] => inr mappings
  | (line, scanned) :: rest =>
      match scanned with
      | ScanError err =>
          inl ("failed to parse line " +:+ quote line +:+ " in file " +:+ mapFile +:+
               ": " +:+ err)
      | ScannedInts numParsed myStart parentStart rangeLen =>
          if bool_decide (numParsed ≠ 3)
          then inl ("failed to parse 3 integers from line " +:+ quote line +:+
                    " in file " +:+ mapFile)
          else
            (* Create an identity mapping with the current userns. *)
            identityMappings mapFile rest
              (mappings ++ [{| specs.ContainerID := myStart; specs.HostID := myStart;
                               specs.Size := rangeLen |}])
      end
  end.

Definition getIdentityMapping (mapFileName : string) : string + list specs.LinuxIDMapping :=
  let mapFile := "/proc/self/" +:+ mapFileName in
  match env_OpenMapFile cenv mapFile with
  | inl err => inl ("failed to open " +:+ mapFile +:+ ": " +:+ err)
  | inr file =>
      match identityMappings mapFile (mapLines file) [] with
      | inl err => inl err
      | inr mappings =>
          match scanErr file with
          | Some err => inl ("failed to scan file " +:+ mapFile +:+ ": " +:+ err)
          | None => inr mappings
          end
      end
  end.

Definition set_Namespaces (namespaces : list specs.LinuxNamespace) (l : specs.Linux_t)
    : specs.Linux_t :=
  {| specs.UIDMappings := specs.UIDMappings l; specs.GIDMappings := specs.GIDMappings l;
     specs.CgroupsPath := specs.CgroupsPath l; specs.Namespaces := namespaces |}.

Definition set_UIDMappings (mappings : list specs.LinuxIDMapping) (l : specs.Linux_t)
    : specs.Linux_t :=
  {| specs.UIDMappings := mappings; specs.GIDMappings := specs.GIDMappings l;
     specs.CgroupsPath := specs.CgroupsPath l; specs.Namespaces := specs.Namespaces l |}.

Definition set_GIDMappings (mappings : list specs.LinuxIDMapping) (l : specs.Linux_t)
    : specs.Linux_t :=
  {| specs.UIDMappings := specs.UIDMappings l; specs.GIDMappings := mappings;
     specs.CgroupsPath := specs.CgroupsPath l; specs.Namespaces := specs.Namespaces l |}.

Definition set_CgroupsPath (path : string) (l : specs.Linux_t) : specs.Linux_t :=
  {| specs.UIDMappings := specs.UIDMappings l; specs.GIDMappings := specs.GIDMappings l;
     specs.CgroupsPath := path; specs.Namespaces := specs.Namespaces l |}.

(** modifySpecForDirectfs: the error, and the Linux section of the document
    as the function leaves it (it writes to the document it is given, also
    before it returns an error). *)
Definition modifySpecForDirectfs (conf : config.Config) (linux : option specs.Linux_t)
    : error * option specs.Linux_t :=
  if negb (config.DirectFS conf) || config.TestOnlyAllowRunAsCurrentUserWithoutChroot conf
  then (None, linux)
  else if bool_decide (config.Network conf = config.NetworkHost) then (None, linux)
  else if env_GetNS_user cenv linux then (None, linux)
  else
    let l := default specs.emptyLinux linux in
    if bool_decide (specs.UIDMappings l ≠ []) || bool_decide (specs.GIDMappings l ≠ [])
    then (Some "spec defines UID/GID mappings without defining userns", Some l)
    else
      let l1 :=
        set_Namespaces
          (specs.Namespaces l ++
           [{| specs.NsType := specs.UserNamespace; specs.NsPath := "" |}]) l in
      match getIdentityMapping "uid_map" with
      | inl err => (Some err, Some l1)
      | inr uidMappings =>
          let l2 := set_UIDMappings uidMappings l1 in
          match getIdentityMapping "gid_map" with
          | inl err => (Some err, Some l2)
          | inr gidMappings => (None, Some (set_GIDMappings gidMappings l2))
          end
      end.

(** StateFile.LockForNew takes the lock of a state file that is new, and
    fails when a container of the same id exists (4.1). *)
Definition Saver_LockForNew : M error :=
  match env_LockForNew cenv with
  | Some err => mret (Some err)
  | None => emit EvLock;; mret None
  end.

(** executeHooks (hook.go) runs the hooks and stops at the first that
    fails. *)
Definition executeHooks (hooks : list string) : M error :=
  emit (EvHooks hooks);; mret (env_executeHooks cenv hooks).

(** nvProxyPreGoferHostSetup: what follows the test of the hook (the search
    for nvidia-container-cli, the kernel modules, the device files) is
    represented by its outcome. *)
Definition nvProxyPreGoferHostSetup (spec : specs.Spec) (conf : config.Config) : error :=
  if negb (GPUFunctionalityRequestedViaHook spec conf) then None
  else env_nvidiaHostSetup cenv.

(** The creation of the sandbox of a root container, between the lock and
    the change of status. *)
Definition newRoot (conf : config.Config) (args : Args) (spec : specs.Document) : M error :=
  let linux := default specs.emptyLinux (specs.Linux spec) in
  let linux :=
    if bool_decide (specs.CgroupsPath linux = "") &&
       negb (config.TestOnlyAllowRunAsCurrentUserWithoutChroot conf)
    then set_CgroupsPath ("/" +:+ ArgsID args) linux
    else linux in
  let spec := specs.set_Linux (Some linux) spec in
  r ← (if negb (config.IgnoreCgroups conf) then
         r ← setupCgroupForRoot conf spec;
         match r with
         | inl err => mret (inl ("cannot set up cgroup for root: " +:+ err))
         | inr (parentCgroup, subCgroup) =>
             mret (inr (subCgroup,
                        if bool_decide (subCgroup ≠ None) && negb (config.SystemdCgroup conf) &&
                           env_IsOnlyV2 cenv
                        then subCgroup else parentCgroup))
         end
       else mret (inr (None, None)));
  match r with
  | inl err => mret (Some err)
  | inr (subCgroup, containerCgroup) =>
      modc (set_CompatCgroup subCgroup);;
      match env_NewPodMountHints cenv with
      | inl err => mret (Some ("error creating pod mount hints: " +:+ err))
      | inr mountHints =>
          match nvProxyPreGoferHostSetup (specs.Kept spec) conf with
          | Some err => mret (Some err)
          | None =>
              runInCgroup env containerCgroup (
                r ← createGoferProcess env conf mountHints (Attached args);
                match r with
                | inl err => mret (Some ("cannot create gofer process: " +:+ err))
                | inr _ =>
                    match env_sandboxNew cenv with
                    | inl err => mret (Some ("cannot create sandbox: " +:+ err))
                    | inr sand => modc (set_Sandbox (Some sand));; mret None
                    end
                end)
          end
      end
  end.

(** The creation of a container in the sandbox that exists. *)
Definition newSubcontainer (conf : config.Config) (args : Args) (spec : specs.Document)
    : M error :=
  match env_Load cenv with
  | inl err => mret (Some ("cannot load sandbox: " +:+ err))
  | inr sb =>
      modc (set_Sandbox (Sandbox sb));;
      r ← setupCgroupForSubcontainer conf spec;
      match r with
      | inl err => mret (Some err)
      | inr subCgroup =>
          modc (set_CompatCgroup subCgroup);;
          orReturn
            (if bool_decide (ConsoleSocket args ≠ "") then
               match env_NewWithSocket cenv with
               | Some err =>
                   mret (Some ("setting up console with socket " +:+
                               quote (ConsoleSocket args) +:+ ": " +:+ err))
               | None => mret None
               end
             else mret None)
            (theSandbox;;
             match env_CreateSubcontainer cenv with
             | Some err => mret (Some ("cannot create subcontainer: " +:+ err))
             | None => mret None
             end)
      end
  end.

(** What New does under the lock of the state file. *)
Definition newLocked (conf : config.Config) (args : Args) (spec : specs.Document) : M error :=
  orReturn
    (if isRoot (specs.Kept spec) then newRoot conf args spec
     else newSubcontainer conf args spec) (
    changeStatus Created;;
    orReturn (saveLocked env) (
      orReturn
        (c ← getc;
         match specs.Hooks (Spec c) with
         | Some _ =>
             orReturn (executeHooks (specs.Prestart spec))
                      (executeHooks (specs.CreateRuntime spec))
         | None => mret None
         end)
        (if bool_decide (PIDFile args ≠ "") then
           match env_WriteFile cenv with
           | Some err => mret (Some ("error writing PID file: " +:+ err))
           | None => mret None
           end
         else mret None))).

(** The record that New starts from. *)
Definition newContainer (conf : config.Config) (args : Args) (sandboxID : string)
    : Container := {|
  ID := ArgsID args;
  Spec := specs.Kept (ArgsSpec args);
  Status_ := Creating;
  GoferPid := 0;
  Sandbox := None;
  CompatCgroup := None;
  Saver := {| RootDir := config.RootDir conf;
              SaverID := {| SandboxID := sandboxID; ContainerID := ArgsID args |} |};
  GoferMountConfs := [];
  goferIsChild := false;
|}.

(** New creates the container in a new Sandbox process, unless the metadata
    indicates that an existing Sandbox should be used. [cleanup] is the
    Destroy of the cleanup, with the answers of the environment at that
    time. A lock that cannot be taken releases the cleanup, and nothing
    happens between cleanup.Make and the taking of the lock: the cleanup is
    armed from there on, and Release is called just before the return
    without error. The root directory holds the state files, which the World
    keeps apart from the other files of the host. *)
Definition New (cleanup : M error) (conf : config.Config) (args : Args) : M error :=
  match validateID (ArgsID args) with
  | Some err => mret (Some err)
  | None =>
      match env_MkdirAll cenv with
      | Some err =>
          mret (Some ("creating container root directory " +:+ quote (config.RootDir conf) +:+
                      ": " +:+ err))
      | None =>
          let '(e, linux) := modifySpecForDirectfs conf (specs.Linux (ArgsSpec args)) in
          match e with
          | Some err => mret (Some ("failed to modify spec for directfs: " +:+ err))
          | None =>
              let spec := specs.set_Linux linux (ArgsSpec args) in
              match (if isRoot (specs.Kept spec) then Some (ArgsID args)
                     else specs.SandboxID spec) with
              | None => mret (Some "no sandbox ID found when creating container")
              | Some sandboxID =>
                  modc (fun _ => newContainer conf args sandboxID);;
                  locked ← Saver_LockForNew;
                  match locked with
                  | Some err =>
                      mret (Some ("cannot lock container metadata file: " +:+ err))
                  | None =>
                      withCleanup (cleanup;; mret tt) (Saver_UnlockOrDie env) (
                        e ← newLocked conf args spec;
                        mret (bool_decide (e = None), e))
                  end
              end
          end
      end
  end.

End creation.

Section running.
Context `{Externals}.

(** Run is a helper that calls Create + Start + Wait. Each step has the
    answers of the environment at its time. The forwarding of signals to a
    terminal acts on the calling process only and has no part here. *)
Definition Run (newEnv : Env) (cenv : CreateEnv) (startEnv waitEnv destroyEnv : Env)
    (conf : config.Config) (args : Args) : M (Z * error) :=
  e ← New newEnv cenv (Destroy destroyEnv) conf args;
  match e with
  | Some err => mret (0%Z, Some ("creating container: " +:+ err))
  | None =>
      withCleanup (Destroy destroyEnv;; mret tt) (mret tt) (
        e ← Start startEnv conf;
        match e with
        | Some err => mret (false, (0%Z, Some ("starting container: " +:+ err)))
        | None =>
            if Attached args then r ← Wait waitEnv; mret (false, r)
            else mret (true, (0%Z, None))
        end)
  end.

End running.

End container.
(** ** control: the lifecycle RPCs of the sentry (pkg/sentry/control/lifecycle.go) *)
Module control.

(** containerState is the state of the container. *)
Inductive containerState :=
  | stateCreated
  | stateRunning
  | stateStopped.

#[global] Instance containerState_eq_dec : EqDecision containerState.
Proof. solve_decision. Defined.

(** The init thread group of a container, by its id and the number of its
    tasks that have not exited. *)
Record ThreadGroup := { TGID : Z; Count : nat }.

Record Container := {
  containerID : string;
  tg : option ThreadGroup;
  state : containerState;
}.

(** What the RPCs ask of the kernel. *)
Inductive KernelCall :=
  | KPause
  | KUnpause
  | KSendExternalSignalThreadGroup (tgid : Z) (signo : Z)
  | KSendContainerSignal (cid : string) (signo : Z).

Record Lifecycle := {
  containerMap : gmap string Container;
  kernelCalls : list KernelCall;
}.

(** Results of the two signalling calls of the kernel. *)
Record KernelEnv := {
  env_SendExternalSignalThreadGroup : error;
  env_SendContainerSignal : error;
}.

Record SignalContainerArgs := {
  ContainerID : string;
  Signo : Z;
  SignalAll : bool;
}.

Definition call (k : KernelCall) (l : Lifecycle) : Lifecycle :=
  {| containerMap := containerMap l; kernelCalls := kernelCalls l ++ [k] |}.

Definition getInitContainerProcess (l : Lifecycle) (containerID : string)
    : string + option ThreadGroup :=
  match containerMap l !! containerID with
  | None => inl ("container " +:+ containerID +:+ " not started")
  | Some c => inr (tg c)
  end.

(** SignalContainer signals the container in multi-container mode. It returns
    error if the container hasn't started or has exited. *)
Definition SignalContainer (kenv : KernelEnv) (args : SignalContainerArgs) (l : Lifecycle)
    : error * Lifecycle :=
  match getInitContainerProcess l (ContainerID args) with
  | inl err => (Some err, l)
  | inr tg =>
      let running :=
        match containerMap l !! ContainerID args with
        | Some c => bool_decide (state c = stateRunning)
        | None => false
        end in
      if negb running then (Some (ContainerID args +:+ " container not running"), l)
      else if negb (SignalAll args) then
        match tg with
        | None => (Some "no process exists in <nil>", l)
        | Some t =>
            (env_SendExternalSignalThreadGroup kenv,
             call (KSendExternalSignalThreadGroup (TGID t) (Signo args)) l)
        end
      else
        (env_SendContainerSignal kenv,
         call KUnpause (call (KSendContainerSignal (ContainerID args) (Signo args))
                           (call KPause l)))
  end.

(** *** The other RPCs of the lifecycle service *)

(** containerState is a Go integer type: the three constants are 0, 1 and 2
    (iota), and [%v] prints the number. *)
Definition containerState_int (s : containerState) : Z :=
  match s with
  | stateCreated => 0
  | stateRunning => 1
  | stateStopped => 2
  end.

Definition set_state (s : containerState) (c : Container) : Container :=
  {| containerID := containerID c; tg := tg c; state := s |}.

(** The assignment [c.state = newState] through the pointer held by the
    map. *)
Definition store (containerID : string) (c : Container) (l : Lifecycle) : Lifecycle :=
  {| containerMap := <[containerID := c]> (containerMap l); kernelCalls := kernelCalls l |}.

Definition invalidTransition (from : containerState) (to : Z) : string :=
  "invalid state transition: " +:+ pretty (containerState_int from) +:+ " => " +:+ pretty to.

(** updateContainerState: [newState] is the integer behind the Go value, so
    that the default branch of the switch has its inputs. *)
Definition updateContainerState (containerID : string) (newState : Z) (l : Lifecycle)
    : config.Outcome (error * Lifecycle) :=
  match containerMap l !! containerID with
  | None => config.Returned (Some ("container " +:+ containerID +:+ " not started"), l)
  | Some c =>
      if bool_decide (newState = containerState_int stateCreated) then
        config.Panicked (invalidTransition (state c) newState)
      else if bool_decide (newState = containerState_int stateRunning) then
        if bool_decide (state c ≠ stateCreated)
        then config.Panicked (invalidTransition (state c) newState)
        else config.Returned (None, store containerID (set_state stateRunning c) l)
      else if bool_decide (newState = containerState_int stateStopped) then
        config.Returned (None, store containerID (set_state stateStopped c) l)
      else config.Panicked ("invalid new state: " +:+ pretty newState)
  end.

(** The arguments of StartContainer that the registration of the container
    reads. *)
Record StartContainerArgs := {
  StartContainerID : string;
  Files : list string;
  DonatedFDs : list Z;
}.

(** StartContainer will start a new container in the sandbox. What lies
    between the check of the donated files and the creation of the init
    process (credentials, limits, the import of the files, the mount
    namespace, the resolution of the binary and of the home directory,
    Kernel.CreateProcess) is represented by its outcome [created]: an error,
    or the thread group of the new init process. Kernel.StartProcess is not
    among the recorded kernel calls. The error of updateContainerState is
    dropped, as in the source. *)
Definition StartContainer (created : string + ThreadGroup) (args : StartContainerArgs)
    (l : Lifecycle) : config.Outcome (error * Lifecycle) :=
  if bool_decide (length (Files args) ≠ length (DonatedFDs args)) then
    config.Returned (Some ("FilePayload.Files and DonatedFDs must have same number of elements (" +:+
                    pretty (length (Files args)) +:+ " != " +:+
                    pretty (length (DonatedFDs args)) +:+ ")"), l)
  else
    match created with
    | inl err => config.Returned (Some err, l)
    | inr t =>
        let c := {| containerID := StartContainerID args; tg := Some t;
                    state := stateCreated |} in
        match updateContainerState (StartContainerID args) (containerState_int stateRunning)
                (store (StartContainerID args) c l) with
        | config.Returned (_, l') => config.Returned (None, l')
        | config.Panicked msg => config.Panicked msg
        end
    end.

(** Pause pauses all tasks, blocking until they are stopped. *)
Definition Pause (l : Lifecycle) : error * Lifecycle := (None, call KPause l).

(** Resume resumes all tasks. *)
Definition Resume (l : Lifecycle) : error * Lifecycle := (None, call KUnpause l).

Definition nilDereference : string :=
  "runtime error: invalid memory address or nil pointer dereference".

(** WaitContainer waits for the container to exit and returns the exit
    status: the error, and the value written to [waitStatus] if one is
    written. ThreadGroup.WaitExited blocks until the thread group has exited
    and [exitStatus] is what ThreadGroup.ExitStatus answers then; the
    conversion to uint32 keeps its low 32 bits. *)
Definition WaitContainer (exitStatus : ThreadGroup -> Z) (containerID : string)
    (l : Lifecycle) : config.Outcome (error * option Z * Lifecycle) :=
  match getInitContainerProcess l containerID with
  | inl err => config.Returned (Some err, None, l)
  | inr None => config.Panicked nilDereference
  | inr (Some t) =>
      let waitStatus := (exitStatus t mod 2 ^ 32)%Z in
      match updateContainerState containerID (containerState_int stateStopped) l with
      | config.Returned (Some err, l') => config.Returned (Some err, Some waitStatus, l')
      | config.Returned (None, l') => config.Returned (None, Some waitStatus, l')
      | config.Panicked msg => config.Panicked msg
      end
  end.

(** IsContainerRunning returns true if the container is running.
    [isRunning] is the value the caller's variable holds before the call; the
    result carries the value it holds afterwards. *)
Definition IsContainerRunning (containerID : string) (isRunning : bool) (l : Lifecycle)
    : config.Outcome (error * bool * Lifecycle) :=
  match containerMap l !! containerID with
  | None => config.Returned (None, isRunning, l)
  | Some c =>
      if bool_decide (state c ≠ stateRunning) then config.Returned (None, isRunning, l)
      else
        match tg c with
        | None => config.Panicked nilDereference
        | Some t =>
            if bool_decide (Count t = 0)
            then config.Returned (None, isRunning, store containerID (set_state stateStopped c) l)
            else config.Returned (None, true, l)
        end
  end.

End control.

(** ** cmd: the do and wait commands (runsc/cmd/do.go, runsc/cmd/wait.go) *)
Module cmd.

(** *** Go's strings, strconv and fmt, as far as the commands use them *)

(** strings.Split with a separator of one byte. *)
Fixpoint Split (s : string) (sep : ascii) : list string :=
  match s with
  | EmptyString => [""]
  | String c rest =>
      if bool_decide (c = sep) then "" :: Split rest sep
      else
        match Split rest sep with
        | [] => [String c ""]
        | x :: xs => String c x :: xs
        end
  end.

(** The width in bytes of the white space rune at the head of [s], by
    unicode.IsSpace on the UTF-8 decoding of [s]; 0 if there is none. The
    white space runes are U+0009 to U+000D, U+0020, U+0085, U+00A0, U+1680,
    U+2000 to U+200A, U+2028, U+2029, U+202F, U+205F and U+3000. *)
Definition spaceWidth (s : string) : nat :=
  match s with
  | EmptyString => 0
  | String c rest =>
      let b := nat_of_ascii c in
      if bool_decide (9 <= b <= 13) || bool_decide (b = 32) then 1
      else
        match rest with
        | EmptyString => 0
        | String c1 rest1 =>
            let b1 := nat_of_ascii c1 in
            if bool_decide (b = 194) then
              if bool_decide (b1 = 133) || bool_decide (b1 = 160) then 2 else 0
            else
              match rest1 with
              | EmptyString => 0
              | String c2 _ =>
                  let b2 := nat_of_ascii c2 in
                  if bool_decide (b = 225) then
                    if bool_decide (b1 = 154) && bool_decide (b2 = 128) then 3 else 0
                  else if bool_decide (b = 226) then
                    if bool_decide (b1 = 128) &&
                       (bool_decide (128 <= b2 <= 138) || bool_decide (b2 = 168) ||
                        bool_decide (b2 = 169) || bool_decide (b2 = 175))
                    then 3
                    else if bool_decide (b1 = 129) && bool_decide (b2 = 159) then 3
                    else 0
                  else if bool_decide (b = 227) then
                    if bool_decide (b1 = 128) && bool_decide (b2 = 128) then 3 else 0
                  else 0
              end
        end
  end.

(** The scan of strings.Fields: [skip] bytes of a white space rune are still
    to be passed; [cur] is the field being read, if one has begun. *)
Fixpoint Fields_scan (s : string) (skip : nat) (cur : option string) : list string :=
  match s with
  | EmptyString =>
      match cur with
      | Some f => [f]
      | None => []
      end
  | String c rest =>
      match skip with
      | S skip' => Fields_scan rest skip' cur
      | 0 =>
          match spaceWidth s with
          | 0 =>
              Fields_scan rest 0
                (Some (match cur with Some f => f +:+ String c "" | None => String c "" end))
          | S w =>
              match cur with
              | Some f => f :: Fields_scan rest w None
              | None => Fields_scan rest w None
              end
          end
      end
  end.

(** strings.Fields *)
Definition Fields (s : string) : list string := Fields_scan s 0 None.

Definition digit (c : ascii) : option Z :=
  let b := nat_of_ascii c in
  if bool_decide (48 <= b <= 57) then Some (Z.of_nat b - 48)%Z else None.

(** What strconv makes of a string of digits. *)
Inductive Parsed :=
  | Number (n : Z)
  | SyntaxError
  | RangeError.

(** The loop of strconv.ParseUint in base 10 for 64 bits: it stops at the
    first byte that is not a digit, or as soon as the number exceeds
    64 bits. *)
Fixpoint ParseUint_scan (s : string) (n : Z) : Parsed :=
  match s with
  | EmptyString => Number n
  | String c rest =>
      match digit c with
      | None => SyntaxError
      | Some d =>
          if bool_decide (n >= (2 ^ 64 - 1) / 10 + 1)%Z then RangeError
          else if bool_decide (n * 10 + d > 2 ^ 64 - 1)%Z then RangeError
          else ParseUint_scan rest (n * 10 + d)%Z
      end
  end.

(** strconv.Atoi: an optional sign and decimal digits, within the range of a
    64-bit int. *)
Definition Atoi (s : string) : string + Z :=
  let failed (why : string) : string + Z :=
    inl ("strconv.Atoi: parsing " +:+ quote s +:+ ": " +:+ why) in
  let '(negative, body) :=
    match s with
    | String c rest =>
        if bool_decide (c = "-"%char) then (true, rest)
        else if bool_decide (c = "+"%char) then (false, rest)
        else (false, s)
    | EmptyString => (false, s)
    end in
  match body with
  | EmptyString => failed "invalid syntax"
  | _ =>
      match ParseUint_scan body 0 with
      | SyntaxError => failed "invalid syntax"
      | RangeError => failed "value out of range"
      | Number n =>
          if negative then
            if bool_decide (n > 2 ^ 63)%Z then failed "value out of range" else inr (- n)%Z
          else
            if bool_decide (n >= 2 ^ 63)%Z then failed "value out of range" else inr n
      end
  end.

(** The conversions of Go between integer types keep the low bits. *)
Definition uint32 (n : Z) : Z := (n mod 2 ^ 32)%Z.

Definition int64 (n : Z) : Z := ((n + 2 ^ 63) mod 2 ^ 64 - 2 ^ 63)%Z.

(** *** runsc do *)

(** fmt.Sprintf("%d %d %d", m.ContainerID, m.HostID, m.Size) *)
Definition formatMapping (m : specs.LinuxIDMapping) : string :=
  pretty (specs.ContainerID m) +:+ " " +:+ pretty (specs.HostID m) +:+ " " +:+
  pretty (specs.Size m).

(** idMapSlice.String implements flag.Value.String. *)
Definition idMapSlice_String (maps : list specs.LinuxIDMapping) : string :=
  container.Join (formatMapping <$> maps) ",".

(** The loop of idMapSlice.Set over the mappings between the commas; the
    mappings read before an invalid one stay appended. *)
Fixpoint Set_idMaps (maps : list specs.LinuxIDMapping) (idMaps : list string)
    : error * list specs.LinuxIDMapping :=
  match idMaps with
  | [] => (None, maps)
  | idMap :: rest =>
      match Fields idMap with
      | [f0; f1; f2] =>
          match Atoi f0, Atoi f1, Atoi f2 with
          | inr cid, inr hid, inr size =>
              Set_idMaps
                (maps ++ [{| specs.ContainerID := uint32 cid; specs.HostID := uint32 hid;
                           specs.Size := uint32 size |}])
                rest
          | _, _, _ => (Some ("invalid mapping: " +:+ idMap), maps)
          end
      | _ => (Some ("invalid mapping: " +:+ idMap), maps)
      end
  end.

(** idMapSlice.Set implements flag.Value.Set. *)
Definition idMapSlice_Set (maps : list specs.LinuxIDMapping) (s : string)
    : error * list specs.LinuxIDMapping :=
  Set_idMaps maps (Split s ","%char).

Definition calculatePeerIP (ip : string) : string + string :=
  match Split ip "."%char with
  | [p0; p1; p2; p3] =>
      match Atoi p3 with
      | inl err => inl ("invalid IP format " +:+ quote ip +:+ ": " +:+ err)
      | inr n =>
          let n := int64 (n + 1) in
          let n := if bool_decide (n > 255)%Z then 1%Z else n in
          inr (p0 +:+ "." +:+ p1 +:+ "." +:+ p2 +:+ "." +:+ pretty n)
      end
  | _ => inl ("invalid IP format " +:+ quote ip)
  end.

(** *** runsc wait *)

(** unix.WaitStatus (golang.org/x/sys/unix): a uint32 whose low seven bits
    are 0 for a process that exited, 0x7F for a stopped one, and otherwise
    the signal that ended it; the exit code is in the next byte. *)
Definition Exited (w : Z) : bool := bool_decide (Z.land w 127 = 0)%Z.

Definition Signaled (w : Z) : bool :=
  bool_decide (Z.land w 127 ≠ 127)%Z && bool_decide (Z.land w 127 ≠ 0)%Z.

Definition Signal (w : Z) : Z := if Signaled w then Z.land w 127 else (-1)%Z.

Definition ExitStatus (w : Z) : Z :=
  if Exited w then Z.land (Z.shiftr w 8) 255 else (-1)%Z.

(** exitStatus returns the correct exit status for a process based on if it
    was signaled or exited cleanly. *)
Definition exitStatus (status : Z) : Z :=
  if Signaled status then (128 + Signal status)%Z else ExitStatus status.

End cmd.

(** * The vocabulary of the properties *)

Import container.

(** The transitions the state machine enumerates. *)
Definition permitted (from to : Status) : bool :=
  match from, to with
  | Creating, Created => true
  | Created, Running => true
  | Running, Paused => true
  | Paused, Running => true
  | _, Stopped => true
  | _, _ => false
  end.

(** The state once the status [s] is recorded. *)
Definition recorded (s : Status) (st : State) : State :=
  {| self := set_Status s (self st); world := world st |}.

(** The state in which a computation ends, by return or by panic. *)
Definition final {A : Type} (r : Res A) : State :=
  match r with
  | Ok _ st' => st'
  | Panic _ st' => st'
  end.

(** [keeps m]: running [m] leaves the status as it is, whether [m] returns or
    panics. [follows m]: running [m] leaves the status as it is or moves it
    along one permitted transition. *)
Definition keeps {A : Type} (m : M A) : Prop :=
  forall st, Status_ (self (final (m st))) = Status_ (self st).

Definition one_step (s s' : Status) : Prop := s' = s \/ permitted s s' = true.

Definition follows {A : Type} (m : M A) : Prop :=
  forall st, one_step (Status_ (self st)) (Status_ (self (final (m st)))).

(** The operations of the controller embedded above, as an orchestrator
    issues them; each comes with the answers of the environment for it.
    [OpChangeStatus] is a bare request for a status, as New makes for Created
    once the sandbox exists. *)
Inductive Op :=
  | OpChangeStatus (s : Status)
  | OpCreateGoferProcess (conf : config.Config) (hints : boot.PodMountHints) (attached : bool)
  | OpStart (conf : config.Config)
  | OpRestore (conf : config.Config)
  | OpCheckStopped
  | OpWait
  | OpSignalContainer (sig : Z) (all : bool)
  | OpPause
  | OpResume
  | OpDestroy.

Definition runOp `{Externals} (env : Env) (op : Op) : M unit :=
  match op with
  | OpChangeStatus s => changeStatus s
  | OpCreateGoferProcess conf hints attached =>
      createGoferProcess env conf hints attached;; mret tt
  | OpStart conf => Start env conf;; mret tt
  | OpRestore conf => Restore env conf;; mret tt
  | OpCheckStopped => CheckStopped env
  | OpWait => Wait env;; mret tt
  | OpSignalContainer sig all => SignalContainer env sig all;; mret tt
  | OpPause => Pause env;; mret tt
  | OpResume => Resume env;; mret tt
  | OpDestroy => Destroy env;; mret tt
  end.

(** The status of the container after each operation of a sequence; a panic
    ends the sequence. *)
Fixpoint statuses `{Externals} (ops : list (Env * Op)) (st : State) : list Status :=
  match ops with
  | [] => []
  | (env, op) :: rest =>
      match runOp env op st with
      | Ok _ st' => Status_ (self st') :: statuses rest st'
      | Panic _ st' => [Status_ (self st')]
      end
  end.

(** [chain s l]: starting from [s], every status of [l] is the one before it
    or is reached from it by a permitted transition. *)
Inductive chain : Status -> list Status -> Prop :=
  | chain_nil s : chain s []
  | chain_cons s s' l : one_step s s' -> chain s' l -> chain s (s' :: l).

(** The world after the calls [e] have been made, and nothing else. *)
Definition logged (e : list Event) (w : World) : World :=
  {| fs := fs w; saved := saved w; log := log w ++ e |}.

(** The state after [score] has been written to the oom_score_adj of [pid]. *)
Definition written (pid score : Z) (st : State) : State :=
  {| self := self st; world := logged [EvOOMScoreAdj pid score] (world st) |}.

(** The state after the configurations [l] have been appended to the plan. *)
Definition appended (l : list boot.GoferMountConf) (st : State) : State :=
  {| self := set_GoferMountConfs (GoferMountConfs (self st) ++ l) (self st);
     world := world st |}.

(** What createGoferProcess hands back in goferless mode: the image, alone. *)
Definition goferlessFiles (src : string) : GoferFiles :=
  {| ioFiles := [src]; goferFilestores := []; devIOFile := None; mountsFile := None |}.

(** The scores specified by the containers of a sandbox that are not of
    container type "sandbox". *)
Definition specified_scores (containers : list Container) : list Z :=
  omap (fun c =>
          if bool_decide (specs.SpecContainerType (Spec c) = specs.ContainerTypeSandbox)
          then None
          else specs.OOMScoreAdj (specs.Process (Spec c)))
       containers.

Arguments specified_scores : simpl never.

(** [m] is in [l] and no element of [l] is below it. *)
Definition is_minimum (m : Z) (l : list Z) : Prop :=
  m ∈ l /\ forall x, x ∈ l -> (m <= x)%Z.

(** What the plan promises for the upper layer of a gofer mount. *)
Definition planned_upper `{Externals} (files : gmap string FileKind) (hints : boot.PodMountHints)
    (m : specs.Mount) (g : boot.GoferMountConf) : Prop :=
  match FindMount hints (specs.Source m) with
  | Some hint =>
      if boot.IsSandboxLocal hint then
        (files !! specs.Source m = Some Dir /\ boot.Upper g = boot.SelfOverlay) \/
        (files !! specs.Source m = Some Regular /\ boot.Upper g = boot.MemoryOverlay)
      else IsReadonlyMount (specs.Options m) = true -> boot.Upper g = boot.NoOverlay
  | None => IsReadonlyMount (specs.Options m) = true -> boot.Upper g = boot.NoOverlay
  end.

(** The permission isOverrideAllowed grants: the runtime allows flag
    overrides, or the flag is on the allowlist and passes its check there. *)
Definition overridable `{config.ConfigExternals} (c : config.Config) (name value : string) : Prop :=
  config.AllowFlagOverride c = true \/
  exists check, config.allowlisted name = Some check /\
                forall chk, check = Some chk -> chk name value = None.

(** What no step of Destroy undoes: the spec, the plan and the identity of
    the container stay; a sandbox reference that is nil stays nil; a file
    that is absent from the host stays absent. *)
Definition settled (st st' : State) : Prop :=
  Spec (self st') = Spec (self st) /\
  GoferMountConfs (self st') = GoferMountConfs (self st) /\
  Saver (self st') = Saver (self st) /\
  (Sandbox (self st) = None -> Sandbox (self st') = None) /\
  (forall path, fs (world st) !! path = None -> fs (world st') !! path = None).

Definition settles {A : Type} (m : M A) : Prop :=
  forall st, settled st (final (m st)).

(** The host path of the self-backed filestore of the root. *)
Definition rootFilestore `{Externals} (c : Container) : string :=
  SelfFilestorePath (specs.Path (specs.Root (Spec c))) (sandboxID c).

(** ** What an operation leaves behind *)

(** [stable R m]: the state in which [m] ends, by return or by panic, is
    related by [R] to the state in which it starts. *)
Definition stable (R : relation State) {A : Type} (m : M A) : Prop :=
  forall st, R st (final (m st)).

(** [emits p st st']: from [st] to [st'] the log has grown by events that
    all satisfy [p]. *)
Definition emits (p : Event -> bool) : relation State := fun st st' =>
  exists evs, log (world st') = log (world st) ++ evs /\ forallb p evs = true.

Definition isLocking (e : Event) : bool :=
  match e with
  | EvLock | EvUnlock => true
  | _ => false
  end.

Definition isUninstall (e : Event) : bool :=
  match e with
  | EvUninstall _ => true
  | _ => false
  end.

Definition notLocking (e : Event) : bool := negb (isLocking e).

Definition notUninstall (e : Event) : bool := negb (isUninstall e).

(** [quiet m]: [m] neither takes nor releases the lock of the state file. *)
Abbreviation quiet := (stable (emits notLocking)).

(** The locking events among [evs]. *)
Definition locking (evs : list Event) : list Event := List.filter isLocking evs.

Arguments locking : simpl never.

(** What an operation that takes the lock of the state file leaves of it,
    by the answers of the environment: nothing happens if the lock cannot be
    taken; the lock is taken once and released once; or the release fails,
    and the operation panics with the lock taken. *)
Definition releasesLock (env : Env) {A : Type} (m : M A) : Prop :=
  forall st,
    exists evs,
      log (world (final (m st))) = log (world st) ++ evs /\
      match env_lock env, env_unlock env with
      | Some _, _ => evs = []
      | None, None => locking evs = [EvLock; EvUnlock]
      | None, Some _ => locking evs = [EvLock] /\ exists msg st', m st = Panic msg st'
      end.

(** [sameSelf st st']: the record of the container is the same. *)
Definition sameSelf : relation State := fun st st' => self st' = self st.

(** [woundDown st st']: what has been torn down stays torn down: a dropped
    sandbox reference, a cleared gofer PID, a removed state file and the
    status Stopped. *)
Definition woundDown : relation State := fun st st' =>
  (Sandbox (self st) = None -> Sandbox (self st') = None) /\
  (GoferPid (self st) = 0%Z -> GoferPid (self st') = 0%Z) /\
  (saved (world st) = None -> saved (world st') = None) /\
  (Status_ (self st) = Stopped -> Status_ (self st') = Stopped).

(** The state file holds the record of the container as it is in memory
    (goferIsChild is not saved). *)
Definition synced (st : State) : Prop :=
  saved (world st) = Some (set_goferIsChild false (self st)).

(** [sameRecord st st']: neither the record in memory nor the saved one has
    changed. *)
Definition sameRecord : relation State := fun st st' =>
  self st' = self st /\ saved (world st') = saved (world st).

(** The state after an operation has taken and released the lock and done
    nothing else. *)
Definition lockedAndReleased (st : State) : State :=
  {| self := self st; world := logged [EvLock; EvUnlock] (world st) |}.

(** What CheckStopped concludes from the answers of the sentry and of the
    sandbox process: the container has stopped if the sentry says so, or if
    the sentry cannot be asked and the sandbox process is not running. *)
Definition foundStopped (env : Env) : bool :=
  match env_SandboxContainerRuntimeState env with
  | (state, None) => bool_decide (state = boot.RuntimeStateStopped)
  | (_, Some _) => negb (env_SandboxIsRunning env)
  end.

(** ** The lifecycle service of the sentry *)

(** The RPCs of the sentry's lifecycle service, with the answers of the
    kernel they depend on. *)
Inductive Rpc :=
  | RpcStartContainer (created : string + control.ThreadGroup)
      (args : control.StartContainerArgs)
  | RpcWaitContainer (exitStatus : control.ThreadGroup -> Z) (containerID : string)
  | RpcIsContainerRunning (containerID : string)
  | RpcSignalContainer (kenv : control.KernelEnv) (args : control.SignalContainerArgs)
  | RpcPause
  | RpcResume.

(** One RPC served to its end; what it answers is dropped. *)
Definition serve (rpc : Rpc) (l : control.Lifecycle) : config.Outcome control.Lifecycle :=
  match rpc with
  | RpcStartContainer created args =>
      match control.StartContainer created args l with
      | config.Returned (_, l') => config.Returned l'
      | config.Panicked msg => config.Panicked msg
      end
  | RpcWaitContainer exitStatus containerID =>
      match control.WaitContainer exitStatus containerID l with
      | config.Returned (_, _, l') => config.Returned l'
      | config.Panicked msg => config.Panicked msg
      end
  | RpcIsContainerRunning containerID =>
      match control.IsContainerRunning containerID false l with
      | config.Returned (_, _, l') => config.Returned l'
      | config.Panicked msg => config.Panicked msg
      end
  | RpcSignalContainer kenv args => config.Returned (control.SignalContainer kenv args l).2
  | RpcPause => config.Returned (control.Pause l).2
  | RpcResume => config.Returned (control.Resume l).2
  end.

(** RPCs served one after the other. *)
Fixpoint serveAll (rpcs : list Rpc) (l : control.Lifecycle)
    : config.Outcome control.Lifecycle :=
  match rpcs with
  | [] => config.Returned l
  | rpc :: rest =>
      match serve rpc l with
      | config.Returned l' => serveAll rest l'
      | config.Panicked msg => config.Panicked msg
      end
  end.

(** The lifecycle of a sentry that has started no container and made no
    call yet. *)
Definition newLifecycle : control.Lifecycle :=
  {| control.containerMap := ∅; control.kernelCalls := [] |}.

(** Every registered container has an init thread group. *)
Definition populated (l : control.Lifecycle) : Prop :=
  forall cid c, control.containerMap l !! cid = Some c -> control.tg c ≠ None.

Definition starts (cid : string) (rpc : Rpc) : bool :=
  match rpc with
  | RpcStartContainer _ args => bool_decide (control.StartContainerID args = cid)
  | _ => false
  end.

Definition stateOf (cid : string) (l : control.Lifecycle) : option control.containerState :=
  control.state <$> control.containerMap l !! cid.

(** Created comes before Running, and Running before Stopped. *)
Definition advanced (s s' : control.containerState) : Prop :=
  (control.containerState_int s <= control.containerState_int s')%Z.

(** ** Strings and numbers of the commands *)

(** Every field of the mapping fits 32 bits. *)
Definition fits32 (m : specs.LinuxIDMapping) : Prop :=
  (0 <= specs.ContainerID m < 2 ^ 32)%Z /\ (0 <= specs.HostID m < 2 ^ 32)%Z /\
  (0 <= specs.Size m < 2 ^ 32)%Z.

(** The byte [c] does not occur in [s]. *)
Fixpoint without (c : ascii) (s : string) : Prop :=
  match s with
  | EmptyString => True
  | String c' rest => c' ≠ c /\ without c rest
  end.

(** [s] consists of decimal digits. *)
Fixpoint numeric (s : string) : Prop :=
  match s with
  | EmptyString => True
  | String c rest => cmd.digit c ≠ None /\ numeric rest
  end.

(** The last part of an IPv4 address that calculatePeerIP makes of the last
    part [n] of the address it is given. *)
Definition peerOctet (n : Z) : Z := if bool_decide (n = 255)%Z then 1%Z else (n + 1)%Z.

(** ** Configuration and flags *)

(** The tags of the fields of a configuration, in the order of the fields. *)
Definition tags (c : config.Config) : list string := omap fst (config.fields c).

(** The configuration and the flag set agree: every field that has a tag
    holds what the flag of that name holds. *)
Definition agree (c : config.Config) (flagSet : gmap string config.Flag) : Prop :=
  forall name v,
    (Some name, v) ∈ config.fields c ->
    exists fl, flagSet !! name = Some fl /\ config.Value fl = v.

(** ** Creation *)

(** [sameIdentity st st']: the id, the spec and the state file of the
    container are the same. *)
Definition sameIdentity : relation State := fun st st' =>
  ID (self st') = ID (self st) /\ Spec (self st') = Spec (self st) /\
  Saver (self st') = Saver (self st).

(** The events by which [st'] is ahead of [st] take and release the lock of
    the state file in the order [l]. *)
Definition locksBetween (st st' : State) (l : list Event) : Prop :=
  exists evs, log (world st') = log (world st) ++ evs /\ locking evs = l.

(** The mapping maps each id to itself. *)
Definition identity (m : specs.LinuxIDMapping) : Prop :=
  specs.HostID m = specs.ContainerID m.

(** The namespace that modifySpecForDirectfs adds. *)
Definition userNamespace : specs.LinuxNamespace :=
  {| specs.NsType := specs.UserNamespace; specs.NsPath := "" |}.

(** The number of lines of a map file of /proc/self; 0 if it cannot be
    opened. *)
Definition mapFileLines (cenv : CreateEnv) (mapFileName : string) : nat :=
  match env_OpenMapFile cenv ("/proc/self/" +:+ mapFileName) with
  | inl _ => 0
  | inr file => length (mapLines file)
  end.

(** modifySpecForDirectfs goes on to give the sandbox a user namespace of its
    own: directfs is on, this is no unsafe test run, the network is not the
    one of the host, and the document names no user namespace. *)
Definition directfsInEffect (cenv : CreateEnv) (conf : config.Config)
    (linux : option specs.Linux_t) : Prop :=
  config.DirectFS conf = true /\
  config.TestOnlyAllowRunAsCurrentUserWithoutChroot conf = false /\
  config.Network conf ≠ config.NetworkHost /\
  env_GetNS_user cenv linux = false.

(** The container holds neither a sandbox nor a cgroup of its own. *)
Definition unclaimed (st : State) : Prop :=
  Sandbox (self st) = None /\ CompatCgroup (self st) = None.

(** [bare st st']: if the container is unclaimed in [st], it is still so in
    [st'], and no cgroup has been uninstalled in between. *)
Definition bare : relation State := fun st st' =>
  unclaimed st -> emits notUninstall st st' /\ unclaimed st'.

Arguments bare : simpl never.

(** * Fixtures: a root container in a running sandbox

    Concrete stand-ins for the functions of other packages and for the
    environment, used to run the operations on explicit inputs. *)

Definition test_externals : Externals := {|
  IsGoferMount m :=
    bool_decide (specs.Type' m = "bind") && negb (bool_decide (specs.Source m = ""));
  IsReadonlyMount opts := bool_decide ("ro" ∈ opts);
  FindMount hints src :=
    List.find (fun h => bool_decide (specs.Source (boot.Mount h) = src)) (boot.Mounts hints);
  SelfFilestorePath src sid := src +:+ "/.gvisor.filestore." +:+ sid;
  GetOverlay2 _ :=
    {| config.RootOverlayMedium := config.SelfOverlay; config.RootOverlaySize := "";
       config.SubMountOverlayMedium := config.NoOverlay; config.SubMountOverlaySize := "" |};
  GPUFunctionalityRequested _ _ := false;
  TPUFunctionalityRequested _ _ := false;
  GPUFunctionalityRequestedViaHook _ _ := false;
  NewRootfsHint _ := inr None;
|}.

Definition test_spec : specs.Spec := {|
  specs.Root := {| specs.Path := "/bundle/rootfs"; specs.Readonly := false |};
  specs.Mounts := [];
  specs.Process := {| specs.OOMScoreAdj := None |};
  specs.Hooks := None;
  specs.SpecContainerType := specs.ContainerTypeUnspecified;
|}.

Definition test_sandbox : sandbox.Sandbox := {|
  sandbox.ID := "c1";
  sandbox.Pid := 4242;
  sandbox.OriginalOOMScoreAdj := 0;
  sandbox.MountHints := {| boot.Mounts := [] |};
  sandbox.CgroupJSON := None;
|}.

Definition test_container (s : Status) : Container := {|
  ID := "c1";
  Spec := test_spec;
  Status_ := s;
  GoferPid := 0;
  Sandbox := Some test_sandbox;
  CompatCgroup := None;
  Saver := {| RootDir := "/var/run/runsc";
              SaverID := {| SandboxID := "c1"; ContainerID := "c1" |} |};
  GoferMountConfs := [];
  goferIsChild := false;
|}.

(** An environment in which every call succeeds. *)
Definition test_env : Env := {|
  env_lock := None;
  env_unlock := None;
  env_SaveLocked := None;
  env_SaverDestroy := None;
  env_SandboxPause := None;
  env_SandboxResume := None;
  env_SandboxWait := (0%Z, None);
  env_SandboxIsRunning := true;
  env_SandboxSignalContainer := None;
  env_SandboxDestroyContainer := None;
  env_SandboxStartRoot := None;
  env_SandboxStartSubcontainer := None;
  env_SandboxRestore := None;
  env_SandboxRestoreSubcontainer := None;
  env_SandboxContainerRuntimeState := (boot.RuntimeStateRunning, None);
  env_CgroupJoin _ := None;
  env_ReadMounts := inr [];
  env_Kill := None;
  env_Wait4 := None;
  env_goferGone := true;
  env_Uninstall _ := None;
  env_Remove _ := None;
  env_LoadSandbox := ([], None);
  env_writeOOMScoreAdj _ := Written;
  env_startGofer := inl "not started";
|}.

Definition test_state (s : Status) : State := {|
  self := test_container s;
  world := {| fs := ∅; saved := Some (test_container s); log := [] |};
|}.

(** A sandbox with a pause container and two containers whose scores are 100
    and 300. *)
Definition scored_container (cid : string) (ty : specs.ContainerType) (score : option Z)
    : Container := {|
  ID := cid;
  Spec := {| specs.Root := specs.Root test_spec; specs.Mounts := [];
             specs.Process := {| specs.OOMScoreAdj := score |};
             specs.Hooks := None; specs.SpecContainerType := ty |};
  Status_ := Running;
  GoferPid := 0;
  Sandbox := Some test_sandbox;
  CompatCgroup := None;
  Saver := {| RootDir := "/var/run/runsc";
              SaverID := {| SandboxID := "c1"; ContainerID := cid |} |};
  GoferMountConfs := [];
  goferIsChild := false;
|}.

Definition pod : list Container :=
  [ scored_container "c1" specs.ContainerTypeSandbox (Some (-998)%Z);
    scored_container "c2" specs.ContainerTypeContainer (Some 300%Z);
    scored_container "c3" specs.ContainerTypeContainer (Some 100%Z) ].

Definition env_with_containers (containers : list Container) : Env := {|
  env_lock := None;
  env_unlock := None;
  env_SaveLocked := None;
  env_SaverDestroy := None;
  env_SandboxPause := None;
  env_SandboxResume := None;
  env_SandboxWait := (0%Z, None);
  env_SandboxIsRunning := true;
  env_SandboxSignalContainer := None;
  env_SandboxDestroyContainer := None;
  env_SandboxStartRoot := None;
  env_SandboxStartSubcontainer := None;
  env_SandboxRestore := None;
  env_SandboxRestoreSubcontainer := None;
  env_SandboxContainerRuntimeState := (boot.RuntimeStateRunning, None);
  env_CgroupJoin _ := None;
  env_ReadMounts := inr [];
  env_Kill := None;
  env_Wait4 := None;
  env_goferGone := true;
  env_Uninstall _ := None;
  env_Remove _ := None;
  env_LoadSandbox := (containers, None);
  env_writeOOMScoreAdj _ := Written;
  env_startGofer := inl "not started";
|}.

(** A container with three bind mounts, all read-only, and a tmpfs mount. The
    pod hints mark the sources of the second and the third bind mount
    sandbox-local; the second is a directory and the third a regular file. *)
Definition bind_mount (dst src : string) (opts : list string) : specs.Mount :=
  {| specs.Destination := dst; specs.Type' := "bind"; specs.Source := src;
     specs.Options := opts |}.

Definition planning_spec : specs.Spec := {|
  specs.Root := {| specs.Path := "/bundle/rootfs"; specs.Readonly := false |};
  specs.Mounts :=
    [ bind_mount "/data" "/host/data" ["ro"];
      bind_mount "/cache" "/host/cache" ["ro"];
      {| specs.Destination := "/tmp"; specs.Type' := "tmpfs"; specs.Source := "";
         specs.Options := [] |};
      bind_mount "/etc/conf" "/host/conf" ["ro"] ];
  specs.Process := {| specs.OOMScoreAdj := None |};
  specs.Hooks := None;
  specs.SpecContainerType := specs.ContainerTypeUnspecified;
|}.

Definition planning_hints : boot.PodMountHints := {|
  boot.Mounts :=
    [ {| boot.Name := "cache"; boot.Mount := bind_mount "" "/host/cache" [];
         boot.IsSandboxLocal := true; boot.ShouldShareMount := false |};
      {| boot.Name := "conf"; boot.Mount := bind_mount "" "/host/conf" [];
         boot.IsSandboxLocal := true; boot.ShouldShareMount := false |} ];
|}.

Definition planning_overlay : config.Overlay2 := {|
  config.RootOverlayMedium := config.SelfOverlay;
  config.RootOverlaySize := "";
  config.SubMountOverlayMedium := config.MemoryOverlay;
  config.SubMountOverlaySize := "";
|}.

Definition planning_state : State := {|
  self := {| ID := "c1"; Spec := planning_spec; Status_ := Creating; GoferPid := 0;
             Sandbox := None; CompatCgroup := None;
             Saver := {| RootDir := "/var/run/runsc";
                         SaverID := {| SandboxID := "c1"; ContainerID := "c1" |} |};
             GoferMountConfs := []; goferIsChild := false |};
  world := {| fs := {[ "/bundle/rootfs" := Dir; "/host/data" := Dir;
                       "/host/cache" := Dir; "/host/conf" := Regular ]};
              saved := None; log := [] |};
|}.

Definition lisafs (upper : boot.GoferMountConfUpperType) : boot.GoferMountConf :=
  {| boot.Lower := boot.Lisafs; boot.Upper := upper; boot.Size := "" |}.

(** The goferless scenario: a read-only EROFS root given by a rootfs hint with
    the memory overlay, no mounts, no device gofer. *)
Definition rootfs_hint (type : string) : boot.RootfsHint := {|
  boot.RMount := {| specs.Destination := "/"; specs.Type' := type;
                    specs.Source := "/images/rootfs.img"; specs.Options := [] |};
  boot.Overlay := config.MemoryOverlay;
  boot.RSize := "";
|}.

Definition hinted_externals (type : string) : Externals := {|
  IsGoferMount := IsGoferMount (Externals := test_externals);
  IsReadonlyMount := IsReadonlyMount (Externals := test_externals);
  FindMount := FindMount (Externals := test_externals);
  SelfFilestorePath := SelfFilestorePath (Externals := test_externals);
  GetOverlay2 := GetOverlay2 (Externals := test_externals);
  GPUFunctionalityRequested _ _ := false;
  TPUFunctionalityRequested _ _ := false;
  GPUFunctionalityRequestedViaHook _ _ := false;
  NewRootfsHint _ := inr (Some (rootfs_hint type));
|}.

Definition goferless_state : State := {|
  self := {| ID := "c1";
             Spec := {| specs.Root := {| specs.Path := "/bundle/rootfs";
                                         specs.Readonly := true |};
                        specs.Mounts := [];
                        specs.Process := {| specs.OOMScoreAdj := None |};
                        specs.Hooks := None;
                        specs.SpecContainerType := specs.ContainerTypeUnspecified |};
             Status_ := Creating; GoferPid := 0; Sandbox := None; CompatCgroup := None;
             Saver := {| RootDir := "/var/run/runsc";
                         SaverID := {| SandboxID := "c1"; ContainerID := "c1" |} |};
             GoferMountConfs := []; goferIsChild := false |};
  world := {| fs := {[ "/bundle/rootfs" := Dir; "/images/rootfs.img" := Regular ]};
              saved := None; log := [] |};
|}.

Definition no_flags : config.Config := {| config.fields := [] |}.

Definition erofs_root : boot.GoferMountConf :=
  {| boot.Lower := boot.Erofs; boot.Upper := boot.NoOverlay; boot.Size := "" |}.

(** A runtime configuration that does not allow flag overrides, with the
    flags debug and network registered. *)
Definition test_config_externals : config.ConfigExternals := {|
  config.validate _ := None;
  config.Overlay2_Set s :=
    if bool_decide (s = "none") then inr config.NoOverlay
    else inl ("invalid overlay2 value " +:+ s);
|}.

Definition boolFlag (b : bool) : config.Flag := {|
  config.Value := config.VBool b;
  config.Set' := config.boolValue_Set;
|}.

Definition stringFlag (v : string) : config.Flag := {|
  config.Value := config.VString v;
  config.Set' := config.stringValue_Set;
|}.

Definition runtime_config (allow : bool) (debug : bool) (network : string) : config.Config := {|
  config.fields :=
    [ (Some "allow-flag-override", config.VBool allow);
      (Some "debug", config.VBool debug);
      (None, config.VString "explicitlySet");
      (Some "network", config.VString network) ];
|}.

Definition runtime_flags (allow : bool) (debug : bool) (network : string)
    : gmap string config.Flag :=
  {[ "allow-flag-override" := boolFlag allow; "debug" := boolFlag debug;
     "network" := stringFlag network ]}.

(** A started root container under the default overlay (the root overlaid on
    a self-backed filestore): the gofer is a child of the process, and the
    filestore file lies in the root directory on the host. *)
Definition started_container : Container := {|
  ID := "c1";
  Spec := test_spec;
  Status_ := Running;
  GoferPid := 77;
  Sandbox := Some test_sandbox;
  CompatCgroup := None;
  Saver := {| RootDir := "/var/run/runsc";
              SaverID := {| SandboxID := "c1"; ContainerID := "c1" |} |};
  GoferMountConfs := [lisafs boot.SelfOverlay];
  goferIsChild := true;
|}.

Definition started_state : State := {|
  self := started_container;
  world := {| fs := {[ "/bundle/rootfs" := Dir;
                       "/bundle/rootfs/.gvisor.filestore.c1" := Regular ]};
              saved := Some (set_goferIsChild false started_container);
              log := [] |};
|}.

Definition destroyed_container : Container :=
  set_Status Stopped (set_GoferPid 0 (set_Sandbox None started_container)).

Definition destroyed_state (events : list Event) : State := {|
  self := destroyed_container;
  world := {| fs := {[ "/bundle/rootfs" := Dir ]}; saved := None; log := events |};
|}.

Definition first_destroy_events : list Event :=
  [ EvLock; EvSandboxDestroyContainer "c1"; EvKill 77 SIGKILL; EvWait4 77;
    EvSaverDestroy; EvRemove "/bundle/rootfs/.gvisor.filestore.c1"; EvUnlock; EvClose ].

(** Errors of the steps do not stop the cleanup. With the sandbox refusing to
    destroy the container and the host refusing to remove the filestore file,
    Destroy still removes the state file, records Stopped, and returns both
    errors joined in one. *)
Definition failing_env : Env := {|
  env_lock := None;
  env_unlock := None;
  env_SaveLocked := None;
  env_SaverDestroy := None;
  env_SandboxPause := None;
  env_SandboxResume := None;
  env_SandboxWait := (0%Z, None);
  env_SandboxIsRunning := true;
  env_SandboxSignalContainer := None;
  env_SandboxDestroyContainer := Some "sandbox unreachable";
  env_SandboxStartRoot := None;
  env_SandboxStartSubcontainer := None;
  env_SandboxRestore := None;
  env_SandboxRestoreSubcontainer := None;
  env_SandboxContainerRuntimeState := (boot.RuntimeStateRunning, None);
  env_CgroupJoin _ := None;
  env_ReadMounts := inr [];
  env_Kill := None;
  env_Wait4 := None;
  env_goferGone := true;
  env_Uninstall _ := None;
  env_Remove _ := Some "permission denied";
  env_LoadSandbox := ([], None);
  env_writeOOMScoreAdj _ := Written;
  env_startGofer := inl "not started";
|}.

(** A second way in which Destroy falls short of C2. A container whose mount
    planning failed part-way keeps the configurations planned so far; New
    then runs Destroy as its cleanup, and forEachSelfMount indexes the
    configurations by the gofer mounts of the spec, past the end of the
    list: Destroy panics. Here the overlay is self-backed for all mounts and
    the source of the only bind mount does not exist. *)
Definition self_overlay_externals : Externals := {|
  IsGoferMount := IsGoferMount (Externals := test_externals);
  IsReadonlyMount := IsReadonlyMount (Externals := test_externals);
  FindMount := FindMount (Externals := test_externals);
  SelfFilestorePath := SelfFilestorePath (Externals := test_externals);
  GetOverlay2 _ :=
    {| config.RootOverlayMedium := config.SelfOverlay; config.RootOverlaySize := "";
       config.SubMountOverlayMedium := config.SelfOverlay;
       config.SubMountOverlaySize := "" |};
  GPUFunctionalityRequested _ _ := false;
  TPUFunctionalityRequested _ _ := false;
  GPUFunctionalityRequestedViaHook _ _ := false;
  NewRootfsHint _ := inr None;
|}.

Definition unplanned_state : State := {|
  self := {| ID := "c1";
             Spec := set_Mounts [bind_mount "/data" "/host/missing" []] test_spec;
             Status_ := Creating; GoferPid := 0; Sandbox := None; CompatCgroup := None;
             Saver := {| RootDir := "/var/run/runsc";
                         SaverID := {| SandboxID := "c1"; ContainerID := "c1" |} |};
             GoferMountConfs := []; goferIsChild := false |};
  world := {| fs := {[ "/bundle/rootfs" := Dir ]}; saved := None; log := [] |};
|}.

(** A started root container whose own cgroup is installed. *)
Definition cgroup_state : State := {|
  self := {| ID := "c1"; Spec := test_spec; Status_ := Running; GoferPid := 77;
             Sandbox := Some test_sandbox;
             CompatCgroup := Some {| cgroup.CgroupPath := "/sys/fs/cgroup/pod/c1" |};
             Saver := Saver started_container;
             GoferMountConfs := [lisafs boot.SelfOverlay]; goferIsChild := true |};
  world := world started_state;
|}.

Definition stop_events : list Event :=
  [ EvSandboxDestroyContainer "c1"; EvKill 77 SIGKILL; EvWait4 77;
    EvUninstall {| cgroup.CgroupPath := "/sys/fs/cgroup/pod/c1" |} ].

(** The sentry of a sandbox whose root container runs, and RPCs that end
    with the wait for its exit. *)
Definition init_process : control.ThreadGroup := {| control.TGID := 1; control.Count := 1 |}.



Definition running_lifecycle : control.Lifecycle := {|
  control.containerMap :=
    {[ "c1" := {| control.containerID := "c1"; control.tg := Some init_process;
                  control.state := control.stateRunning |} ]};
  control.kernelCalls := [];
|}.

Definition stopped_lifecycle (calls : list control.KernelCall) : control.Lifecycle := {|
  control.containerMap :=
    {[ "c1" := {| control.containerID := "c1"; control.tg := Some init_process;
                  control.state := control.stateStopped |} ]};
  control.kernelCalls := calls;
|}.

Definition test_rpcs : list Rpc :=
  [ RpcPause; RpcIsContainerRunning "c1"; RpcResume;
    RpcWaitContainer (fun _ => 0%Z) "c1"; RpcIsContainerRunning "c1" ].

(** The flag set after the override of debug. *)
Definition debug_flags : gmap string config.Flag :=
  <["debug" := {| config.Value := config.VBool true;
                  config.Set' := config.Set' (boolFlag false) |}]>
    (runtime_flags false false "sandbox").

(** The creation of the root container c1 on a host where every call
    succeeds; the map files of /proc/self hold one line each. *)
Definition test_document : specs.Document := {|
  specs.Kept := test_spec;
  specs.Annotations := ∅;
  specs.Linux := None;
  specs.Prestart := [];
  specs.CreateRuntime := [];
  specs.SandboxID := None;
|}.

Definition test_args : Args := {|
  ArgsID := "c1";
  ArgsSpec := test_document;
  ConsoleSocket := "";
  PIDFile := "/run/c1.pid";
  Attached := false;
|}.

Definition create_env : CreateEnv := {|
  env_MkdirAll := None;
  env_GetNS_user _ := false;
  env_OpenMapFile _ :=
    inr {| mapLines := [("0 1000 65536", ScannedInts 3 0 1000 65536)]; scanErr := None |};
  env_LockForNew := None;
  env_TransformSystemdPath path _ _ := inr path;
  env_NewFromPath path _ := inr (Some {| cgroup.CgroupPath := path |});
  env_Install _ := None;
  env_IsOnlyV2 := true;
  env_NewPodMountHints := inr {| boot.Mounts := [] |};
  env_nvidiaHostSetup := None;
  env_sandboxNew := inr test_sandbox;
  env_Load := inl "container not found";
  env_NewWithSocket := None;
  env_CreateSubcontainer := None;
  env_executeHooks _ := None;
  env_WriteFile := None;
|}.

(** [test_env] with a gofer that starts. *)
Definition gofer_env : Env := {|
  env_lock := None;
  env_unlock := None;
  env_SaveLocked := None;
  env_SaverDestroy := None;
  env_SandboxPause := None;
  env_SandboxResume := None;
  env_SandboxWait := (0%Z, None);
  env_SandboxIsRunning := true;
  env_SandboxSignalContainer := None;
  env_SandboxDestroyContainer := None;
  env_SandboxStartRoot := None;
  env_SandboxStartSubcontainer := None;
  env_SandboxRestore := None;
  env_SandboxRestoreSubcontainer := None;
  env_SandboxContainerRuntimeState := (boot.RuntimeStateRunning, None);
  env_CgroupJoin _ := None;
  env_ReadMounts := inr [];
  env_Kill := None;
  env_Wait4 := None;
  env_goferGone := true;
  env_Uninstall _ := None;
  env_Remove _ := None;
  env_LoadSandbox := ([], None);
  env_writeOOMScoreAdj _ := Written;
  env_startGofer :=
    inr (77%Z, {| ioFiles := ["/bundle/rootfs"]; goferFilestores := [];
                  devIOFile := None; mountsFile := None |});
|}.

(** The host before the creation: the bundle is there, and no container. *)
Definition host_state : State := {|
  self := test_container Stopped;
  world := {| fs := {[ "/bundle/rootfs" := Dir ]}; saved := None; log := [] |};
|}.

(** A configuration with directfs in effect. *)
Definition creation_config : config.Config := {|
  config.fields :=
    [ (Some "root", config.VString "/var/run/runsc");
      (Some "directfs", config.VBool true);
      (Some "network", config.VOther "sandbox") ];
|}.

(** The root container of a pod: the annotation names the cgroup of the
    sandbox and the document the cgroup of the container. *)
Definition pod_document : specs.Document := {|
  specs.Kept := test_spec;
  specs.Annotations := {[ cgroupParentAnnotation := "/pod" ]};
  specs.Linux :=
    Some {| specs.UIDMappings := []; specs.GIDMappings := [];
            specs.CgroupsPath := "/pod/c1"; specs.Namespaces := [] |};
  specs.Prestart := [];
  specs.CreateRuntime := [];
  specs.SandboxID := None;
|}.

(** The Linux section that directfs makes for a document without one. *)
Definition directfs_linux : specs.Linux_t := {|
  specs.UIDMappings :=
    [{| specs.ContainerID := 0; specs.HostID := 0; specs.Size := 65536 |}];
  specs.GIDMappings :=
    [{| specs.ContainerID := 0; specs.HostID := 0; specs.Size := 65536 |}];
  specs.CgroupsPath := "";
  specs.Namespaces := [userNamespace];
|}.

(** [create_env] with a sandbox that does not start. *)
Definition sandboxless_env : CreateEnv := {|
  env_MkdirAll := None;
  env_GetNS_user _ := false;
  env_OpenMapFile := env_OpenMapFile create_env;
  env_LockForNew := None;
  env_TransformSystemdPath path _ _ := inr path;
  env_NewFromPath path _ := inr (Some {| cgroup.CgroupPath := path |});
  env_Install _ := None;
  env_IsOnlyV2 := true;
  env_NewPodMountHints := inr {| boot.Mounts := [] |};
  env_nvidiaHostSetup := None;
  env_sandboxNew := inl "sandbox failed to start";
  env_Load := inl "container not found";
  env_NewWithSocket := None;
  env_CreateSubcontainer := None;
  env_executeHooks _ := None;
  env_WriteFile := None;
|}.

(** * Properties *)

(** ** Reasoning about the monad *)

Lemma bind_Ok_inv {A B : Type} (m : M A) (k : A -> M B) (st st' : State) (b : B) :
  (m ≫= k) st = Ok b st' -> exists a st1, m st = Ok a st1 /\ k a st1 = Ok b st'.
Proof.
  unfold mbind, M_bind. destruct (m st) as [a st1|msg st1]; [|discriminate].
  intros Hk. by exists a, st1.
Qed.

Lemma defer_Ok_inv {A : Type} (cleanup : M unit) (body : M A) (st st' : State) (a : A) :
  defer cleanup body st = Ok a st' ->
  exists st1, body st = Ok a st1 /\ cleanup st1 = Ok tt st'.
Proof.
  unfold defer. destruct (body st) as [a' st1|msg st1].
  - destruct (cleanup st1) as [[] st2|msg st2] eqn:Hc; [|discriminate].
    intros [= -> ->]. by exists st1.
  - by destruct (cleanup st1).
Qed.

Ltac unfold_monad :=
  unfold mbind, mret, M_bind, M_ret, panic, getc, getw, modc, modw, emit in *.

(** Settles the decisions [bool_decide P] of the goal that the context
    settles. *)
Ltac decide_all :=
  repeat first
    [ rewrite bool_decide_eq_true_2 by (done || congruence)
    | rewrite bool_decide_eq_false_2 by (done || congruence) ].

(** ** The status machine (4.7) *)

Lemma changeStatus_cases (s : Status) (st : State) :
  (changeStatus s st = Ok tt (recorded s st) /\
   permitted (Status_ (self st)) s = true /\
   (s = Stopped \/ Sandbox (self st) ≠ None)) \/
  ((exists msg, changeStatus s st = Panic msg st) /\
   (permitted (Status_ (self st)) s = false \/
    (s ≠ Stopped /\ Sandbox (self st) = None))).
Proof.
  destruct st as [c w]. unfold changeStatus, recorded. unfold_monad. cbn.
  destruct s, (Status_ c) eqn:Hs; cbn;
    try (right; split; [eexists; reflexivity | left; reflexivity]);
    try (left; split; [reflexivity | split; [reflexivity | left; reflexivity]]);
    destruct (Sandbox c) eqn:Hsb; cbn;
    try (left; split; [reflexivity | split; [reflexivity | right; congruence]]);
    right; (split; [eexists; reflexivity | right; split; congruence]).
Qed.

Lemma keeps_follows {A : Type} (m : M A) : keeps m -> follows m.
Proof. intros Hk st. left. apply Hk. Qed.

Lemma keeps_ret {A : Type} (a : A) : keeps (mret a : M A).
Proof. by intros st. Qed.

Lemma keeps_panic {A : Type} (msg : string) : keeps (panic msg : M A).
Proof. by intros st. Qed.

Lemma keeps_getc : keeps getc.
Proof. by intros st. Qed.

Lemma keeps_getw : keeps getw.
Proof. by intros st. Qed.

Lemma keeps_modw (f : World -> World) : keeps (modw f).
Proof. by intros st. Qed.

Lemma keeps_emit (e : Event) : keeps (emit e).
Proof. by intros st. Qed.

Lemma keeps_modc (f : Container -> Container) :
  (forall c, Status_ (f c) = Status_ c) -> keeps (modc f).
Proof. intros Hf st. cbn. apply Hf. Qed.

Lemma keeps_bind {A B : Type} (m : M A) (k : A -> M B) :
  keeps m -> (forall a, keeps (k a)) -> keeps (m ≫= k).
Proof.
  intros Hm Hk st. specialize (Hm st). unfold mbind, M_bind.
  destruct (m st) as [a st'|msg st']; cbn in *; [|done].
  by rewrite Hk.
Qed.

Lemma follows_bind_l {A B : Type} (m : M A) (k : A -> M B) :
  follows m -> (forall a, keeps (k a)) -> follows (m ≫= k).
Proof.
  intros Hm Hk st. specialize (Hm st). unfold mbind, M_bind.
  destruct (m st) as [a st'|msg st']; cbn in *; [|done].
  by rewrite Hk.
Qed.

Lemma follows_bind_r {A B : Type} (m : M A) (k : A -> M B) :
  keeps m -> (forall a, follows (k a)) -> follows (m ≫= k).
Proof.
  intros Hm Hk st. specialize (Hm st). unfold mbind, M_bind.
  destruct (m st) as [a st'|msg st']; cbn in *.
  - rewrite <- Hm. apply Hk.
  - left. done.
Qed.

Lemma keeps_defer {A : Type} (cleanup : M unit) (body : M A) :
  keeps cleanup -> keeps body -> keeps (defer cleanup body).
Proof.
  intros Hc Hb st. specialize (Hb st). unfold defer.
  destruct (body st) as [a st'|msg st']; cbn in *;
    specialize (Hc st'); destruct (cleanup st'); cbn in *; congruence.
Qed.

Lemma follows_defer {A : Type} (cleanup : M unit) (body : M A) :
  keeps cleanup -> follows body -> follows (defer cleanup body).
Proof.
  intros Hc Hb st. specialize (Hb st). unfold defer.
  destruct (body st) as [a st'|msg st']; cbn in *;
    specialize (Hc st'); destruct (cleanup st'); cbn in *; by rewrite Hc.
Qed.

Lemma keeps_orReturn (m k : M error) : keeps m -> keeps k -> keeps (orReturn m k).
Proof.
  intros Hm Hk. unfold orReturn. apply keeps_bind; [done|].
  intros [err|]; [apply keeps_ret | done].
Qed.

Lemma follows_orReturn (m k : M error) : keeps m -> follows k -> follows (orReturn m k).
Proof.
  intros Hm Hk. unfold orReturn. apply follows_bind_r; [done|].
  intros [err|]; [apply keeps_follows, keeps_ret | done].
Qed.

Lemma follows_changeStatus (s : Status) : follows (changeStatus s).
Proof.
  intros st.
  destruct (changeStatus_cases s st) as [(-> & Hp & _)|([msg ->] & _)]; cbn.
  - by right.
  - by left.
Qed.

Create HintDb keeps discriminated.

#[global] Hint Resolve keeps_ret keeps_panic keeps_getc keeps_getw keeps_modw keeps_emit
  keeps_orReturn keeps_defer : keeps.

(** Discharges [keeps m] for a computation built from the primitives, the
    combinators and computations already in the hint base. *)
Ltac keeps_step :=
  first
    [ progress intros
    | solve [ eauto with keeps ]
    | apply keeps_bind
    | apply keeps_orReturn
    | apply keeps_defer
    | apply keeps_modc; intros; reflexivity
    | match goal with
      | |- keeps (match ?x with _ => _ end) => destruct x eqn:?
      | |- keeps (let '(_, _) := ?x in _) => destruct x eqn:?
      end ].

Ltac keeps_tac := repeat keeps_step.

Section status_of_operations.
Context `{Externals}.

Lemma keeps_Saver_lock env : keeps (Saver_lock env).
Proof. unfold Saver_lock. keeps_tac. Qed.

Lemma keeps_Saver_UnlockOrDie env : keeps (Saver_UnlockOrDie env).
Proof. unfold Saver_UnlockOrDie. keeps_tac. Qed.

Lemma keeps_Saver_close : keeps Saver_close.
Proof. unfold Saver_close. keeps_tac. Qed.

Lemma keeps_Saver_SaveLocked env : keeps (Saver_SaveLocked env).
Proof. unfold Saver_SaveLocked. keeps_tac. Qed.

Lemma keeps_Saver_Destroy env : keeps (Saver_Destroy env).
Proof. unfold Saver_Destroy. keeps_tac. Qed.

Lemma keeps_theSandbox : keeps theSandbox.
Proof. unfold theSandbox. keeps_tac. Qed.

Hint Resolve keeps_Saver_lock keeps_Saver_UnlockOrDie keeps_Saver_close
  keeps_Saver_SaveLocked keeps_Saver_Destroy keeps_theSandbox : keeps.

Lemma keeps_Sandbox_Wait env cid : keeps (Sandbox_Wait env cid).
Proof. unfold Sandbox_Wait. keeps_tac. Qed.

Lemma keeps_Sandbox_Pause env cid : keeps (Sandbox_Pause env cid).
Proof. unfold Sandbox_Pause. keeps_tac. Qed.

Lemma keeps_Sandbox_Resume env cid : keeps (Sandbox_Resume env cid).
Proof. unfold Sandbox_Resume. keeps_tac. Qed.

Lemma keeps_Sandbox_SignalContainer env cid sig all :
  keeps (Sandbox_SignalContainer env cid sig all).
Proof. unfold Sandbox_SignalContainer. keeps_tac. Qed.

Lemma keeps_Sandbox_DestroyContainer env cid : keeps (Sandbox_DestroyContainer env cid).
Proof. unfold Sandbox_DestroyContainer. keeps_tac. Qed.

Lemma keeps_Sandbox_StartRoot env : keeps (Sandbox_StartRoot env).
Proof. unfold Sandbox_StartRoot. keeps_tac. Qed.

Lemma keeps_Sandbox_StartSubcontainer env : keeps (Sandbox_StartSubcontainer env).
Proof. unfold Sandbox_StartSubcontainer. keeps_tac. Qed.

Lemma keeps_Sandbox_Restore env : keeps (Sandbox_Restore env).
Proof. unfold Sandbox_Restore. keeps_tac. Qed.

Lemma keeps_Sandbox_RestoreSubcontainer env : keeps (Sandbox_RestoreSubcontainer env).
Proof. unfold Sandbox_RestoreSubcontainer. keeps_tac. Qed.

Lemma keeps_Sandbox_ContainerRuntimeState env cid :
  keeps (Sandbox_ContainerRuntimeState env cid).
Proof. unfold Sandbox_ContainerRuntimeState. keeps_tac. Qed.

Lemma keeps_saveLocked env : keeps (saveLocked env).
Proof. unfold saveLocked. keeps_tac. Qed.

Lemma keeps_IsSandboxRunning env : keeps (IsSandboxRunning env).
Proof. unfold IsSandboxRunning. keeps_tac. Qed.

Lemma keeps_requireStatus action statuses : keeps (requireStatus action statuses).
Proof. unfold requireStatus. keeps_tac. Qed.

Hint Resolve keeps_Sandbox_Wait keeps_Sandbox_Pause keeps_Sandbox_Resume
  keeps_Sandbox_SignalContainer keeps_Sandbox_DestroyContainer keeps_saveLocked
  keeps_IsSandboxRunning keeps_requireStatus keeps_Sandbox_StartRoot
  keeps_Sandbox_StartSubcontainer keeps_Sandbox_Restore keeps_Sandbox_RestoreSubcontainer
  keeps_Sandbox_ContainerRuntimeState : keeps.

Lemma keeps_SignalContainer env sig all : keeps (SignalContainer env sig all).
Proof. unfold SignalContainer. keeps_tac. Qed.

Lemma keeps_os_Remove env path : keeps (os_Remove env path).
Proof. unfold os_Remove. keeps_tac. Qed.

Lemma keeps_os_Open path : keeps (os_Open path).
Proof. unfold os_Open. keeps_tac. Qed.

Lemma keeps_Cgroup_Uninstall env cg : keeps (Cgroup_Uninstall env cg).
Proof. unfold Cgroup_Uninstall. keeps_tac. Qed.

Hint Resolve keeps_SignalContainer keeps_os_Remove keeps_os_Open
  keeps_Cgroup_Uninstall : keeps.

Lemma keeps_waitForStopped env : keeps (waitForStopped env).
Proof. unfold waitForStopped. keeps_tac. Qed.

Hint Resolve keeps_waitForStopped : keeps.

Lemma keeps_stop env : keeps (stop env).
Proof. unfold stop, stopInSandbox, stopGofer. keeps_tac. Qed.

Lemma keeps_forEachSelfMount_mounts fn confs mounts idx :
  (forall src, keeps (fn src)) -> keeps (forEachSelfMount_mounts fn confs mounts idx).
Proof.
  intros Hfn. revert idx.
  induction mounts as [|m rest IH]; intros idx; cbn; keeps_tac.
Qed.

Lemma keeps_forEachSelfMount fn :
  (forall src, keeps (fn src)) -> keeps (forEachSelfMount fn).
Proof.
  intros Hfn. unfold forEachSelfMount.
  pose proof (keeps_forEachSelfMount_mounts fn). keeps_tac.
Qed.

Lemma keeps_removeSelfFilestore env sb src : keeps (removeSelfFilestore env sb src).
Proof. unfold removeSelfFilestore. keeps_tac. Qed.

Lemma keeps_removeSharedFilestores env sid hints :
  keeps (removeSharedFilestores env sid hints).
Proof. induction hints as [|hint rest IH]; cbn; keeps_tac. Qed.

Lemma keeps_setOOMScoreAdj env pid score : keeps (setOOMScoreAdj env pid score).
Proof. unfold setOOMScoreAdj. keeps_tac. Qed.

Hint Resolve keeps_stop keeps_forEachSelfMount keeps_removeSelfFilestore
  keeps_removeSharedFilestores keeps_setOOMScoreAdj : keeps.

Lemma keeps_adjustSandboxOOMScoreAdj env s spec rootDir destroy :
  keeps (adjustSandboxOOMScoreAdj env s spec rootDir destroy).
Proof. unfold adjustSandboxOOMScoreAdj. keeps_tac. Qed.

Lemma keeps_executeHooksBestEffort hooks : keeps (executeHooksBestEffort hooks).
Proof. unfold executeHooksBestEffort. keeps_tac. Qed.

Lemma keeps_createGoferConf medium size mountType src :
  keeps (createGoferConf medium size mountType src).
Proof. unfold createGoferConf. keeps_tac. Qed.

Lemma keeps_appendGoferConf g : keeps (appendGoferConf g).
Proof. unfold appendGoferConf. keeps_tac. Qed.

Hint Resolve keeps_adjustSandboxOOMScoreAdj keeps_executeHooksBestEffort
  keeps_createGoferConf keeps_appendGoferConf : keeps.

Lemma keeps_initGoferConfs_mounts ovlConf hints mounts :
  keeps (initGoferConfs_mounts ovlConf hints mounts).
Proof. induction mounts as [|m rest IH]; cbn; keeps_tac. Qed.

Hint Resolve keeps_initGoferConfs_mounts : keeps.

Lemma keeps_initGoferConfs ovlConf hints rootfsHint :
  keeps (initGoferConfs ovlConf hints rootfsHint).
Proof. unfold initGoferConfs. keeps_tac. Qed.

Hint Resolve keeps_initGoferConfs : keeps.

Lemma keeps_createGoferProcess env conf hints attached :
  keeps (createGoferProcess env conf hints attached).
Proof. unfold createGoferProcess. keeps_tac. Qed.

Hint Resolve keeps_createGoferProcess : keeps.

Lemma keeps_runInCgroup env cg fn : keeps fn -> keeps (runInCgroup env cg fn).
Proof. intros Hfn. unfold runInCgroup. keeps_tac. Qed.

Lemma keeps_adjustGoferOOMScoreAdj env : keeps (adjustGoferOOMScoreAdj env).
Proof. unfold adjustGoferOOMScoreAdj. keeps_tac. Qed.

Hint Resolve keeps_runInCgroup keeps_adjustGoferOOMScoreAdj : keeps.

Lemma follows_startLocked env conf action startRoot startSub :
  keeps startRoot -> keeps startSub ->
  follows (startLocked env conf action startRoot startSub).
Proof.
  intros Hroot Hsub. unfold startLocked.
  apply follows_orReturn; [keeps_tac|].
  apply follows_bind_r; [keeps_tac|]. intros c.
  apply follows_orReturn.
  { destruct (isRoot (Spec c)); [done|].
    apply keeps_bind; [keeps_tac|]. intros sb. apply keeps_runInCgroup. keeps_tac. }
  apply follows_bind_r; [keeps_tac|]. intros c'.
  apply follows_bind_r; [keeps_tac|]. intros _.
  apply follows_bind_l; [apply follows_changeStatus | keeps_tac].
Qed.

Lemma follows_startImpl env conf action startRoot startSub :
  keeps startRoot -> keeps startSub ->
  follows (startImpl env conf action startRoot startSub).
Proof.
  intros Hroot Hsub. unfold startImpl.
  apply follows_orReturn; [keeps_tac|].
  unfold orReturn. apply follows_bind_l.
  - apply follows_defer; [keeps_tac | by apply follows_startLocked].
  - keeps_tac.
Qed.

Lemma follows_Start env conf : follows (Start env conf).
Proof. apply follows_startImpl; keeps_tac. Qed.

Lemma follows_Restore env conf : follows (Restore env conf).
Proof. apply follows_startImpl; keeps_tac. Qed.

Lemma follows_CheckStopped env : follows (CheckStopped env).
Proof.
  unfold CheckStopped. apply follows_bind_r; [keeps_tac|]. intros c.
  apply follows_bind_r; [keeps_tac|]. intros [state [err|]]; cbn.
  - apply follows_bind_r; [keeps_tac|]. intros running.
    destruct (negb running); [apply follows_changeStatus | apply keeps_follows; keeps_tac].
  - case_bool_decide; [apply follows_changeStatus | apply keeps_follows; keeps_tac].
Qed.

Lemma follows_Wait env : follows (Wait env).
Proof.
  unfold Wait. apply follows_bind_r; [keeps_tac|]. intros c.
  apply follows_bind_r; [keeps_tac|]. intros r.
  apply follows_bind_l; [|keeps_tac].
  case_bool_decide; [apply follows_changeStatus | apply keeps_follows; keeps_tac].
Qed.

Lemma follows_Pause env : follows (Pause env).
Proof.
  unfold Pause. apply follows_orReturn; [keeps_tac|].
  apply follows_defer; [keeps_tac|].
  apply follows_bind_r; [keeps_tac|]. intros c.
  destruct (_ && _); [apply keeps_follows; keeps_tac|].
  apply follows_bind_r; [keeps_tac|]. intros [err|]; [apply keeps_follows; keeps_tac|].
  apply follows_bind_l; [apply follows_changeStatus | keeps_tac].
Qed.

Lemma follows_Resume env : follows (Resume env).
Proof.
  unfold Resume. apply follows_orReturn; [keeps_tac|].
  apply follows_defer; [keeps_tac|].
  apply follows_bind_r; [keeps_tac|]. intros c.
  case_bool_decide; [apply keeps_follows; keeps_tac|].
  apply follows_bind_r; [keeps_tac|]. intros [err|]; [apply keeps_follows; keeps_tac|].
  apply follows_bind_l; [apply follows_changeStatus | keeps_tac].
Qed.

Lemma follows_Destroy env : follows (Destroy env).
Proof.
  unfold Destroy, destroyLocked. apply follows_orReturn; [keeps_tac|].
  apply follows_defer; [keeps_tac|].
  apply follows_bind_r; [keeps_tac|]. intros c.
  apply follows_bind_r; [keeps_tac|]. intros e1.
  apply follows_bind_r; [keeps_tac|]. intros e2.
  apply follows_bind_r; [keeps_tac|]. intros e3.
  apply follows_bind_r; [keeps_tac|]. intros e4.
  apply follows_bind_l; [apply follows_changeStatus | keeps_tac].
Qed.

End status_of_operations.

(** *** Sequences of lifecycle operations *)

Lemma follows_runOp `{Externals} env op : follows (runOp env op).
Proof.
  destruct op; cbn.
  - apply follows_changeStatus.
  - apply keeps_follows, keeps_bind; [apply keeps_createGoferProcess | intros; apply keeps_ret].
  - apply follows_bind_l; [apply follows_Start | intros; apply keeps_ret].
  - apply follows_bind_l; [apply follows_Restore | intros; apply keeps_ret].
  - apply follows_CheckStopped.
  - apply follows_bind_l; [apply follows_Wait | intros; apply keeps_ret].
  - apply keeps_follows, keeps_bind; [apply keeps_SignalContainer | intros; apply keeps_ret].
  - apply follows_bind_l; [apply follows_Pause | intros; apply keeps_ret].
  - apply follows_bind_l; [apply follows_Resume | intros; apply keeps_ret].
  - apply follows_bind_l; [apply follows_Destroy | intros; apply keeps_ret].
Qed.

(** C1. Every status change the controller records is one of
    Creating→Created, Created→Running, Running→Paused, Paused→Running or
    any→Stopped: changeStatus either records the requested status, and the
    transition is then one of these, or panics and records nothing; a request
    for any other transition panics. Consequently, along every sequence of
    lifecycle operations, under any answers of the environment, each status
    of the container is the previous one or follows it by one of these
    transitions. *)
Theorem status_changes_are_permitted `{Externals} :
  (forall s st,
     (changeStatus s st = Ok tt (recorded s st) /\ permitted (Status_ (self st)) s = true) \/
     (exists msg, changeStatus s st = Panic msg st)) /\
  (forall s st,
     permitted (Status_ (self st)) s = true \/
     (exists msg, changeStatus s st = Panic msg st)) /\
  (forall from to,
     permitted from to = true <->
     (from = Creating /\ to = Created) \/ (from = Created /\ to = Running) \/
     (from = Running /\ to = Paused) \/ (from = Paused /\ to = Running) \/
     to = Stopped) /\
  (forall ops st, chain (Status_ (self st)) (statuses ops st)).
Proof.
  split; [|split; [|split; [split|]]].
  - intros s st.
    destruct (changeStatus_cases s st) as [(Hok & Hp & _)|(Hpanic & _)]; [left|right]; done.
  - intros s st.
    destruct (changeStatus_cases s st) as [(_ & Hp & _)|(Hpanic & _)]; [left|right]; done.
  - destruct from, to; cbn; intros; try discriminate; intuition congruence.
  - destruct from, to; cbn; intros; try reflexivity;
      intuition (try discriminate; try congruence).
  - intros ops. induction ops as [|[env op] rest IH]; intros st; cbn.
    + constructor.
    + pose proof (follows_runOp env op st) as Hstep.
      destruct (runOp env op st) as [u st'|msg st']; cbn in Hstep.
      * constructor; [done | apply IH].
      * constructor; [done | constructor].
Qed.

(** C9. Whenever changeStatus sets the status to Created, Running or Paused,
    the Sandbox reference of the container is non-nil, and changeStatus
    leaves that reference as it is; with a nil Sandbox, a request for any
    status but Stopped panics and records nothing, and the request for
    Stopped is recorded. *)
Theorem changeStatus_needs_sandbox :
  (forall s st,
     (changeStatus s st = Ok tt (recorded s st) /\
      (s = Stopped \/ Sandbox (self (recorded s st)) ≠ None)) \/
     (exists msg, changeStatus s st = Panic msg st)) /\
  (forall s st,
     Sandbox (self st) ≠ None \/ s = Stopped \/
     (exists msg, changeStatus s st = Panic msg st)) /\
  (forall st, changeStatus Stopped st = Ok tt (recorded Stopped st)).
Proof.
  split; [|split].
  - intros s st.
    destruct (changeStatus_cases s st) as [(Hok & _ & Hsb)|(Hpanic & _)]; [left|right]; done.
  - intros s st.
    destruct (changeStatus_cases s st) as [(_ & _ & [->|Hsb])|(Hpanic & _)]; auto.
  - intros st. reflexivity.
Qed.

(** ** Wait *)

(** C10. A successful Wait sets the in-memory status to Stopped and does
    nothing else to the container; on the way it issues one call, the wait
    RPC to the sandbox: it takes no lock on the state file and saves nothing,
    so the saved record, its status included, is what it was. *)
Theorem Wait_touches_only_the_status (env : Env) (st st' : State) (ws : Z) :
  Wait env st = Ok (ws, None) st' ->
  self st' = set_Status Stopped (self st) /\
  world st' = logged [EvSandboxWait (ID (self st))] (world st) /\
  saved (world st') = saved (world st).
Proof.
  destruct st as [c w]. unfold Wait, Sandbox_Wait, theSandbox. unfold_monad. cbn.
  destruct (Sandbox c) as [sb|]; cbn; [|discriminate].
  destruct (env_SandboxWait env) as [ws' [err|]]; cbn; [discriminate|].
  intros [= <- <-]. done.
Qed.

Lemma Wait_touches_only_the_status_witness :
  Wait test_env (test_state Running) =
    Ok (0%Z, None) (recorded Stopped
                      {| self := test_container Running;
                         world := logged [EvSandboxWait "c1"] (world (test_state Running)) |}) /\
  saved (world (recorded Stopped
                  {| self := test_container Running;
                     world := logged [EvSandboxWait "c1"] (world (test_state Running)) |})) =
    Some (test_container Running).
Proof.
  split; [reflexivity|].
  exact (eq_trans
           (proj2 (proj2 (Wait_touches_only_the_status test_env (test_state Running) _ 0%Z
                            eq_refl)))
           eq_refl).
Defined.

(** ** Pause *)

(** In any status but Created and Running, Pause returns an error: it takes
    and releases the lock, and neither calls the sandbox nor changes the
    container or the saved record. *)
Lemma Pause_rejected (env : Env) (st : State) :
  env_lock env = None -> env_unlock env = None ->
  Status_ (self st) ≠ Created -> Status_ (self st) ≠ Running ->
  exists msg,
    Pause env st =
      Ok (Some msg) {| self := self st; world := logged [EvLock; EvUnlock] (world st) |}.
Proof.
  intros Hlock Hunlock Hc Hr. destruct st as [c w].
  unfold Pause, orReturn, defer, Saver_lock, Saver_UnlockOrDie. rewrite Hlock, Hunlock.
  unfold_monad. cbn in *.
  rewrite !bool_decide_eq_true_2 by done. cbn.
  eexists. unfold logged. cbn. by rewrite <- app_assoc.
Qed.

(** A running container is paused: the sandbox is paused, the status becomes
    Paused and the record is saved, all under the lock. *)
Lemma Pause_running (env : Env) (st : State) (sb : sandbox.Sandbox) :
  env_lock env = None -> env_unlock env = None ->
  env_SandboxPause env = None -> env_SaveLocked env = None ->
  Status_ (self st) = Running -> Sandbox (self st) = Some sb ->
  Pause env st =
    Ok None
       {| self := set_Status Paused (self st);
          world :=
            {| fs := fs (world st);
               saved := Some (set_goferIsChild false (set_Status Paused (self st)));
               log := log (world st) ++
                      [EvLock; EvSandboxPause (ID (self st));
                       EvSave (set_goferIsChild false (set_Status Paused (self st)));
                       EvUnlock] |} |}.
Proof.
  intros Hlock Hunlock Hpause Hsave Hs Hsb. destruct st as [c w].
  unfold Pause, orReturn, defer, Saver_lock, Saver_UnlockOrDie, Sandbox_Pause, theSandbox,
    saveLocked, Saver_SaveLocked, changeStatus.
  rewrite Hlock, Hunlock, Hpause, Hsave. unfold_monad. cbn in *.
  repeat (progress (cbn; try rewrite Hs; try rewrite Hsb; decide_all)).
  by rewrite <- !app_assoc.
Qed.

(** C3 fails on a container in status Created. The guard of Pause lets
    Created through, the sandbox is paused, and changeStatus then panics on
    the transition Created → Paused: Pause does not return an error. At the
    panic the status is still Created and nothing has been saved; the lock is
    released by the deferred unlock. *)
Theorem Pause_created_panics (env : Env) (st : State) (sb : sandbox.Sandbox) :
  env_lock env = None -> env_unlock env = None -> env_SandboxPause env = None ->
  Status_ (self st) = Created -> Sandbox (self st) = Some sb ->
  Pause env st =
    Panic "invalid state transition: created => paused"
          {| self := self st;
             world := logged [EvLock; EvSandboxPause (ID (self st)); EvUnlock] (world st) |}.
Proof.
  intros Hlock Hunlock Hpause Hs Hsb. destruct st as [c w].
  unfold Pause, orReturn, defer, Saver_lock, Saver_UnlockOrDie, Sandbox_Pause, theSandbox,
    changeStatus.
  rewrite Hlock, Hunlock, Hpause. unfold_monad. cbn in *.
  repeat (progress (cbn; try rewrite Hs; try rewrite Hsb; decide_all)).
  unfold logged. cbn. by rewrite <- !app_assoc.
Qed.

Lemma Pause_created_panics_witness :
  Pause test_env (test_state Created) =
    Panic "invalid state transition: created => paused"
          {| self := test_container Created;
             world := logged [EvLock; EvSandboxPause "c1"; EvUnlock]
                             (world (test_state Created)) |}.
Proof.
  exact (Pause_created_panics test_env (test_state Created) test_sandbox
           eq_refl eq_refl eq_refl eq_refl eq_refl).
Defined.

(** ** Signals *)

(** The sentry's own SignalContainer RPC (control.Lifecycle) keeps a state
    per container that is distinct from the status of the controller. It
    signals a container only in stateRunning; a container it has recorded as
    created or stopped, or does not know, gets an error and no kernel call. *)
Lemma control_SignalContainer_not_running (kenv : control.KernelEnv)
    (args : control.SignalContainerArgs) (l : control.Lifecycle) :
  (forall c, control.containerMap l !! control.ContainerID args = Some c ->
             control.state c ≠ control.stateRunning) ->
  exists msg, control.SignalContainer kenv args l = (Some msg, l).
Proof.
  intros Hstate. unfold control.SignalContainer, control.getInitContainerProcess.
  destruct (control.containerMap l !! control.ContainerID args) as [c|] eqn:Hc.
  - rewrite bool_decide_eq_false_2 by by apply Hstate. cbn. by eexists.
  - by eexists.
Qed.




(** ** OOM score coordination (4.8) *)

Lemma lowestScore_found (containers : list Container) (low : Z) :
  exists m, lowestScore containers low true = (m, true) /\
            is_minimum m (low :: specified_scores containers).
Proof.
  revert low. induction containers as [|c rest IH]; intros low; cbn.
  - exists low. split; [done|]. split; [by left|]. intros x Hx.
    apply list_elem_of_singleton in Hx. lia.
  - unfold specified_scores in *. cbn. case_bool_decide as Hty.
    + apply IH.
    + destruct (specs.OOMScoreAdj (specs.Process (Spec c))) as [score|]; cbn; [|apply IH].
      case_bool_decide as Hlt.
      * destruct (IH score) as (m & -> & Hin & Hmin). exists m. split; [done|]. split.
        -- by right.
        -- intros x [->|Hx]%elem_of_cons.
           ++ specialize (Hmin score ltac:(by left)). lia.
           ++ by apply Hmin.
      * destruct (IH low) as (m & -> & Hin & Hmin). exists m. split; [done|]. split.
        -- apply elem_of_cons in Hin as [->|Hin]; [by left|]. by right; right.
        -- intros x [->|[->|Hx]%elem_of_cons]%elem_of_cons.
           ++ apply Hmin. by left.
           ++ specialize (Hmin low ltac:(by left)). lia.
           ++ apply Hmin. by right.
Qed.

Lemma lowestScore_spec (containers : list Container) (low : Z) :
  (specified_scores containers = [] /\ lowestScore containers low false = (low, false)) \/
  (exists m, lowestScore containers low false = (m, true) /\
             is_minimum m (specified_scores containers)).
Proof.
  induction containers as [|c rest IH]; cbn.
  - by left.
  - unfold specified_scores in *. cbn. case_bool_decide as Hty; [apply IH|].
    destruct (specs.OOMScoreAdj (specs.Process (Spec c))) as [score|]; cbn; [|apply IH].
    right. apply lowestScore_found.
Qed.

Lemma is_minimum_unique (m m' : Z) (l : list Z) :
  is_minimum m l -> is_minimum m' l -> m = m'.
Proof. intros [Hin Hmin] [Hin' Hmin']. specialize (Hmin _ Hin'). specialize (Hmin' _ Hin). lia. Qed.

Section oom.
Context `{Externals}.

(** The adjustment is skipped, with no write, when the root container is
    being destroyed and when the sandbox has no container left. *)
Lemma adjustSandboxOOMScoreAdj_skipped env s spec rootDir destroy st :
  isRoot spec && destroy = true \/ env_LoadSandbox env = ([], None) ->
  adjustSandboxOOMScoreAdj env s spec rootDir destroy st = Ok None st.
Proof.
  unfold adjustSandboxOOMScoreAdj. intros [->| ->]; [done|].
  by destruct (isRoot spec && destroy).
Qed.

(** C7. When the adjustment is performed (the call is not the destroy of the
    root container, and the sandbox still has containers), then: if some
    container that is not of type "sandbox" specifies a score, the score
    written to the sentry process is the minimum of the scores so specified;
    if none does and this is a destroy, the score written is the
    OriginalOOMScoreAdj saved with the sandbox; if none does and this is not
    a destroy, nothing is written. *)
Theorem adjustSandboxOOMScoreAdj_writes_minimum env s spec rootDir destroy st containers :
  env_LoadSandbox env = (containers, None) ->
  containers ≠ [] ->
  isRoot spec && destroy = false ->
  env_writeOOMScoreAdj env (sandbox.Pid s) = Written ->
  (forall m, is_minimum m (specified_scores containers) ->
     adjustSandboxOOMScoreAdj env s spec rootDir destroy st =
       Ok None (written (sandbox.Pid s) m st)) /\
  (specified_scores containers = [] -> destroy = true ->
     forall first sb, head containers = Some first -> Sandbox first = Some sb ->
     adjustSandboxOOMScoreAdj env s spec rootDir destroy st =
       Ok None (written (sandbox.Pid s) (sandbox.OriginalOOMScoreAdj sb) st)) /\
  (specified_scores containers = [] -> destroy = false ->
     adjustSandboxOOMScoreAdj env s spec rootDir destroy st = Ok None st).
Proof.
  intros Hload Hne Hroot Hw. unfold adjustSandboxOOMScoreAdj. rewrite Hroot, Hload.
  destruct containers as [|first rest]; [done|].
  destruct (lowestScore_spec (first :: rest) 0) as [[Hnone Hlow]|(m' & Hlow & Hmin')];
    rewrite Hlow; unfold setOOMScoreAdj; unfold_monad; cbn.
  - split; [|split].
    + intros m [Hin _]. rewrite Hnone in Hin. by apply elem_of_nil in Hin.
    + intros _ -> first' sb [= <-] Hsb. rewrite Hsb. cbn. by rewrite Hw.
    + intros _ ->. done.
  - split; [|split].
    + intros m Hmin. rewrite (is_minimum_unique _ _ _ Hmin Hmin'). by rewrite Hw.
    + intros Hnone. destruct Hmin' as [Hin _]. rewrite Hnone in Hin.
      by apply elem_of_nil in Hin.
    + intros Hnone. destruct Hmin' as [Hin _]. rewrite Hnone in Hin.
      by apply elem_of_nil in Hin.
Qed.

End oom.

Lemma pod_minimum : is_minimum 100 (specified_scores pod).
Proof.
  split.
  - cbn. set_solver.
  - cbn. intros x Hx. set_unfold. lia.
Qed.

Lemma adjustSandboxOOMScoreAdj_writes_minimum_witness :
  adjustSandboxOOMScoreAdj (env_with_containers pod) test_sandbox
    (Spec (scored_container "c3" specs.ContainerTypeContainer (Some 100%Z)))
    "/var/run/runsc" false (test_state Running) =
  Ok None (written 4242 100 (test_state Running)).
Proof.
  exact (proj1 (adjustSandboxOOMScoreAdj_writes_minimum
                  (env_with_containers pod) test_sandbox
                  (Spec (scored_container "c3" specs.ContainerTypeContainer (Some 100%Z)))
                  "/var/run/runsc" false
                  (test_state Running) pod eq_refl ltac:(discriminate) eq_refl eq_refl)
           100%Z pod_minimum).
Defined.

(** ** Mount planning (4.4) *)

Section planning.
Context `{Externals}.

(** createGoferConf only reads the world. The lower layer follows the mount
    type; without an overlay medium the upper layer is NoOverlay; with the
    self medium it is SelfOverlay on a directory and MemoryOverlay on any
    other existing source. *)
Lemma createGoferConf_inv medium size mountType src st :
  exists r,
    createGoferConf medium size mountType src st = Ok r st /\
    forall g, r = inr g ->
      ((mountType = boot.Bind /\ boot.Lower g = boot.Lisafs) \/
       (mountType = boot.tmpfs_Name /\ boot.Lower g = boot.NoneLower) \/
       (mountType = boot.erofs_Name /\ boot.Lower g = boot.Erofs)) /\
      (medium = config.NoOverlay -> boot.Upper g = boot.NoOverlay) /\
      (medium = config.SelfOverlay ->
       (fs (world st) !! src = Some Dir /\ boot.Upper g = boot.SelfOverlay) \/
       (fs (world st) !! src = Some Regular /\ boot.Upper g = boot.MemoryOverlay)).
Proof.
  unfold createGoferConf. unfold_monad.
  repeat case_bool_decide; destruct medium; cbn;
    try destruct (fs (world st) !! src) as [[]|] eqn:Hstat;
    eexists; (split; [reflexivity|]); intros g Hg; try discriminate;
    injection Hg as <-; cbn; (split; [tauto|]); (split; [done|]);
    intros; try discriminate; tauto.
Qed.

Lemma appended_nil st : appended [] st = st.
Proof.
  destruct st as [[] w]. unfold appended, set_GoferMountConfs. cbn. by rewrite app_nil_r.
Qed.

Lemma appended_app l1 l2 st : appended l2 (appended l1 st) = appended (l1 ++ l2) st.
Proof. unfold appended, set_GoferMountConfs. cbn. by rewrite app_assoc. Qed.

Lemma initGoferConfs_mounts_inv ovlConf hints mounts st st' :
  initGoferConfs_mounts ovlConf hints mounts st = Ok None st' ->
  exists subConfs,
    st' = appended subConfs st /\
    Forall2 (planned_upper (fs (world st)) hints) (List.filter IsGoferMount mounts) subConfs.
Proof.
  revert st. induction mounts as [|m rest IH]; intros st; cbn.
  - unfold_monad. intros [= <-]. exists []. split; [by rewrite appended_nil | constructor].
  - destruct (IsGoferMount m) eqn:Hgofer; cbn; [|apply IH].
    set (plan :=
      match FindMount hints (specs.Source m) with
      | Some hint =>
          if boot.IsSandboxLocal hint then
            (config.SelfOverlay,
             if negb (IsGoferMount (boot.Mount hint))
             then specs.Type' (boot.Mount hint) else boot.Bind, "")
          else (if IsReadonlyMount (specs.Options m) then config.NoOverlay
                else config.SubMountOverlayMedium ovlConf,
                boot.Bind, config.SubMountOverlaySize ovlConf)
      | None => (if IsReadonlyMount (specs.Options m) then config.NoOverlay
                 else config.SubMountOverlayMedium ovlConf,
                 boot.Bind, config.SubMountOverlaySize ovlConf)
      end).
    assert (Hplan : forall g medium,
      medium = plan.1.1 ->
      (medium = config.NoOverlay -> boot.Upper g = boot.NoOverlay) ->
      (medium = config.SelfOverlay ->
       (fs (world st) !! specs.Source m = Some Dir /\ boot.Upper g = boot.SelfOverlay) \/
       (fs (world st) !! specs.Source m = Some Regular /\
        boot.Upper g = boot.MemoryOverlay)) ->
      planned_upper (fs (world st)) hints m g).
    { intros g medium -> Hno Hself. unfold planned_upper. subst plan.
      destruct (FindMount hints (specs.Source m)) as [hint|];
        [destruct (boot.IsSandboxLocal hint)|]; cbn in *.
      - by apply Hself.
      - intros Hro. rewrite Hro in Hno. by apply Hno.
      - intros Hro. rewrite Hro in Hno. by apply Hno. }
    destruct plan as [[medium mountType] size] eqn:Hp.
    destruct (createGoferConf_inv medium size mountType (specs.Source m) st)
      as (r & Hr & Hg).
    unfold mbind at 1. unfold M_bind at 1. rewrite Hr.
    destruct r as [err|g]; [unfold_monad; discriminate|].
    destruct (Hg g eq_refl) as (_ & Hno & Hself).
    unfold appendGoferConf. unfold_monad. cbn.
    intros Hrest. apply IH in Hrest as (subConfs & -> & Hall). cbn in Hall.
    exists (g :: subConfs). split.
    + change {| self := set_GoferMountConfs (GoferMountConfs (self st) ++ [g]) (self st);
                world := world st |} with (appended [g] st).
      by rewrite appended_app.
    + constructor; [|done]. by apply (Hplan g medium).
Qed.

(** Planning never panics: it returns nil or the error of the first mount
    whose configuration cannot be made. *)
Lemma initGoferConfs_mounts_returns ovlConf hints mounts st :
  exists e st', initGoferConfs_mounts ovlConf hints mounts st = Ok e st'.
Proof.
  revert st. induction mounts as [|m rest IH]; intros st; cbn.
  - by do 2 eexists.
  - destruct (IsGoferMount m); cbn; [|apply IH].
    destruct (FindMount hints (specs.Source m)) as [hint|];
      [destruct (boot.IsSandboxLocal hint)|]; cbn;
      match goal with
      | |- context [createGoferConf ?md ?sz ?ty ?src] =>
          destruct (createGoferConf_inv md sz ty src st) as (r & Hr & _)
      end;
      unfold mbind at 1; unfold M_bind at 1; rewrite Hr;
      (destruct r as [err|g]; [by do 2 eexists|]);
      unfold appendGoferConf; unfold_monad; cbn; apply IH.
Qed.

Lemma initGoferConfs_returns ovlConf hints rootfsHint st :
  exists e st', initGoferConfs ovlConf hints rootfsHint st = Ok e st'.
Proof.
  unfold initGoferConfs. unfold mbind at 1. unfold M_bind at 1. unfold getc at 1.
  destruct rootfsHint as [hint|]; cbn.
  all: match goal with
  | |- context [createGoferConf ?md ?sz ?ty ?src] =>
      destruct (createGoferConf_inv md sz ty src st) as (r & Hr & _)
  end.
  all: unfold mbind at 1; unfold M_bind at 1; rewrite Hr.
  all: destruct r as [err|g]; [by do 2 eexists|].
  all: unfold appendGoferConf; unfold_monad; cbn; apply initGoferConfs_mounts_returns.
Qed.

(** C5. When initGoferConfs succeeds it appends one configuration for the
    root and then one for each gofer-serviced entry of Spec.Mounts, in order.
    For such an entry: if a pod mount hint marks its source sandbox-local,
    the upper layer is SelfOverlay when the source is a directory and
    MemoryOverlay when it is another file, read-only or not; otherwise, if
    the mount is read-only, the upper layer is NoOverlay. *)
Theorem initGoferConfs_upper_layers ovlConf hints rootfsHint st st' :
  initGoferConfs ovlConf hints rootfsHint st = Ok None st' ->
  exists rootConf subConfs,
    st' = appended (rootConf :: subConfs) st /\
    Forall2 (planned_upper (fs (world st)) hints)
            (List.filter IsGoferMount (specs.Mounts (Spec (self st)))) subConfs.
Proof.
  unfold initGoferConfs. unfold mbind at 1. unfold M_bind at 1. unfold getc at 1.
  destruct (match rootfsHint with
            | Some hint =>
                (boot.Overlay hint,
                 if negb (IsGoferMount (boot.RMount hint))
                 then specs.Type' (boot.RMount hint) else boot.Bind,
                 boot.RSize hint)
            | None => (config.RootOverlayMedium ovlConf, boot.Bind,
                       config.RootOverlaySize ovlConf)
            end) as [[medium mountType] size].
  match goal with
  | |- context [createGoferConf ?md ?sz ?ty ?src] =>
      destruct (createGoferConf_inv md sz ty src st) as (r & Hr & _)
  end.
  unfold mbind at 1. unfold M_bind at 1. rewrite Hr.
  destruct r as [err|g]; [unfold_monad; discriminate|].
  unfold appendGoferConf. unfold_monad. cbn.
  intros Hrest. apply initGoferConfs_mounts_inv in Hrest as (subConfs & -> & Hall).
  cbn in Hall. exists g, subConfs. split; [|done].
  change {| self := set_GoferMountConfs (GoferMountConfs (self st) ++ [g]) (self st);
            world := world st |} with (appended [g] st).
  by rewrite appended_app.
Qed.

End planning.

Lemma planning_run :
  initGoferConfs (H := test_externals) planning_overlay planning_hints None planning_state =
  Ok None (appended [lisafs boot.SelfOverlay; lisafs boot.NoOverlay;
                     lisafs boot.SelfOverlay; lisafs boot.MemoryOverlay]
                    planning_state).
Proof. vm_compute. reflexivity. Qed.

Lemma initGoferConfs_upper_layers_witness :
  exists rootConf subConfs,
    appended [lisafs boot.SelfOverlay; lisafs boot.NoOverlay;
              lisafs boot.SelfOverlay; lisafs boot.MemoryOverlay] planning_state =
      appended (rootConf :: subConfs) planning_state /\
    Forall2 (planned_upper (H := test_externals) (fs (world planning_state)) planning_hints)
            (List.filter (IsGoferMount (Externals := test_externals))
                         (specs.Mounts (Spec (self planning_state))))
            subConfs.
Proof.
  exact (initGoferConfs_upper_layers (H := test_externals) planning_overlay planning_hints
           None planning_state _ planning_run).
Defined.

(** ** Goferless mode *)

Section goferless.
Context `{Externals}.

(** The lower layer planned for the root: Lisafs without a rootfs hint; with
    a hint, the layer of the mount type createGoferConf was given. *)
Lemma initGoferConfs_root ovlConf hints rootfsHint st st' :
  initGoferConfs ovlConf hints rootfsHint st = Ok None st' ->
  exists rootConf subConfs,
    st' = appended (rootConf :: subConfs) st /\
    (boot.Lower rootConf = boot.Lisafs \/
     exists hint, rootfsHint = Some hint /\
       ((specs.Type' (boot.RMount hint) = boot.tmpfs_Name /\
         boot.Lower rootConf = boot.NoneLower) \/
        (specs.Type' (boot.RMount hint) = boot.erofs_Name /\
         boot.Lower rootConf = boot.Erofs))).
Proof.
  unfold initGoferConfs. unfold mbind at 1. unfold M_bind at 1. unfold getc at 1.
  set (plan := match rootfsHint with
               | Some hint =>
                   (boot.Overlay hint,
                    if negb (IsGoferMount (boot.RMount hint))
                    then specs.Type' (boot.RMount hint) else boot.Bind,
                    boot.RSize hint)
               | None => (config.RootOverlayMedium ovlConf, boot.Bind,
                          config.RootOverlaySize ovlConf)
               end).
  assert (Hty : plan.1.2 = boot.Bind \/
                exists hint, rootfsHint = Some hint /\
                             plan.1.2 = specs.Type' (boot.RMount hint)).
  { subst plan. destruct rootfsHint as [hint|]; cbn; [|by left].
    destruct (IsGoferMount (boot.RMount hint)); cbn; [by left|]. right. by exists hint. }
  destruct plan as [[medium mountType] size]. cbn in Hty.
  match goal with
  | |- context [createGoferConf ?md ?sz ?ty ?src] =>
      destruct (createGoferConf_inv md sz ty src st) as (r & Hr & Hg)
  end.
  unfold mbind at 1. unfold M_bind at 1. rewrite Hr.
  destruct r as [err|g]; [unfold_monad; discriminate|].
  destruct (Hg g eq_refl) as (Hlower & _).
  unfold appendGoferConf. unfold_monad. cbn.
  intros Hrest. apply initGoferConfs_mounts_inv in Hrest as (subConfs & -> & _).
  exists g, subConfs. split.
  - change {| self := set_GoferMountConfs (GoferMountConfs (self st) ++ [g]) (self st);
              world := world st |} with (appended [g] st).
    by rewrite appended_app.
  - destruct Hlower as [[_ Hl]|[[Ht Hl]|[Ht Hl]]]; [by left| |].
    + destruct Hty as [Hb|(hint & -> & Hh)]; [by rewrite Hb in Ht|].
      right. exists hint. split; [done|]. left. split; [congruence|done].
    + destruct Hty as [Hb|(hint & -> & Hh)]; [by rewrite Hb in Ht|].
      right. exists hint. split; [done|]. right. split; [congruence|done].
Qed.

(** C6. Let a container without gofer mount configurations be created with a
    rootfs hint as the mount planning rules allow it. Whenever the plan is
    made and shouldSpawnGofer is false for it, the configuration of the root
    has an Erofs lower layer and a rootfs hint is present, so the guard of
    the goferless branch does not panic, and what createGoferProcess does
    is settled by two facts. If the nvidia hook is requested, it returns its
    error before the decision about the gofer. Otherwise it opens the image
    named by the hint: if the image is there, the open is the one call it
    makes and the opened image is returned as the one and only IO file, with
    no filestore, device or mounts file; if it is not, the error of the open
    is returned. In each case the container is as the planning left it: the
    gofer PID is the one it had (0 for a new container) and goferIsChild is
    not set. *)
Theorem goferless_root_is_erofs env conf hints attached st rootfsHint st1 :
  NewRootfsHint (Spec (self st)) = inr rootfsHint ->
  (forall h, rootfsHint = Some h -> RootfsHintValid h) ->
  GoferMountConfs (self st) = [] ->
  initGoferConfs (GetOverlay2 conf) hints rootfsHint st = Ok None st1 ->
  shouldSpawnGofer (Spec (self st1)) conf (GoferMountConfs (self st1)) = false ->
  exists g0 rest hint,
    GoferMountConfs (self st1) = g0 :: rest /\
    boot.Lower g0 = boot.Erofs /\
    rootfsHint = Some hint /\
    GoferPid (self st1) = GoferPid (self st) /\
    goferIsChild (self st1) = goferIsChild (self st) /\
    createGoferProcess env conf hints attached st =
      if GPUFunctionalityRequestedViaHook (Spec (self st1)) conf
      then Ok (inl "nvidia-container-runtime-hook cannot be used together with non-lisafs backed root mount")
              st1
      else
        match fs (world st1) !! specs.Source (boot.RMount hint) with
        | Some _ =>
            Ok (inr (goferlessFiles (specs.Source (boot.RMount hint))))
               {| self := self st1;
                  world := logged [EvOpen (specs.Source (boot.RMount hint))] (world st1) |}
        | None =>
            Ok (inl ("opening rootfs image " +:+ quote (specs.Source (boot.RMount hint)) +:+
                     ": " +:+ OSError_String ENOENT))
               st1
        end.
Proof.
  intros Hhint Hvalid Hnil Hplan Hspawn.
  destruct (initGoferConfs_root _ _ _ _ _ Hplan) as (g0 & rest & Hst1 & Hlower).
  assert (Hconfs : GoferMountConfs (self st1) = g0 :: rest).
  { rewrite Hst1. cbn. by rewrite Hnil. }
  rewrite Hconfs in Hspawn. unfold shouldSpawnGofer in Hspawn. cbn in Hspawn.
  destruct (boot.ShouldUseLisafs g0) eqn:Hlisafs; [done|].
  unfold boot.ShouldUseLisafs in Hlisafs. apply bool_decide_eq_false in Hlisafs.
  destruct Hlower as [Hl|(hint & -> & Hcases)]; [done|].
  assert (Herofs : boot.Lower g0 = boot.Erofs).
  { destruct Hcases as [[Ht _]|[_ Hl]]; [|done].
    destruct (Hvalid hint eq_refl) as [Hv|Hv]; rewrite Ht in Hv; discriminate. }
  exists g0, rest, hint.
  split; [done|]. split; [done|]. split; [done|].
  split; [by rewrite Hst1|]. split; [by rewrite Hst1|].
  set (src := specs.Source (boot.RMount hint)).
  unfold createGoferProcess. unfold mbind at 1. unfold M_bind at 1. unfold getc at 1.
  rewrite Hhint. unfold mbind at 1. unfold M_bind at 1. rewrite Hplan.
  unfold mbind at 1. unfold M_bind at 1. unfold getc at 1. rewrite Hconfs.
  unfold boot.ShouldUseLisafs, boot.ShouldUseErofs, shouldSpawnGofer. cbn [existsb].
  unfold boot.ShouldUseLisafs. rewrite Herofs.
  rewrite (bool_decide_eq_false_2 (boot.Erofs = boot.Lisafs)) by done.
  rewrite (bool_decide_eq_true_2 (boot.Erofs = boot.Erofs)) by done. cbn.
  destruct (GPUFunctionalityRequestedViaHook (Spec (self st1)) conf); cbn; [done|].
  unfold boot.ShouldUseLisafs in Hspawn.
  destruct (existsb _ rest); [done|]. cbn in Hspawn. cbn. rewrite Hspawn. cbn.
  unfold os_Open. unfold_monad. cbn. fold src.
  by destruct (fs (world st1) !! src).
Qed.

End goferless.

Lemma goferless_plan :
  initGoferConfs (H := hinted_externals "erofs")
    (GetOverlay2 (Externals := hinted_externals "erofs") no_flags)
    {| boot.Mounts := [] |} (Some (rootfs_hint "erofs")) goferless_state =
  Ok None (appended [erofs_root] goferless_state).
Proof. vm_compute. reflexivity. Qed.

Lemma goferless_root_is_erofs_witness :
  boot.Lower erofs_root = boot.Erofs /\
  GoferPid (self (appended [erofs_root] goferless_state)) = 0%Z /\
  createGoferProcess (H := hinted_externals "erofs") test_env no_flags
    {| boot.Mounts := [] |} false goferless_state =
  Ok (inr {| ioFiles := ["/images/rootfs.img"]; goferFilestores := [];
             devIOFile := None; mountsFile := None |})
     {| self := self (appended [erofs_root] goferless_state);
        world := logged [EvOpen "/images/rootfs.img"] (world goferless_state) |}.
Proof.
  destruct (goferless_root_is_erofs (H := hinted_externals "erofs") test_env no_flags
              {| boot.Mounts := [] |} false goferless_state (Some (rootfs_hint "erofs"))
              (appended [erofs_root] goferless_state) eq_refl
              (fun h Heq => or_introl (f_equal (fun o => match o with
                                                          | Some h' => specs.Type' (boot.RMount h')
                                                          | None => boot.erofs_Name
                                                          end) (eq_sym Heq)))
              eq_refl goferless_plan eq_refl)
    as (g0 & rest & hint & Hconfs & Herofs & Hhint & Hpid & _ & Hrun).
  injection Hconfs as <- <-. injection Hhint as <-.
  split; [exact Herofs|]. split; [exact Hpid|]. exact Hrun.
Defined.

(** The run of the scenario: the image is handed over as the only IO file and
    no gofer is recorded. *)
Lemma goferless_run :
  createGoferProcess (H := hinted_externals "erofs") test_env no_flags
    {| boot.Mounts := [] |} false goferless_state =
  Ok (inr (goferlessFiles "/images/rootfs.img"))
     {| self := self (appended [erofs_root] goferless_state);
        world := logged [EvOpen "/images/rootfs.img"] (world goferless_state) |}.
Proof. vm_compute. reflexivity. Qed.

(** The restriction on the rootfs hint is needed: were a hint of type tmpfs to
    reach createGoferProcess, the root would get no lower layer, no gofer
    would be spawned, and the guard of the goferless branch would panic. *)
Lemma goferless_panics_on_tmpfs_hint :
  createGoferProcess (H := hinted_externals "tmpfs") test_env no_flags
    {| boot.Mounts := [] |} false goferless_state =
  Panic "goferless mode is only possible with EROFS rootfs"
        (appended [{| boot.Lower := boot.NoneLower; boot.Upper := boot.NoOverlay;
                      boot.Size := "" |}] goferless_state).
Proof. vm_compute. reflexivity. Qed.

(** ** Flag overrides (runsc/config/flags.go) *)

Section overrides.
Context `{config.ConfigExternals}.

Lemma isOverrideAllowed_overridable c name value :
  config.isOverrideAllowed c name value = None <-> overridable c name value.
Proof.
  unfold config.isOverrideAllowed, overridable.
  destruct (config.AllowFlagOverride c); [by intuition|].
  destruct (config.allowlisted name) as [[chk|]|] eqn:Hlist.
  - destruct (chk name value) as [err|] eqn:Hchk; split.
    + discriminate.
    + intros [|(check & [= <-] & Hpass)]; [done|].
      specialize (Hpass chk eq_refl). congruence.
    + intros _. right. exists (Some chk). split; [done|]. by intros chk' [= <-].
    + done.
  - split; [|done]. intros _. right. exists None. split; [done|]. by intros chk' [=].
  - split; [done|]. intros [|(check & [=] & _)]. done.
Qed.

(** Without the permission the loop of Override changes nothing. *)
Lemma Override_fields_refused c flagSet name value err before rest :
  config.isOverrideAllowed c name value = Some err ->
  (exists err', config.Override_fields c flagSet name value false before rest =
                config.Returned (Some err', c, flagSet)) \/
  (flagSet !! name = None /\
   exists msg, config.Override_fields c flagSet name value false before rest =
               config.Panicked msg).
Proof.
  intros Hrefused. revert before.
  induction rest as [|[tag old] rest IH]; intros before; cbn.
  - left. by eexists.
  - case_bool_decide as Htag; [|apply IH].
    destruct (flagSet !! name) as [fl|] eqn:Hfl.
    + rewrite Hrefused. left. by eexists.
    + right. split; [done|]. by eexists.
Qed.

(** C4, as amended. An override requested through an annotation (Override
    with force = false) changes the configuration or the flag set only when
    the runtime configuration allows flag overrides or the named flag is on
    the allowlist and passes its check there. When neither holds, Override
    returns an error and leaves the configuration and the flag set as they
    were (or panics, when the flag of a tagged field is not registered). *)
Theorem Override_needs_permission c flagSet name value :
  (forall err c' flagSet',
     config.Override c flagSet name value false = config.Returned (err, c', flagSet') ->
     c' ≠ c \/ flagSet' ≠ flagSet -> overridable c name value) /\
  (~ overridable c name value ->
   (exists err, config.Override c flagSet name value false =
                config.Returned (Some err, c, flagSet)) \/
   (flagSet !! name = None /\
    exists msg, config.Override c flagSet name value false = config.Panicked msg)).
Proof.
  assert (Hrefused : ~ overridable c name value ->
    (exists err, config.Override c flagSet name value false =
                 config.Returned (Some err, c, flagSet)) \/
    (flagSet !! name = None /\
     exists msg, config.Override c flagSet name value false = config.Panicked msg)).
  { intros Hno. rewrite <- isOverrideAllowed_overridable in Hno.
    destruct (config.isOverrideAllowed c name value) as [err|] eqn:Hallowed; [|done].
    by apply (Override_fields_refused c flagSet name value err). }
  split; [|done].
  intros err c' flagSet' Hret Hchanged.
  destruct (config.isOverrideAllowed c name value) as [e|] eqn:Hallowed.
  - exfalso.
    destruct (Override_fields_refused c flagSet name value e [] (config.fields c) Hallowed)
      as [[err' Hsame]|[_ [msg Hpanic]]]; unfold config.Override in Hret.
    + rewrite Hsame in Hret. injection Hret as <- <- <-. by destruct Hchanged.
    + rewrite Hpanic in Hret. discriminate.
  - by apply isOverrideAllowed_overridable.
Qed.

End overrides.

(** C4 as stated fails: with flag overrides not allowed by the runtime, the
    override of the allowlisted flag debug is applied; and with flag overrides
    allowed, the override of network, which is not on the allowlist, is
    applied. Being allowed by the runtime and being on the allowlist are
    each sufficient, not jointly required. *)
Lemma Override_applied_on_either_permission :
  (config.AllowFlagOverride (runtime_config false false "sandbox") = false /\
   exists flagSet',
     config.Override (H := test_config_externals)
       (runtime_config false false "sandbox") (runtime_flags false false "sandbox")
       "debug" "true" false =
     config.Returned (None, runtime_config false true "sandbox", flagSet') /\
     runtime_config false true "sandbox" ≠ runtime_config false false "sandbox") /\
  (config.allowlisted (H := test_config_externals) "network" = None /\
   exists flagSet',
     config.Override (H := test_config_externals)
       (runtime_config true false "sandbox") (runtime_flags true false "sandbox")
       "network" "host" false =
     config.Returned (None, runtime_config true false "host", flagSet') /\
     runtime_config true false "host" ≠ runtime_config true false "sandbox").
Proof.
  split; (split; [reflexivity|]); eexists; (split; [vm_compute; reflexivity | discriminate]).
Qed.

Lemma Override_needs_permission_witness :
  exists err,
    config.Override (H := test_config_externals)
      (runtime_config false false "sandbox") (runtime_flags false false "sandbox")
      "network" "host" false =
    config.Returned (Some err, runtime_config false false "sandbox",
                     runtime_flags false false "sandbox").
Proof.
  destruct (proj2 (Override_needs_permission (H := test_config_externals)
                     (runtime_config false false "sandbox")
                     (runtime_flags false false "sandbox") "network" "host"))
    as [Herr|[Hnone _]].
  - intros [Hallow|(check & Hlist & _)]; discriminate.
  - exact Herr.
  - discriminate.
Defined.

(** ** Destroy *)

(** C2 fails on this container. The first Destroy succeeds: it stops the
    container, removes the state file and the filestore file, and records
    Stopped. The second Destroy, back to back, with every call of the
    environment succeeding again, returns an error: the filestore file is
    gone, os.Remove answers ENOENT, and unlike the loop over the shared
    filestores this path does not let ENOENT pass. Neither call panics. *)
Theorem Destroy_twice_returns_error :
  Destroy (H := test_externals) test_env started_state =
    Ok None (destroyed_state first_destroy_events) /\
  Destroy (H := test_externals) test_env (destroyed_state first_destroy_events) =
    Ok (Some ("failed to delete filestore file " +:+
              quote "/bundle/rootfs/.gvisor.filestore.c1" +:+
              ": no such file or directory"))
       (destroyed_state (first_destroy_events ++
                         [EvLock; EvSaverDestroy; EvUnlock; EvClose])).
Proof. split; vm_compute; reflexivity. Qed.

Lemma Destroy_aggregates_errors :
  Destroy (H := test_externals) failing_env started_state =
    Ok (Some (Join [ "stopping container: destroying container " +:+ quote "c1" +:+
                     ": sandbox unreachable";
                     "failed to delete filestore file " +:+
                     quote "/bundle/rootfs/.gvisor.filestore.c1" +:+
                     ": permission denied" ] newline))
       {| self := set_Status Stopped started_container;
          world := {| fs := fs (world started_state); saved := None;
                      log := [EvLock; EvSandboxDestroyContainer "c1"; EvSaverDestroy;
                              EvUnlock; EvClose] |} |}.
Proof. vm_compute. reflexivity. Qed.

Lemma Destroy_after_failed_plan_panics :
  exists err st1 st2,
    createGoferProcess (H := self_overlay_externals) test_env no_flags
      {| boot.Mounts := [] |} false unplanned_state = Ok (inl err) st1 /\
    GoferMountConfs (self st1) = [lisafs boot.SelfOverlay] /\
    Destroy (H := self_overlay_externals) test_env st1 =
      Panic "runtime error: index out of range [1] with length 1" st2.
Proof. do 3 eexists. split; [|split]; vm_compute; reflexivity. Qed.

(** *** Why a second Destroy cannot succeed *)

Lemma settled_refl st : settled st st.
Proof. by repeat split. Qed.

Lemma settled_trans st1 st2 st3 : settled st1 st2 -> settled st2 st3 -> settled st1 st3.
Proof.
  intros (Hs & Hg & Hv & Hsb & Hfs) (Hs' & Hg' & Hv' & Hsb' & Hfs').
  repeat split; [congruence..|auto|auto].
Qed.

Lemma settles_Ok {A : Type} (m : M A) (st st' : State) (a : A) :
  settles m -> m st = Ok a st' -> settled st st'.
Proof. intros Hm Hrun. specialize (Hm st). by rewrite Hrun in Hm. Qed.

Lemma settles_ret {A : Type} (a : A) : settles (mret a : M A).
Proof. intros st. apply settled_refl. Qed.

Lemma settles_panic {A : Type} (msg : string) : settles (panic msg : M A).
Proof. intros st. apply settled_refl. Qed.

Lemma settles_getc : settles getc.
Proof. intros st. apply settled_refl. Qed.

Lemma settles_getw : settles getw.
Proof. intros st. apply settled_refl. Qed.

Lemma settles_emit (e : Event) : settles (emit e).
Proof. intros st. by repeat split. Qed.

Lemma settles_bind {A B : Type} (m : M A) (k : A -> M B) :
  settles m -> (forall a, settles (k a)) -> settles (m ≫= k).
Proof.
  intros Hm Hk st. specialize (Hm st). unfold mbind, M_bind.
  destruct (m st) as [a st'|msg st']; cbn in *; [|done].
  eapply settled_trans; [done | apply Hk].
Qed.

Lemma settles_defer {A : Type} (cleanup : M unit) (body : M A) :
  settles cleanup -> settles body -> settles (defer cleanup body).
Proof.
  intros Hc Hb st. specialize (Hb st). unfold defer.
  destruct (body st) as [a st'|msg st']; cbn in *;
    specialize (Hc st'); destruct (cleanup st'); cbn in *;
    by eapply settled_trans.
Qed.

Lemma settles_orReturn (m k : M error) : settles m -> settles k -> settles (orReturn m k).
Proof.
  intros Hm Hk. unfold orReturn. apply settles_bind; [done|].
  intros [err|]; [apply settles_ret | done].
Qed.

Lemma settles_set_Status s : settles (modc (set_Status s)).
Proof. intros st. by repeat split. Qed.

Lemma settles_set_GoferPid p : settles (modc (set_GoferPid p)).
Proof. intros st. by repeat split. Qed.

Lemma settles_drop_Sandbox : settles (modc (set_Sandbox None)).
Proof. intros st. by repeat split. Qed.

Lemma settles_forget_saved :
  settles (modw (fun w => {| fs := fs w; saved := None; log := log w |})).
Proof. intros st. by repeat split. Qed.

Lemma settles_delete path :
  settles (modw (fun w => {| fs := delete path (fs w); saved := saved w; log := log w |})).
Proof.
  intros st. repeat split; cbn; try done.
  intros p Hp. destruct (decide (path = p)) as [->|Hne].
  - apply lookup_delete_eq.
  - by rewrite lookup_delete_ne.
Qed.

Lemma settles_changeStatus s : settles (changeStatus s).
Proof.
  intros st. destruct (changeStatus_cases s st) as [(-> & _)|([msg ->] & _)]; cbn.
  - by repeat split.
  - apply settled_refl.
Qed.

Create HintDb settles discriminated.

#[global] Hint Resolve settles_ret settles_panic settles_getc settles_getw settles_emit
  settles_set_Status settles_set_GoferPid settles_drop_Sandbox settles_forget_saved
  settles_delete settles_changeStatus : settles.

Ltac settles_step :=
  first
    [ progress intros
    | solve [ eauto with settles ]
    | apply settles_bind
    | apply settles_orReturn
    | apply settles_defer
    | match goal with
      | |- settles (match ?x with _ => _ end) => destruct x eqn:?
      | |- settles (let '(_, _) := ?x in _) => destruct x eqn:?
      end ].

Ltac settles_tac := repeat settles_step.

Section settled_steps.
Context `{Externals}.

Lemma settles_Saver_lock env : settles (Saver_lock env).
Proof. unfold Saver_lock. settles_tac. Qed.

Lemma settles_Saver_UnlockOrDie env : settles (Saver_UnlockOrDie env).
Proof. unfold Saver_UnlockOrDie. settles_tac. Qed.

Lemma settles_Saver_close : settles Saver_close.
Proof. unfold Saver_close. settles_tac. Qed.

Lemma settles_Saver_Destroy env : settles (Saver_Destroy env).
Proof. unfold Saver_Destroy. settles_tac. Qed.

Lemma settles_theSandbox : settles theSandbox.
Proof. unfold theSandbox. settles_tac. Qed.

Hint Resolve settles_Saver_lock settles_Saver_UnlockOrDie settles_Saver_close
  settles_Saver_Destroy settles_theSandbox : settles.

Lemma settles_Sandbox_SignalContainer env cid sig all :
  settles (Sandbox_SignalContainer env cid sig all).
Proof. unfold Sandbox_SignalContainer. settles_tac. Qed.

Lemma settles_Sandbox_DestroyContainer env cid : settles (Sandbox_DestroyContainer env cid).
Proof. unfold Sandbox_DestroyContainer. settles_tac. Qed.

Lemma settles_IsSandboxRunning env : settles (IsSandboxRunning env).
Proof. unfold IsSandboxRunning. settles_tac. Qed.

Lemma settles_requireStatus action statuses : settles (requireStatus action statuses).
Proof. unfold requireStatus. settles_tac. Qed.

Hint Resolve settles_Sandbox_SignalContainer settles_Sandbox_DestroyContainer
  settles_IsSandboxRunning settles_requireStatus : settles.

Lemma settles_SignalContainer env sig all : settles (SignalContainer env sig all).
Proof. unfold SignalContainer. settles_tac. Qed.

Lemma settles_os_Remove env path : settles (os_Remove env path).
Proof. unfold os_Remove. settles_tac. Qed.

Lemma settles_Cgroup_Uninstall env cg : settles (Cgroup_Uninstall env cg).
Proof. unfold Cgroup_Uninstall. settles_tac. Qed.

Hint Resolve settles_SignalContainer settles_os_Remove settles_Cgroup_Uninstall : settles.

Lemma settles_waitForStopped env : settles (waitForStopped env).
Proof. unfold waitForStopped. settles_tac. Qed.

Hint Resolve settles_waitForStopped : settles.

Lemma settles_stopGofer env parentCgroup : settles (stopGofer env parentCgroup).
Proof. unfold stopGofer. settles_tac. Qed.

Lemma settles_stopInSandbox env : settles (stopInSandbox env).
Proof. unfold stopInSandbox. settles_tac. Qed.

Hint Resolve settles_stopGofer settles_stopInSandbox : settles.

Lemma settles_stop env : settles (stop env).
Proof. unfold stop. settles_tac. Qed.

Lemma settles_forEachSelfMount_mounts fn confs mounts idx :
  (forall src, settles (fn src)) -> settles (forEachSelfMount_mounts fn confs mounts idx).
Proof.
  intros Hfn. revert idx.
  induction mounts as [|m rest IH]; intros idx; cbn; settles_tac.
Qed.

Lemma settles_removeSelfFilestore env sb src : settles (removeSelfFilestore env sb src).
Proof. unfold removeSelfFilestore. settles_tac. Qed.

Lemma settles_removeSharedFilestores env sid hints :
  settles (removeSharedFilestores env sid hints).
Proof. induction hints as [|hint rest IH]; cbn; settles_tac. Qed.

Lemma settles_setOOMScoreAdj env pid score : settles (setOOMScoreAdj env pid score).
Proof. unfold setOOMScoreAdj. settles_tac. Qed.

Hint Resolve settles_stop settles_forEachSelfMount_mounts settles_removeSelfFilestore
  settles_removeSharedFilestores settles_setOOMScoreAdj : settles.

Lemma settles_adjustSandboxOOMScoreAdj env s spec rootDir destroy :
  settles (adjustSandboxOOMScoreAdj env s spec rootDir destroy).
Proof. unfold adjustSandboxOOMScoreAdj. settles_tac. Qed.

Lemma settles_executeHooksBestEffort hooks : settles (executeHooksBestEffort hooks).
Proof. unfold executeHooksBestEffort. settles_tac. Qed.

Lemma settles_forEachSelfMount fn :
  (forall src, settles (fn src)) -> settles (forEachSelfMount fn).
Proof.
  intros Hfn. unfold forEachSelfMount.
  pose proof (settles_forEachSelfMount_mounts fn). settles_tac.
Qed.

Hint Resolve settles_adjustSandboxOOMScoreAdj settles_executeHooksBestEffort
  settles_forEachSelfMount : settles.

Lemma settles_destroyLocked env : settles (destroyLocked env).
Proof. unfold destroyLocked. settles_tac. Qed.

Lemma settles_Destroy env : settles (Destroy env).
Proof. unfold Destroy. pose proof (settles_destroyLocked env). settles_tac. Qed.

End settled_steps.

Section second_destroy.
Context `{Externals}.

Hint Resolve settles_removeSharedFilestores settles_adjustSandboxOOMScoreAdj
  settles_executeHooksBestEffort : settles.

Lemma stopInSandbox_drops_sandbox env st parentCgroup st' :
  stopInSandbox env st = Ok (inr parentCgroup) st' -> Sandbox (self st') = None.
Proof.
  destruct st as [c w].
  unfold stopInSandbox, Sandbox_DestroyContainer, theSandbox. unfold_monad. cbn.
  destruct (Sandbox c) as [sb|] eqn:Hsb; cbn.
  - rewrite Hsb. destruct (env_SandboxDestroyContainer env); cbn; [discriminate|].
    by intros [= <- <-].
  - by intros [= <- <-].
Qed.

Lemma stop_drops_sandbox env st st' :
  stop env st = Ok None st' -> Sandbox (self st') = None.
Proof.
  unfold stop. intros (r & st1 & Hr & Hk)%bind_Ok_inv.
  destruct r as [err|parentCgroup]; [discriminate|].
  apply stopInSandbox_drops_sandbox in Hr.
  pose proof (settles_stopGofer env parentCgroup st1) as Hs.
  rewrite Hk in Hs. by apply Hs.
Qed.

(** The first Destroy: when forEachSelfMount reports no error for a
    self-backed root that is not shared, the filestore file of the root has
    been removed. *)
Lemma forEachSelfMount_removes_root env sb st st' g0 rest :
  GoferMountConfs (self st) = g0 :: rest ->
  boot.IsSelfBacked g0 = true ->
  sharedBySandbox sb (specs.Path (specs.Root (Spec (self st)))) = false ->
  forEachSelfMount (removeSelfFilestore env sb) st = Ok [] st' ->
  fs (world st') !! rootFilestore (self st) = None.
Proof.
  intros Hconfs Hself Hshared. unfold forEachSelfMount.
  intros (c & st0 & [= <- <-] & Hrun)%bind_Ok_inv.
  rewrite Hconfs, Hself in Hrun.
  apply bind_Ok_inv in Hrun as (e & st1 & He & Hrun).
  apply bind_Ok_inv in Hrun as (es & st2 & Hes & [= Hnil ->]).
  apply app_eq_nil in Hnil as [-> ->].
  assert (Hgone : fs (world st1) !! rootFilestore (self st) = None).
  { unfold removeSelfFilestore in He. rewrite Hshared in He.
    apply bind_Ok_inv in He as (c & st0 & [= <- <-] & He).
    fold (rootFilestore (self st)) in He.
    unfold os_Remove in He. unfold_monad. cbn in He.
    destruct (fs (world st) !! rootFilestore (self st)); [|discriminate].
    destruct (env_Remove env (rootFilestore (self st))); [discriminate|].
    cbn in He. injection He as <-. cbn. apply lookup_delete_eq. }
  pose proof (settles_forEachSelfMount_mounts (removeSelfFilestore env sb)
                (g0 :: rest) (specs.Mounts (Spec (self st))) 1
                (settles_removeSelfFilestore env sb) st1) as Hs.
  rewrite Hes in Hs. by apply Hs.
Qed.

(** The second Destroy: with the filestore file of a self-backed root gone
    and no sandbox at hand, forEachSelfMount panics or reports an error. *)
Lemma forEachSelfMount_misses_root env st g0 rest :
  GoferMountConfs (self st) = g0 :: rest ->
  boot.IsSelfBacked g0 = true ->
  fs (world st) !! rootFilestore (self st) = None ->
  match forEachSelfMount (removeSelfFilestore env None) st with
  | Ok errs _ => errs ≠ []
  | Panic _ _ => True
  end.
Proof.
  intros Hconfs Hself Hgone. unfold forEachSelfMount.
  unfold mbind at 1. unfold M_bind at 1. unfold getc at 1.
  rewrite Hconfs, Hself.
  assert (Hfirst : exists msg,
    removeSelfFilestore env None (specs.Path (specs.Root (Spec (self st)))) st =
    Ok [msg] st).
  { unfold removeSelfFilestore, sharedBySandbox, os_Remove. unfold_monad. cbn.
    fold (rootFilestore (self st)). rewrite Hgone. by eexists. }
  destruct Hfirst as [msg Hfirst].
  unfold mbind at 1. unfold M_bind at 1. rewrite Hfirst.
  unfold mbind, M_bind.
  by destruct (forEachSelfMount_mounts _ _ _ _ st) as [es st'|msg' st'].
Qed.

(** What a first Destroy that returns nil leaves behind, under the lock. *)
Lemma destroyLocked_succeeded env st st' g0 rest :
  GoferMountConfs (self st) = g0 :: rest ->
  boot.IsSelfBacked g0 = true ->
  sharedBySandbox (Sandbox (self st)) (specs.Path (specs.Root (Spec (self st)))) = false ->
  destroyLocked env st = Ok None st' ->
  Sandbox (self st') = None /\
  fs (world st') !! rootFilestore (self st) = None.
Proof.
  intros Hconfs Hself Hshared. unfold destroyLocked.
  intros (c & st0 & [= <- <-] & Hrun)%bind_Ok_inv.
  apply bind_Ok_inv in Hrun as (e1 & st1 & Hstop & Hrun).
  apply bind_Ok_inv in Hrun as (e2 & st2 & Hsaver & Hrun).
  apply bind_Ok_inv in Hrun as (e3 & st3 & Hmounts & Hrun).
  assert (Htail : settled st3 st' /\ e1 = None /\ e3 = []).
  { revert Hrun. match goal with |- ?tail st3 = _ -> _ => set (k := tail) end.
    assert (Hk : settles k) by (subst k; clear; settles_tac).
    intros Hrun. split.
    - by apply (settles_Ok k st3 st' None).
    - subst k.
      apply bind_Ok_inv in Hrun as (e4 & st4 & _ & Hrun).
      apply bind_Ok_inv in Hrun as (u & st5 & _ & Hrun).
      apply bind_Ok_inv in Hrun as (e5 & st6 & _ & Hrun).
      apply bind_Ok_inv in Hrun as (u' & st7 & _ & Hrun).
      destruct e1 as [err1|]; [discriminate|].
      destruct e2 as [err2|]; [discriminate|].
      destruct e3 as [|err3 e3]; [done|discriminate]. }
  destruct Htail as (Htail & -> & ->).
  pose proof (settles_Ok _ _ _ _ (settles_stop env) Hstop) as Hs1.
  pose proof (settles_Ok _ _ _ _ (settles_Saver_Destroy env) Hsaver) as Hs2.
  pose proof (settled_trans _ _ _ Hs1 Hs2) as (Hspec & Hplan & Hid & _ & _).
  apply stop_drops_sandbox in Hstop.
  pose proof (settles_Ok _ _ _ _
                (settles_forEachSelfMount _ (settles_removeSelfFilestore env _)) Hmounts)
    as Hs3.
  split.
  - apply Htail, Hs3, Hs2, Hstop.
  - apply Htail.
    replace (rootFilestore (self st)) with (rootFilestore (self st2))
      by (unfold rootFilestore, sandboxID; by rewrite Hspec, Hid).
    apply (forEachSelfMount_removes_root env (Sandbox (self st)) st2 st3 g0 rest);
      [by rewrite Hplan | done | by rewrite Hspec | done].
Qed.

(** What a second Destroy meets, under the lock: it panics or returns an
    error. *)
Lemma destroyLocked_again env st g0 rest :
  GoferMountConfs (self st) = g0 :: rest ->
  boot.IsSelfBacked g0 = true ->
  Sandbox (self st) = None ->
  fs (world st) !! rootFilestore (self st) = None ->
  match destroyLocked env st with
  | Ok e _ => e ≠ None
  | Panic _ _ => True
  end.
Proof.
  intros Hconfs Hself Hnil Hgone. unfold destroyLocked.
  unfold mbind at 1. unfold M_bind at 1. unfold getc at 1. rewrite Hnil.
  unfold mbind at 1. unfold M_bind at 1.
  destruct (stop env st) as [e1 st1|] eqn:Hstop; [|done].
  unfold mbind at 1. unfold M_bind at 1.
  destruct (Saver_Destroy env st1) as [e2 st2|] eqn:Hsaver; [|done].
  pose proof (settles_Ok _ _ _ _ (settles_stop env) Hstop) as Hs1.
  pose proof (settles_Ok _ _ _ _ (settles_Saver_Destroy env) Hsaver) as Hs2.
  pose proof (settled_trans _ _ _ Hs1 Hs2) as (Hspec & Hplan & Hid & _ & Hfs).
  pose proof (forEachSelfMount_misses_root env st2 g0 rest) as Hmiss.
  unfold mbind at 1. unfold M_bind at 1.
  destruct (forEachSelfMount (removeSelfFilestore env None) st2) as [e3 st3|]; [|done].
  assert (He3 : e3 ≠ []).
  { apply Hmiss; [by rewrite Hplan | done |].
    replace (rootFilestore (self st2)) with (rootFilestore (self st))
      by (unfold rootFilestore, sandboxID; by rewrite Hspec, Hid).
    by apply Hfs. }
  unfold_monad. cbn.
  destruct (specs.Hooks (Spec (self st))); cbn;
    destruct e1, e2, e3; cbn; done.
Qed.

Lemma Saver_lock_Ok env st r st' :
  Saver_lock env st = Ok r st' ->
  (exists err, r = Some err /\ st' = st) \/
  (r = None /\ st' = {| self := self st; world := logged [EvLock] (world st) |}).
Proof.
  unfold Saver_lock. destruct (env_lock env) as [err|]; unfold_monad; cbn.
  - intros [= <- <-]. left. by exists err.
  - intros [= <- <-]. by right.
Qed.

(** On every container whose root has a self-backed filestore that the
    sandbox does not share: once a Destroy has returned nil, no later Destroy
    returns nil, whatever the environment answers; it returns an error or
    panics. *)
Lemma Destroy_is_not_idempotent env1 env2 st st1 g0 rest :
  GoferMountConfs (self st) = g0 :: rest ->
  boot.IsSelfBacked g0 = true ->
  sharedBySandbox (Sandbox (self st)) (specs.Path (specs.Root (Spec (self st)))) = false ->
  Destroy env1 st = Ok None st1 ->
  match Destroy env2 st1 with
  | Ok e _ => e ≠ None
  | Panic _ _ => True
  end.
Proof.
  intros Hconfs Hself Hshared Hfirst.
  assert (Hleft : GoferMountConfs (self st1) = g0 :: rest /\
                  Sandbox (self st1) = None /\
                  fs (world st1) !! rootFilestore (self st1) = None).
  { unfold Destroy, orReturn in Hfirst.
    apply bind_Ok_inv in Hfirst as (r & stL & Hlock & Hfirst).
    apply Saver_lock_Ok in Hlock as [(err & -> & _)|[-> ->]]; [discriminate|].
    apply defer_Ok_inv in Hfirst as (stB & Hbody & Hclean).
    pose proof (settles_Ok _ _ _ _ (settles_destroyLocked env1) Hbody)
      as (Hspec & Hplan & Hid & _ & _).
    apply (destroyLocked_succeeded env1 _ stB g0 rest) in Hbody as [Hnil Hgone];
      [|done..].
    assert (Hc : settles (Saver_UnlockOrDie env1;; Saver_close)).
    { apply settles_bind; [apply settles_Saver_UnlockOrDie|].
      intros _. apply settles_Saver_close. }
    apply (settles_Ok _ _ _ _ Hc) in Hclean as (Hspec' & Hplan' & Hid' & Hnil' & Hfs').
    cbn in *. split; [congruence|]. split; [by apply Hnil'|].
    replace (rootFilestore (self st1)) with (rootFilestore (self st))
      by (unfold rootFilestore, sandboxID; congruence).
    by apply Hfs'. }
  destruct Hleft as (Hplan & Hnil & Hgone).
  unfold Destroy, orReturn. unfold mbind, M_bind.
  destruct (Saver_lock env2 st1) as [r stL|] eqn:Hlock; [|done].
  apply Saver_lock_Ok in Hlock as [(err & -> & _)|[-> ->]]; [done|].
  pose proof (destroyLocked_again env2
                {| self := self st1; world := logged [EvLock] (world st1) |}
                g0 rest Hplan Hself Hnil Hgone) as Hagain.
  unfold defer.
  destruct (destroyLocked env2 _) as [e stB|msg stB].
  - destruct (Saver_UnlockOrDie env2 stB) as [u stU|]; [|done].
    by destruct (Saver_close stU).
  - destruct (Saver_UnlockOrDie env2 stB) as [u stU|]; [|done].
    by destruct (Saver_close stU).
Qed.

End second_destroy.

(** ** Stability of the operations *)

Section stable.
Context (R : relation State) `{!PreOrder R}.

Lemma stable_ret {A : Type} (a : A) : stable R (mret a : M A).
Proof. intros st. reflexivity. Qed.

Lemma stable_panic {A : Type} (msg : string) : stable R (panic msg : M A).
Proof. intros st. reflexivity. Qed.

Lemma stable_getc : stable R getc.
Proof. intros st. reflexivity. Qed.

Lemma stable_getw : stable R getw.
Proof. intros st. reflexivity. Qed.

Lemma stable_bind {A B : Type} (m : M A) (k : A -> M B) :
  stable R m -> (forall a, stable R (k a)) -> stable R (m ≫= k).
Proof.
  intros Hm Hk st. specialize (Hm st). unfold mbind, M_bind.
  destruct (m st) as [a st'|msg st']; cbn in *; [|done].
  etransitivity; [done | apply Hk].
Qed.

Lemma stable_defer {A : Type} (cleanup : M unit) (body : M A) :
  stable R cleanup -> stable R body -> stable R (defer cleanup body).
Proof.
  intros Hc Hb st. specialize (Hb st). unfold defer.
  destruct (body st) as [a st'|msg st']; cbn in *;
    specialize (Hc st'); destruct (cleanup st'); cbn in *;
    by etransitivity.
Qed.

Lemma stable_orReturn (m k : M error) :
  stable R m -> stable R k -> stable R (orReturn m k).
Proof.
  intros Hm Hk. unfold orReturn. apply stable_bind; [done|].
  intros [err|]; [apply stable_ret | done].
Qed.

Lemma stable_Ok {A : Type} (m : M A) (st st' : State) (a : A) :
  stable R m -> m st = Ok a st' -> R st st'.
Proof. intros Hm Hrun. specialize (Hm st). by rewrite Hrun in Hm. Qed.

Lemma stable_Panic {A : Type} (m : M A) (st st' : State) (msg : string) :
  stable R m -> m st = Panic msg st' -> R st st'.
Proof. intros Hm Hrun. specialize (Hm st). by rewrite Hrun in Hm. Qed.

End stable.

#[global] Instance emits_preorder (p : Event -> bool) : PreOrder (emits p).
Proof.
  split.
  - intros st. exists []. by rewrite app_nil_r.
  - intros st1 st2 st3 (e1 & H1 & Hp1) (e2 & H2 & Hp2). exists (e1 ++ e2).
    rewrite H2, H1, app_assoc. split; [done|].
    rewrite forallb_app. by rewrite Hp1, Hp2.
Qed.

Lemma stable_emits_emit (p : Event -> bool) (e : Event) :
  p e = true -> stable (emits p) (emit e).
Proof. intros Hp st. exists [e]. cbn. by rewrite Hp. Qed.

Lemma stable_emits_modc (p : Event -> bool) (f : Container -> Container) :
  stable (emits p) (modc f).
Proof. intros st. exists []. cbn. by rewrite app_nil_r. Qed.

Lemma stable_emits_modw (p : Event -> bool) (f : World -> World) :
  (forall w, log (f w) = log w) -> stable (emits p) (modw f).
Proof. intros Hf st. exists []. cbn. by rewrite Hf, app_nil_r. Qed.

(** One step of a proof that an operation is stable: the structure of the
    monadic code is followed, and [base] settles the effects. *)
Ltac stable_step base :=
  first
    [ progress intros
    | match goal with |- PreOrder _ => apply _ end
    | solve [ eauto with stable ]
    | apply stable_ret
    | apply stable_panic
    | apply stable_getc
    | apply stable_getw
    | apply stable_bind
    | apply stable_orReturn
    | apply stable_defer
    | match goal with
      | |- stable _ (match ?x with _ => _ end) => destruct x eqn:?
      | |- stable _ (let '(_, _) := ?x in _) => destruct x eqn:?
      end
    | base ].

Ltac stable_tac base := repeat (stable_step base).

Ltac emits_base :=
  first
    [ apply stable_emits_emit; reflexivity
    | apply stable_emits_modc
    | apply stable_emits_modw; reflexivity ].

Create HintDb stable discriminated.

Ltac unfold_operations :=
  progress unfold Saver_lock, Saver_UnlockOrDie, Saver_close, Saver_SaveLocked, Saver_Destroy,
    theSandbox, Sandbox_Wait, Sandbox_Pause, Sandbox_Resume, Sandbox_SignalContainer,
    Sandbox_DestroyContainer, Sandbox_StartRoot, Sandbox_StartSubcontainer, Sandbox_Restore,
    Sandbox_RestoreSubcontainer, Sandbox_ContainerRuntimeState, saveLocked, IsSandboxRunning,
    requireStatus, SignalContainer, os_Remove, os_Open, Cgroup_Uninstall, waitForStopped,
    stopInSandbox, stopGofer, stop, setOOMScoreAdj, adjustSandboxOOMScoreAdj,
    executeHooksBestEffort, removeSelfFilestore, createGoferConf, appendGoferConf,
    initGoferConfs, createGoferProcess, runInCgroup, adjustGoferOOMScoreAdj, changeStatus,
    forEachSelfMount.

(** ** No operation keeps the lock of the state file *)

Ltac quiet_tac := stable_tac ltac:(first [ emits_base | unfold_operations ]).

Lemma quiet_forEachSelfMount_mounts `{Externals} fn confs mounts idx :
  (forall src, quiet (fn src)) -> quiet (forEachSelfMount_mounts fn confs mounts idx).
Proof.
  intros Hfn. revert idx.
  induction mounts as [|m rest IH]; intros idx; cbn; quiet_tac.
Qed.

Lemma quiet_removeSharedFilestores `{Externals} env sid hints :
  quiet (removeSharedFilestores env sid hints).
Proof. induction hints as [|hint rest IH]; cbn; quiet_tac. Qed.

Lemma quiet_initGoferConfs_mounts `{Externals} ovlConf hints mounts :
  quiet (initGoferConfs_mounts ovlConf hints mounts).
Proof.
  induction mounts as [|m rest IH]; cbn; [quiet_tac|].
  destruct (negb (IsGoferMount m)); [done|].
  destruct (FindMount hints (specs.Source m)) as [hint|];
    [destruct (boot.IsSandboxLocal hint)|]; quiet_tac.
Qed.

#[global] Hint Resolve quiet_removeSharedFilestores quiet_initGoferConfs_mounts : stable.

Ltac quiet_ops :=
  stable_tac ltac:(first [ emits_base | apply quiet_forEachSelfMount_mounts
                         | unfold_operations ]).

Lemma quiet_destroyLocked `{Externals} env : quiet (destroyLocked env).
Proof. unfold destroyLocked. quiet_ops. Qed.

Lemma quiet_startLocked `{Externals} env conf action startRoot startSub :
  quiet startRoot -> quiet startSub ->
  quiet (startLocked env conf action startRoot startSub).
Proof. intros Hr Hs. unfold startLocked. quiet_ops. Qed.

Lemma locking_app evs1 evs2 : locking (evs1 ++ evs2) = locking evs1 ++ locking evs2.
Proof. unfold locking. apply List.filter_app. Qed.

Lemma locking_quiet evs : forallb notLocking evs = true -> locking evs = [].
Proof.
  unfold locking, notLocking. induction evs as [|e evs IH]; cbn; [done|].
  intros [He Hevs]%andb_true_iff. apply negb_true_iff in He. rewrite He. auto.
Qed.

(** The region between the deferred release and the return. *)
Lemma released_after `{Externals} env {A : Type} (after : M unit) (body : M A) st :
  quiet after -> quiet body ->
  exists evs,
    log (world (final (defer (Saver_UnlockOrDie env;; after) body st))) =
      log (world st) ++ evs /\
    match env_unlock env with
    | None => locking evs = [EvUnlock]
    | Some _ => locking evs = [] /\
                exists msg st', defer (Saver_UnlockOrDie env;; after) body st = Panic msg st'
    end.
Proof.
  intros Hafter Hbody. specialize (Hbody st). unfold defer.
  destruct Hbody as (evs1 & Hlog1 & Hq1). apply locking_quiet in Hq1.
  set (st1 := final (body st)) in *.
  assert (Hclean : exists evs2,
    log (world (final ((Saver_UnlockOrDie env;; after) st1))) = log (world st1) ++ evs2 /\
    match env_unlock env with
    | None => locking evs2 = [EvUnlock]
    | Some _ => locking evs2 = [] /\
                exists msg st', (Saver_UnlockOrDie env;; after) st1 = Panic msg st'
    end).
  { unfold Saver_UnlockOrDie. destruct (env_unlock env) as [err|].
    - exists []. unfold mbind, M_bind, panic. cbn. rewrite app_nil_r. eauto.
    - unfold mbind, M_bind, emit, modw. cbn.
      match goal with |- context [after ?s] => specialize (Hafter s); set (s1 := s) in * end.
      destruct Hafter as (evs2 & Hlog2 & Hq2). apply locking_quiet in Hq2.
      exists (EvUnlock :: evs2). split.
      + destruct (after s1); cbn in *; rewrite Hlog2; subst s1; cbn;
          by rewrite <- app_assoc.
      + change (EvUnlock :: evs2) with ([EvUnlock] ++ evs2).
        by rewrite locking_app, Hq2. }
  destruct Hclean as (evs2 & Hlog2 & Hq2).
  exists (evs1 ++ evs2). rewrite locking_app, Hq1. cbn.
  destruct (body st) as [a st1'|msg st1']; cbn in *; subst st1;
    destruct ((Saver_UnlockOrDie env;; after) st1') as [u st2|msg2 st2] eqn:Hc; cbn in *;
    rewrite Hlog2, Hlog1, app_assoc; (split; [done|]);
    destruct (env_unlock env); try done;
    destruct Hq2 as [? (? & ? & ?)]; split; try done; try discriminate; eauto.
Qed.

Lemma Saver_lock_runs env st :
  Saver_lock env st =
    match env_lock env with
    | Some err => Ok (Some err) st
    | None => Ok None {| self := self st; world := logged [EvLock] (world st) |}
    end.
Proof. unfold Saver_lock. by destruct (env_lock env). Qed.

Lemma locked_region `{Externals} env (after : M unit) (body rest : M error) :
  quiet after -> quiet body -> quiet rest ->
  releasesLock env
    (orReturn (Saver_lock env) (orReturn (defer (Saver_UnlockOrDie env;; after) body) rest)).
Proof.
  intros Hafter Hbody Hrest st.
  set (st0 := {| self := self st; world := logged [EvLock] (world st) |}).
  match goal with |- context [final (?m st)] =>
    assert (Hm : m st =
      match env_lock env with
      | Some err => Ok (Some err) st
      | None =>
          match defer (Saver_UnlockOrDie env;; after) body st0 with
          | Ok (Some err) st1 => Ok (Some err) st1
          | Ok None st1 => rest st1
          | Panic msg st1 => Panic msg st1
          end
      end)
  end.
  { unfold orReturn, mbind, M_bind. rewrite Saver_lock_runs.
    destruct (env_lock env); [done|]. fold st0.
    destruct (defer _ body st0) as [[err|] st1|msg st1]; done. }
  rewrite Hm. clear Hm.
  destruct (env_lock env) as [err|]; cbn.
  { exists []. by rewrite app_nil_r. }
  destruct (released_after env after body st0 Hafter Hbody) as (evs & Hlog & Hl).
  destruct (defer _ body st0) as [r st1|msg st1] eqn:Hrun; cbn in *.
  - destruct (env_unlock env); [by destruct Hl as [_ (? & ? & ?)]|].
    destruct r as [err|]; cbn.
    + exists (EvLock :: evs). rewrite Hlog. rewrite <- app_assoc.
      split; [done|]. change (EvLock :: evs) with ([EvLock] ++ evs).
      by rewrite locking_app, Hl.
    + specialize (Hrest st1). destruct Hrest as (evs' & Hlog' & Hq').
      apply locking_quiet in Hq'.
      exists (EvLock :: evs ++ evs'). split.
      * destruct (rest st1); cbn in *; rewrite Hlog', Hlog;
          by rewrite <- !app_assoc.
      * change (EvLock :: evs ++ evs') with ([EvLock] ++ evs ++ evs').
        by rewrite !locking_app, Hl, Hq'.
  - exists (EvLock :: evs). rewrite Hlog. rewrite <- app_assoc.
    split; [done|]. change (EvLock :: evs) with ([EvLock] ++ evs).
    destruct (env_unlock env); rewrite locking_app.
    + destruct Hl as [-> _]. eauto.
    + by rewrite Hl.
Qed.

Lemma quiet_Saver_close : quiet Saver_close.
Proof. quiet_ops. Qed.

Lemma locked_operation `{Externals} env (after : M unit) (body : M error) :
  quiet after -> quiet body ->
  releasesLock env (orReturn (Saver_lock env) (defer (Saver_UnlockOrDie env;; after) body)).
Proof.
  intros Hafter Hbody st.
  destruct (locked_region env after body (mret None) Hafter Hbody
              ltac:(apply stable_ret; apply _) st) as (evs & Hlog & Hl).
  assert (Hsame : orReturn (Saver_lock env)
                    (orReturn (defer (Saver_UnlockOrDie env;; after) body) (mret None)) st =
                  orReturn (Saver_lock env) (defer (Saver_UnlockOrDie env;; after) body) st).
  { unfold orReturn, mbind, M_bind. destruct (Saver_lock env st) as [[err|] st0|]; try done.
    by destruct (defer _ body st0) as [[err|] st1|]. }
  rewrite Hsame in Hlog, Hl. by exists evs.
Qed.

Lemma Saver_UnlockOrDie_alone `{Externals} env :
  Saver_UnlockOrDie env = (Saver_UnlockOrDie env;; mret tt).
Proof.
  unfold Saver_UnlockOrDie. destruct (env_unlock env); reflexivity.
Qed.

Lemma locked_simple `{Externals} env (body : M error) :
  quiet body ->
  releasesLock env (orReturn (Saver_lock env) (defer (Saver_UnlockOrDie env) body)).
Proof.
  intros Hbody. rewrite (Saver_UnlockOrDie_alone env).
  apply locked_operation; [apply stable_ret; apply _ | done].
Qed.

Lemma quiet_startRest `{Externals} env :
  quiet (c ← getc;
         sb ← theSandbox;
         orReturn (adjustSandboxOOMScoreAdj env sb (Spec c) (RootDir (Saver c)) false)
                  (adjustGoferOOMScoreAdj env)).
Proof. quiet_ops. Qed.

Lemma releasesLock_startImpl `{Externals} env conf action startRoot startSub :
  quiet startRoot -> quiet startSub ->
  releasesLock env (startImpl env conf action startRoot startSub).
Proof.
  intros Hr Hs. unfold startImpl. rewrite (Saver_UnlockOrDie_alone env).
  apply locked_region;
    [apply stable_ret; apply _ | by apply quiet_startLocked | apply quiet_startRest].
Qed.

Lemma releasesLock_Destroy `{Externals} env : releasesLock env (Destroy env).
Proof. unfold Destroy. apply locked_operation; [quiet_ops | apply quiet_destroyLocked]. Qed.

(** X1. Pause, Resume, Start, Restore and Destroy never return with the lock
    of the state file taken. When the lock cannot be taken, the operation
    does nothing at all; otherwise it takes the lock once and releases it
    once, whatever happens in between (an error, a refused status, a panic);
    and when the release itself fails, the operation panics. *)
Theorem operations_release_the_lock `{Externals} (env : Env) (conf : config.Config) :
  releasesLock env (Pause env) /\
  releasesLock env (Resume env) /\
  releasesLock env (Start env conf) /\
  releasesLock env (Restore env conf) /\
  releasesLock env (Destroy env).
Proof.
  repeat split.
  - unfold Pause. apply locked_simple. quiet_ops.
  - unfold Resume. apply locked_simple. quiet_ops.
  - unfold Start. apply releasesLock_startImpl; quiet_ops.
  - unfold Restore. apply releasesLock_startImpl; quiet_ops.
  - apply releasesLock_Destroy.
Qed.

(** ** stop: the cgroups outlive the gofer *)

#[global] Instance sameSelf_preorder : PreOrder sameSelf.
Proof. split; [done|]. intros st1 st2 st3 H1 H2. unfold sameSelf in *. congruence. Qed.

Lemma stable_sameSelf_modw (f : World -> World) : stable sameSelf (modw f).
Proof. by intros st. Qed.

Lemma stable_sameSelf_emit (e : Event) : stable sameSelf (emit e).
Proof. by intros st. Qed.

Ltac sameSelf_ops :=
  stable_tac ltac:(first [ apply stable_sameSelf_emit | apply stable_sameSelf_modw
                         | unfold_operations ]).

Ltac notUninstall_ops := stable_tac ltac:(first [ emits_base | unfold_operations ]).

Lemma waitForStopped_None `{Externals} env st st' :
  waitForStopped env st = Ok None st' -> GoferPid (self st') = 0%Z.
Proof.
  unfold waitForStopped.
  intros (c & st0 & [= <- <-] & Hrun)%bind_Ok_inv.
  case_bool_decide as Hpid; [by injection Hrun as <-|].
  apply bind_Ok_inv in Hrun as (running & st1 & _ & Hrun).
  apply bind_Ok_inv in Hrun as (still & st2 & _ & Hrun).
  destruct still; [discriminate|].
  destruct (goferIsChild (self st)).
  - apply bind_Ok_inv in Hrun as (u & st3 & _ & Hrun).
    destruct (env_Wait4 env); [discriminate|].
    by injection Hrun as <-.
  - destruct (env_goferGone env); [|discriminate].
    by injection Hrun as <-.
Qed.

Lemma emits_unique p st st' evs :
  emits p st st' -> log (world st') = log (world st) ++ evs -> forallb p evs = true.
Proof.
  intros (evs' & Hlog & Hp) Hevs. rewrite Hlog in Hevs.
  apply app_inv_head in Hevs. by subst.
Qed.

Lemma not_uninstalled evs :
  forallb notUninstall evs = true -> existsb isUninstall evs = true -> False.
Proof.
  induction evs as [|e evs IH]; cbn; [done|].
  unfold notUninstall at 1. intros [He Hevs]%andb_true_iff [Hu|Hu]%orb_true_iff.
  - apply negb_true_iff in He. congruence.
  - auto.
Qed.

(** stopGofer, step by step. *)
Lemma stopGofer_runs `{Externals} env parentCgroup st :
  stopGofer env parentCgroup st =
    match (if bool_decide (GoferPid (self st) ≠ 0%Z)
           then emit (EvKill (GoferPid (self st)) SIGKILL) else mret tt) st with
    | Ok _ st1 =>
        match waitForStopped env st1 with
        | Ok (Some err) st2 => Ok (Some err) st2
        | Ok None st2 =>
            orReturn (match CompatCgroup (self st) with
                      | Some cg => Cgroup_Uninstall env cg
                      | None => mret None
                      end)
                     (match parentCgroup with
                      | Some cg => Cgroup_Uninstall env cg
                      | None => mret None
                      end) st2
        | Panic msg st2 => Panic msg st2
        end
    | Panic msg st1 => Panic msg st1
    end.
Proof.
  unfold stopGofer. unfold mbind at 1. unfold M_bind at 1. cbn.
  unfold mbind at 1. unfold M_bind at 1.
  destruct (_ st) as [u st1|msg st1]; [|done].
  unfold orReturn at 1. unfold mbind at 1. unfold M_bind at 1.
  by destruct (waitForStopped env st1) as [[err|] st2|msg st2].
Qed.

Lemma stop_cases `{Externals} env st :
  emits notUninstall st (final (stop env st)) \/
  GoferPid (self (final (stop env st))) = 0%Z.
Proof.
  pose proof (ltac:(notUninstall_ops) : stable (emits notUninstall) (stopInSandbox env)) as H1.
  pose proof (ltac:(notUninstall_ops) : stable (emits notUninstall) (waitForStopped env))
    as Hw.
  unfold stop. unfold mbind, M_bind.
  specialize (H1 st).
  destruct (stopInSandbox env st) as [[err|parentCgroup] st1|msg st1]; cbn in H1;
    [by left | | by left].
  rewrite stopGofer_runs.
  set (kill := if bool_decide (GoferPid (self st1) ≠ 0%Z)
               then emit (EvKill (GoferPid (self st1)) SIGKILL) else mret tt).
  assert (Hkill : stable (emits notUninstall) kill)
    by (subst kill; notUninstall_ops).
  specialize (Hkill st1).
  destruct (kill st1) as [u st2|msg st2]; cbn in Hkill;
    [|left; by etransitivity].
  specialize (Hw st2).
  destruct (waitForStopped env st2) as [[err|] st3|msg st3] eqn:Hwait; cbn in Hw.
  - left. etransitivity; [done|]. by etransitivity.
  - right. apply waitForStopped_None in Hwait.
    match goal with |- GoferPid (self (final (?m st3))) = _ =>
      assert (Hsame : stable sameSelf m) by sameSelf_ops;
      specialize (Hsame st3); unfold sameSelf in Hsame; by rewrite Hsame
    end.
  - left. etransitivity; [done|]. by etransitivity.
Qed.

(** X2. stop uninstalls a cgroup only once the gofer is gone. Whenever one
    of the events of stop is the uninstallation of a cgroup, the gofer has
    been waited for before, and stop ends with the gofer PID cleared. *)
Theorem stop_uninstalls_after_gofer `{Externals} (env : Env) (st : State) (evs : list Event) :
  log (world (final (stop env st))) = log (world st) ++ evs ->
  existsb isUninstall evs = true ->
  GoferPid (self (final (stop env st))) = 0%Z.
Proof.
  intros Hlog Hun. destruct (stop_cases env st) as [Hfree|Hgone]; [|done].
  exfalso. apply (not_uninstalled evs); [|done].
  by apply (emits_unique _ st (final (stop env st))).
Qed.

Lemma stop_uninstalls_after_gofer_witness :
  log (world (final (stop test_env cgroup_state))) =
    log (world cgroup_state) ++ stop_events /\
  GoferPid (self (final (stop test_env cgroup_state))) = 0%Z.
Proof.
  split; [vm_compute; reflexivity|].
  apply (stop_uninstalls_after_gofer (H := test_externals) test_env cgroup_state stop_events);
    vm_compute; reflexivity.
Defined.

(** ** Destroy *)

#[global] Instance woundDown_preorder : PreOrder woundDown.
Proof.
  split; [by intros st|].
  intros st1 st2 st3 (? & ? & ? & ?) (? & ? & ? & ?). repeat split; auto.
Qed.

Lemma stable_woundDown_changeStatus s : stable woundDown (changeStatus s).
Proof.
  intros [c w]. unfold changeStatus. unfold_monad. cbn.
  destruct s; repeat case_bool_decide; cbn; repeat split; cbn; try done;
    intros Hs; rewrite Hs in *; cbn in *; try done; naive_solver.
Qed.

#[global] Hint Resolve stable_woundDown_changeStatus : stable.

Ltac woundDown_base :=
  match goal with
  | |- stable woundDown (emit _) => by intros ?
  | |- stable woundDown (modw _) => by intros ?
  | |- stable woundDown (modc (set_GoferPid 0%Z)) => by intros ?
  | |- stable woundDown (modc (set_Sandbox None)) => by intros ?
  end.

Ltac unfold_teardown :=
  progress unfold Saver_lock, Saver_UnlockOrDie, Saver_close, Saver_Destroy,
    theSandbox, Sandbox_SignalContainer, Sandbox_DestroyContainer, IsSandboxRunning,
    requireStatus, SignalContainer, os_Remove, Cgroup_Uninstall, waitForStopped,
    stopInSandbox, stopGofer, stop, setOOMScoreAdj, adjustSandboxOOMScoreAdj,
    executeHooksBestEffort, removeSelfFilestore, forEachSelfMount.

Lemma woundDown_forEachSelfMount_mounts `{Externals} fn confs mounts idx :
  (forall src, stable woundDown (fn src)) ->
  stable woundDown (forEachSelfMount_mounts fn confs mounts idx).
Proof.
  intros Hfn. revert idx.
  induction mounts as [|m rest IH]; intros idx; cbn;
    stable_tac ltac:(first [ woundDown_base | unfold_teardown ]).
Qed.

Ltac woundDown_ops :=
  stable_tac ltac:(first [ woundDown_base | apply woundDown_forEachSelfMount_mounts
                         | unfold_teardown ]).

Lemma woundDown_removeSharedFilestores `{Externals} env sid hints :
  stable woundDown (removeSharedFilestores env sid hints).
Proof. induction hints as [|hint rest IH]; cbn; woundDown_ops. Qed.

#[global] Hint Resolve woundDown_removeSharedFilestores : stable.

Lemma woundDown_destroyLocked `{Externals} env : stable woundDown (destroyLocked env).
Proof. unfold destroyLocked. woundDown_ops. Qed.

Lemma stop_None `{Externals} env st st' :
  stop env st = Ok None st' ->
  Sandbox (self st') = None /\ GoferPid (self st') = 0%Z.
Proof.
  intros Hstop. split; [by apply (stop_drops_sandbox env st)|].
  unfold stop in Hstop. apply bind_Ok_inv in Hstop as (r & st1 & _ & Hrun).
  destruct r as [err|parentCgroup]; [discriminate|].
  rewrite stopGofer_runs in Hrun.
  destruct (_ st1) as [u st2|msg st2]; [|discriminate].
  destruct (waitForStopped env st2) as [[err|] st3|msg st3] eqn:Hwait; try discriminate.
  apply waitForStopped_None in Hwait.
  match type of Hrun with ?m st3 = _ =>
    assert (Hsame : stable sameSelf m) by sameSelf_ops;
    apply (stable_Ok _ _ _ _ _ Hsame) in Hrun
  end.
  unfold sameSelf in Hrun. by rewrite Hrun.
Qed.

Lemma Saver_Destroy_runs `{Externals} env st :
  Saver_Destroy env st =
    match env_SaverDestroy env with
    | Some err => Ok (Some err) st
    | None =>
        Ok None {| self := self st;
                   world := {| fs := fs (world st); saved := None;
                               log := log (world st) ++ [EvSaverDestroy] |} |}
    end.
Proof. unfold Saver_Destroy. by destruct (env_SaverDestroy env). Qed.

Lemma changeStatus_Stopped_runs st :
  changeStatus Stopped st = Ok tt (recorded Stopped st).
Proof. reflexivity. Qed.

(** What destroyLocked has done when it returns. *)
Lemma destroyLocked_returns `{Externals} env st e st' :
  destroyLocked env st = Ok e st' ->
  exists e1 st1 e2 st2,
    stop env st = Ok e1 st1 /\
    Saver_Destroy env st1 = Ok e2 st2 /\
    woundDown st2 st' /\
    Status_ (self st') = Stopped /\
    (e = None -> e1 = None /\ e2 = None).
Proof.
  unfold destroyLocked.
  intros (c & st0 & [= <- <-] & Hrun)%bind_Ok_inv.
  apply bind_Ok_inv in Hrun as (e1 & st1 & Hstop & Hrun).
  apply bind_Ok_inv in Hrun as (e2 & st2 & Hsaver & Hrun).
  exists e1, st1, e2, st2. split; [done|]. split; [done|].
  apply bind_Ok_inv in Hrun as (e3 & st3 & H3 & Hrun).
  apply bind_Ok_inv in Hrun as (e4 & st4 & H4 & Hrun).
  apply bind_Ok_inv in Hrun as (u & st5 & H5 & Hrun).
  assert (Hst5 : Status_ (self st5) = Stopped).
  { rewrite changeStatus_Stopped_runs in H5.
    assert (st5 = recorded Stopped st4) as -> by congruence. done. }
  match type of H3 with ?m st2 = _ =>
    assert (Hs3 : stable woundDown m) by woundDown_ops;
    apply (stable_Ok _ _ _ _ _ Hs3) in H3
  end.
  match type of H4 with ?m st3 = _ =>
    assert (Hs4 : stable woundDown m) by woundDown_ops;
    apply (stable_Ok _ _ _ _ _ Hs4) in H4
  end.
  apply (stable_Ok _ _ _ _ _ (stable_woundDown_changeStatus Stopped)) in H5.
  assert (Htail : woundDown st5 st' /\ (e = None -> e1 = None /\ e2 = None)).
  { split.
    - match type of Hrun with ?m st5 = _ =>
        assert (Hs : stable woundDown m) by woundDown_ops;
        by apply (stable_Ok _ _ _ _ _ Hs) in Hrun
      end.
    - intros ->.
      apply bind_Ok_inv in Hrun as (e5 & st6 & _ & Hrun).
      apply bind_Ok_inv in Hrun as (u' & st7 & _ & Hrun).
      destruct e1 as [err1|]; [discriminate|].
      destruct e2 as [err2|]; [discriminate|]. done. }
  destruct Htail as [Htail Herr]. split; [|split; [|done]].
  - etransitivity; [done|]. etransitivity; [done|]. by etransitivity.
  - by apply Htail.
Qed.

Lemma woundDown_unlock_close `{Externals} env :
  stable woundDown (Saver_UnlockOrDie env;; Saver_close).
Proof. woundDown_ops. Qed.

(** X3. A Destroy that returns nil has torn everything down: the status is
    Stopped, the sandbox reference and the gofer PID are cleared, and the
    state file is removed. *)
Theorem Destroy_success_leaves_nothing `{Externals} (env : Env) (st st' : State) :
  Destroy env st = Ok None st' ->
  Status_ (self st') = Stopped /\
  Sandbox (self st') = None /\
  GoferPid (self st') = 0%Z /\
  saved (world st') = None.
Proof.
  unfold Destroy, orReturn.
  intros (r & st0 & Hlock & Hrun)%bind_Ok_inv.
  destruct r as [err|]; [discriminate|].
  apply defer_Ok_inv in Hrun as (stB & Hbody & Hclean).
  apply (stable_Ok _ _ _ _ _ (woundDown_unlock_close env)) in Hclean
    as (Hsb & Hpid & Hsaved & Hstatus).
  apply destroyLocked_returns in Hbody
    as (e1 & st1 & e2 & st2 & Hstop & Hsaver & (Hsb' & Hpid' & Hsaved' & _) & Hstopped & Herr).
  destruct (Herr eq_refl) as [-> ->].
  apply stop_None in Hstop as [Hnil Hgone].
  rewrite Saver_Destroy_runs in Hsaver.
  destruct (env_SaverDestroy env); [discriminate|]. injection Hsaver as <-.
  cbn in *. repeat split; auto.
Qed.

Lemma Destroy_success_leaves_nothing_witness :
  Destroy (H := test_externals) test_env started_state =
    Ok None (destroyed_state first_destroy_events) /\
  Status_ (self (destroyed_state first_destroy_events)) = Stopped /\
  Sandbox (self (destroyed_state first_destroy_events)) = None /\
  GoferPid (self (destroyed_state first_destroy_events)) = 0%Z /\
  saved (world (destroyed_state first_destroy_events)) = None.
Proof.
  split; [vm_compute; reflexivity|].
  apply (Destroy_success_leaves_nothing (H := test_externals) test_env started_state).
  vm_compute; reflexivity.
Defined.

(** What a Destroy that has taken the lock leaves when it returns. *)
Lemma Destroy_returns_stopped `{Externals} env st e st' :
  env_lock env = None -> Destroy env st = Ok e st' ->
  Status_ (self st') = Stopped /\
  (env_SaverDestroy env = None -> saved (world st') = None).
Proof.
  intros Hlock. unfold Destroy, orReturn.
  intros (r & st0 & Hl & Hrun)%bind_Ok_inv.
  rewrite Saver_lock_runs, Hlock in Hl. injection Hl as <- <-.
  apply defer_Ok_inv in Hrun as (stB & Hbody & Hclean).
  apply (stable_Ok _ _ _ _ _ (woundDown_unlock_close env)) in Hclean
    as (_ & _ & Hsaved & Hstatus).
  apply destroyLocked_returns in Hbody
    as (e1 & st1 & e2 & st2 & Hstop & Hsaver & (_ & _ & Hsaved' & _) & Hstopped & _).
  split; [auto|]. intros Hdestroy.
  rewrite Saver_Destroy_runs, Hdestroy in Hsaver. injection Hsaver as <- <-.
  cbn in *. auto.
Qed.

(** X4. Destroy is best effort. When it cannot take the lock it returns that
    error and touches nothing. Once it has the lock, whatever errors its
    steps meet, a Destroy that returns has recorded the status Stopped, and
    has removed the state file if the removal itself succeeded. *)
Theorem Destroy_stops_whatever_fails `{Externals} (env : Env) (st : State) :
  (forall err, env_lock env = Some err -> Destroy env st = Ok (Some err) st) /\
  (forall e st', env_lock env = None -> Destroy env st = Ok e st' ->
     Status_ (self st') = Stopped /\
     (env_SaverDestroy env = None -> saved (world st') = None)).
Proof.
  split.
  - intros err Hlock. unfold Destroy, orReturn, mbind, M_bind.
    rewrite Saver_lock_runs, Hlock. done.
  - intros e st' Hlock Hrun. by apply (Destroy_returns_stopped env st e st').
Qed.

(** ** The saved record after a successful operation *)

#[global] Instance sameRecord_preorder : PreOrder sameRecord.
Proof.
  split; [done|]. intros st1 st2 st3 [? ?] [? ?]. unfold sameRecord in *.
  split; congruence.
Qed.

Lemma stable_sameRecord_emit (e : Event) : stable sameRecord (emit e).
Proof. by intros st. Qed.

Ltac sameRecord_ops :=
  stable_tac ltac:(first [ apply stable_sameRecord_emit | unfold_operations ]).

Lemma orReturn_None_inv (m k : M error) (st st' : State) :
  orReturn m k st = Ok None st' ->
  exists st1, m st = Ok None st1 /\ k st1 = Ok None st'.
Proof.
  unfold orReturn. intros (r & st1 & Hm & Hk)%bind_Ok_inv.
  destruct r as [err|]; [discriminate|]. by exists st1.
Qed.

Lemma saveLocked_None env st st' :
  saveLocked env st = Ok None st' -> self st' = self st /\ synced st'.
Proof.
  unfold saveLocked, Saver_SaveLocked. destruct (env_SaveLocked env); [discriminate|].
  unfold_monad. cbn. by intros [= <-].
Qed.

Lemma requireStatus_None action statuses st st' :
  requireStatus action statuses st = Ok None st' ->
  st' = st /\ Status_ (self st) ∈ statuses.
Proof.
  unfold requireStatus. unfold_monad. cbn.
  destruct (existsb _ statuses) eqn:Hex; [|discriminate].
  intros [= <-]. split; [done|].
  apply existsb_exists in Hex as (s & Hin & Hs).
  apply bool_decide_eq_true in Hs. rewrite Hs. by apply list_elem_of_In.
Qed.

Lemma changeStatus_Ok s st u st' :
  changeStatus s st = Ok u st' -> st' = recorded s st /\ permitted (Status_ (self st)) s = true.
Proof.
  destruct (changeStatus_cases s st) as [(Hrun & Hp & _)|([msg Hrun] & _)];
    rewrite Hrun; [|discriminate].
  intros Heq. split; [congruence | done].
Qed.

Lemma unlock_sameRecord env : stable sameRecord (Saver_UnlockOrDie env).
Proof. sameRecord_ops. Qed.

Lemma synced_sameRecord st st' : sameRecord st st' -> synced st -> synced st'.
Proof. intros [Hself Hsaved]. unfold synced. by rewrite Hself, Hsaved. Qed.

(** The end of Pause, Resume and startLocked: the status is changed and the
    record is saved. *)
Lemma recorded_and_saved `{Externals} env s st st' :
  (changeStatus s;; saveLocked env) st = Ok None st' ->
  permitted (Status_ (self st)) s = true /\ Status_ (self st') = s /\ synced st'.
Proof.
  intros (u & st1 & Hchange & Hsave)%bind_Ok_inv.
  apply changeStatus_Ok in Hchange as [-> Hp].
  apply saveLocked_None in Hsave as [Hself Hsync].
  split; [done|]. split; [by rewrite Hself | done].
Qed.

Lemma startImpl_saves `{Externals} env conf action startRoot startSub st st' :
  startImpl env conf action startRoot startSub st = Ok None st' ->
  Status_ (self st) = Created /\ Status_ (self st') = Running /\ synced st'.
Proof.
  unfold startImpl.
  intros (st0 & Hlock & Hrun)%orReturn_None_inv.
  rewrite Saver_lock_runs in Hlock. destruct (env_lock env); [discriminate|].
  injection Hlock as <-.
  apply orReturn_None_inv in Hrun as (st1 & Hlocked & Hrest).
  apply defer_Ok_inv in Hlocked as (stB & Hbody & Hclean).
  unfold startLocked in Hbody.
  apply orReturn_None_inv in Hbody as (st2 & Hreq & Hbody).
  apply requireStatus_None in Hreq as [-> Hcreated].
  apply list_elem_of_singleton in Hcreated. cbn in Hcreated.
  apply bind_Ok_inv in Hbody as (c & st3 & [= <- <-] & Hbody).
  apply orReturn_None_inv in Hbody as (st4 & _ & Hbody).
  apply bind_Ok_inv in Hbody as (c' & st5 & [= <- <-] & Hbody).
  apply bind_Ok_inv in Hbody as (u & st6 & _ & Hbody).
  apply recorded_and_saved in Hbody as (_ & Hrunning & Hsync).
  apply (stable_Ok _ _ _ _ _ (unlock_sameRecord env)) in Hclean.
  match type of Hrest with ?m st1 = _ =>
    assert (Hs : stable sameRecord m) by sameRecord_ops;
    apply (stable_Ok _ _ _ _ _ Hs) in Hrest
  end.
  assert (Hall : sameRecord stB st') by (by etransitivity).
  split; [done|]. split.
  - destruct Hall as [-> _]. done.
  - by apply (synced_sameRecord stB).
Qed.

(** X5. When Pause, Resume, Start or Restore returns nil, the status has
    moved as the operation says (Running to Paused, Paused to Running,
    Created to Running) and the state file holds the record of the container
    as it is in memory. *)
Theorem successful_operations_are_saved `{Externals}
    (env : Env) (conf : config.Config) (st st' : State) :
  (Pause env st = Ok None st' ->
   Status_ (self st) = Running /\ Status_ (self st') = Paused /\ synced st') /\
  (Resume env st = Ok None st' ->
   Status_ (self st) = Paused /\ Status_ (self st') = Running /\ synced st') /\
  (Start env conf st = Ok None st' ->
   Status_ (self st) = Created /\ Status_ (self st') = Running /\ synced st') /\
  (Restore env conf st = Ok None st' ->
   Status_ (self st) = Created /\ Status_ (self st') = Running /\ synced st').
Proof.
  split; [|split; [|split]]; [| |apply startImpl_saves..].
  - unfold Pause. intros (st0 & Hlock & Hrun)%orReturn_None_inv.
    rewrite Saver_lock_runs in Hlock. destruct (env_lock env); [discriminate|].
    injection Hlock as <-.
    apply defer_Ok_inv in Hrun as (stB & Hbody & Hclean).
    apply (stable_Ok _ _ _ _ _ (unlock_sameRecord env)) in Hclean.
    apply bind_Ok_inv in Hbody as (c & st1 & [= <- <-] & Hbody).
    destruct (_ && _); [discriminate|].
    apply bind_Ok_inv in Hbody as (r & st2 & Hrpc & Hbody).
    destruct r as [err|]; [discriminate|].
    match type of Hrpc with ?m _ = _ =>
      assert (Hs : stable sameSelf m) by sameSelf_ops;
      apply (stable_Ok _ _ _ _ _ Hs) in Hrpc
    end.
    apply recorded_and_saved in Hbody as (Hp & Hpaused & Hsync).
    rewrite Hrpc in Hp. cbn in Hp.
    split; [by destruct (Status_ (self st))|].
    split; [by destruct Hclean as [-> _] | by apply (synced_sameRecord stB)].
  - unfold Resume. intros (st0 & Hlock & Hrun)%orReturn_None_inv.
    rewrite Saver_lock_runs in Hlock. destruct (env_lock env); [discriminate|].
    injection Hlock as <-.
    apply defer_Ok_inv in Hrun as (stB & Hbody & Hclean).
    apply (stable_Ok _ _ _ _ _ (unlock_sameRecord env)) in Hclean.
    apply bind_Ok_inv in Hbody as (c & st1 & [= <- <-] & Hbody).
    cbn in Hbody. case_bool_decide as Hpaused; [discriminate|].
    apply bind_Ok_inv in Hbody as (r & st2 & Hrpc & Hbody).
    destruct r as [err|]; [discriminate|].
    apply recorded_and_saved in Hbody as (_ & Hrunning & Hsync).
    split; [done|].
    split; [by destruct Hclean as [-> _] | by apply (synced_sameRecord stB)].
Qed.

(** ** Operations that are refused *)

Lemma startImpl_refused `{Externals} env conf action startRoot startSub st :
  env_lock env = None -> env_unlock env = None ->
  Status_ (self st) ≠ Created ->
  exists msg,
    startImpl env conf action startRoot startSub st = Ok (Some msg) (lockedAndReleased st).
Proof.
  intros Hlock Hunlock Hs. destruct st as [c w].
  unfold startImpl, startLocked, orReturn, defer, requireStatus, Saver_lock, Saver_UnlockOrDie.
  rewrite Hlock, Hunlock. unfold_monad. cbn in *.
  rewrite bool_decide_eq_false_2 by done. cbn.
  eexists. unfold lockedAndReleased, logged. cbn. by rewrite <- app_assoc.
Qed.

(** X6. Resume of a container that is not paused, and Start or Restore of a
    container that is not created, return an error; the lock is taken and
    released and nothing else happens: the sandbox is not called, and the
    record and the state file are as before. *)
Theorem refused_operations_change_nothing `{Externals}
    (env : Env) (conf : config.Config) (st : State) :
  env_lock env = None -> env_unlock env = None ->
  (Status_ (self st) ≠ Paused ->
   exists msg, Resume env st = Ok (Some msg) (lockedAndReleased st)) /\
  (Status_ (self st) ≠ Created ->
   (exists msg, Start env conf st = Ok (Some msg) (lockedAndReleased st)) /\
   (exists msg, Restore env conf st = Ok (Some msg) (lockedAndReleased st))).
Proof.
  intros Hlock Hunlock. split.
  - intros Hs. destruct st as [c w].
    unfold Resume, orReturn, defer, Saver_lock, Saver_UnlockOrDie.
    rewrite Hlock, Hunlock. unfold_monad. cbn in *.
    rewrite bool_decide_eq_true_2 by done. cbn.
    eexists. unfold lockedAndReleased, logged. cbn. by rewrite <- app_assoc.
  - intros Hs. split; by apply startImpl_refused.
Qed.

Lemma refused_operations_change_nothing_witness :
  (exists msg, Resume test_env (test_state Running) =
               Ok (Some msg) (lockedAndReleased (test_state Running))) /\
  (exists msg, Start (H := test_externals) test_env no_flags (test_state Running) =
               Ok (Some msg) (lockedAndReleased (test_state Running))) /\
  (exists msg, Restore (H := test_externals) test_env no_flags (test_state Running) =
               Ok (Some msg) (lockedAndReleased (test_state Running))).
Proof.
  destruct (refused_operations_change_nothing (H := test_externals) test_env no_flags
              (test_state Running) eq_refl eq_refl) as [Hresume Hstart].
  split; [apply Hresume; discriminate | apply Hstart; discriminate].
Defined.

(** ** CheckStopped *)

(** X7. CheckStopped asks the sentry for the state of the container once.
    It records Stopped, in memory only, when the sentry answers that the
    container has stopped, or when the sentry cannot be asked and the
    sandbox process is not running; otherwise the record stays as it is. It
    takes no lock and does not save, and it checks no transition: Stopped is
    recorded from any status. Without a sandbox reference it panics. *)
Theorem CheckStopped_follows_the_sentry `{Externals} (env : Env) (st : State) :
  (forall sb, Sandbox (self st) = Some sb ->
     CheckStopped env st =
       Ok tt {| self := if foundStopped env then set_Status Stopped (self st) else self st;
                world := logged [EvSandboxContainerRuntimeState (ID (self st))] (world st) |}) /\
  (Sandbox (self st) = None -> exists msg, CheckStopped env st = Panic msg st).
Proof.
  destruct st as [c w]. split.
  - intros sb Hsb. unfold CheckStopped, foundStopped, Sandbox_ContainerRuntimeState,
      theSandbox, IsSandboxRunning, changeStatus.
    unfold_monad. cbn in *. rewrite Hsb. cbn.
    destruct (env_SandboxContainerRuntimeState env) as [state [err|]]; cbn.
    + rewrite Hsb. rewrite bool_decide_eq_true_2 by done. cbn.
      by destruct (env_SandboxIsRunning env).
    + by case_bool_decide.
  - intros Hsb. unfold CheckStopped, Sandbox_ContainerRuntimeState, theSandbox.
    unfold_monad. cbn in *. rewrite Hsb. by eexists.
Qed.

(** ** Cleaning up after planning *)

Lemma initGoferConfs_planned `{Externals} ovlConf hints rootfsHint st st' :
  initGoferConfs ovlConf hints rootfsHint st = Ok None st' ->
  exists rootConf subConfs,
    st' = appended (rootConf :: subConfs) st /\
    length subConfs = length (List.filter IsGoferMount (specs.Mounts (Spec (self st)))).
Proof.
  unfold initGoferConfs. unfold mbind at 1. unfold M_bind at 1. unfold getc at 1.
  destruct (match rootfsHint with
            | Some hint =>
                (boot.Overlay hint,
                 if negb (IsGoferMount (boot.RMount hint))
                 then specs.Type' (boot.RMount hint) else boot.Bind,
                 boot.RSize hint)
            | None => (config.RootOverlayMedium ovlConf, boot.Bind,
                       config.RootOverlaySize ovlConf)
            end) as [[medium mountType] size].
  match goal with
  | |- context [createGoferConf ?md ?sz ?ty ?src] =>
      destruct (createGoferConf_inv md sz ty src st) as (r & Hr & _)
  end.
  unfold mbind at 1. unfold M_bind at 1. rewrite Hr.
  destruct r as [err|g]; [unfold_monad; discriminate|].
  unfold appendGoferConf. unfold_monad. cbn.
  intros Hrest. apply initGoferConfs_mounts_inv in Hrest as (subConfs & -> & Hall).
  cbn in Hall. exists g, subConfs. split.
  - change {| self := set_GoferMountConfs (GoferMountConfs (self st) ++ [g]) (self st);
              world := world st |} with (appended [g] st).
    by rewrite appended_app.
  - symmetry. by apply Forall2_length in Hall.
Qed.

(** The loop of forEachSelfMount stays within the configurations when there
    is one for each gofer mount still to visit. *)
Lemma forEachSelfMount_mounts_returns `{Externals} fn confs mounts idx st :
  (forall src st, exists errs st', fn src st = Ok errs st') ->
  idx + length (List.filter IsGoferMount mounts) <= length confs ->
  exists errs st', forEachSelfMount_mounts fn confs mounts idx st = Ok errs st'.
Proof.
  intros Hfn. revert idx st.
  induction mounts as [|m rest IH]; intros idx st Hlen; cbn in *.
  - by do 2 eexists.
  - destruct (IsGoferMount m); cbn in *; [|by apply IH].
    destruct (confs !! idx) as [g|] eqn:Hg.
    2:{ apply lookup_ge_None in Hg. lia. }
    unfold mbind, M_bind.
    destruct (boot.IsSelfBacked g).
    + destruct (Hfn (specs.Source m) st) as (e & st1 & ->).
      destruct (IH (S idx) st1 ltac:(lia)) as (es & st2 & Hrest).
      unfold mbind, M_bind in Hrest. rewrite Hrest. by do 2 eexists.
    + cbn. destruct (IH (S idx) st ltac:(lia)) as (es & st2 & Hrest).
      unfold mbind, M_bind in Hrest. rewrite Hrest. by do 2 eexists.
Qed.

Lemma removeSelfFilestore_returns `{Externals} env sb src st :
  exists errs st', removeSelfFilestore env sb src st = Ok errs st'.
Proof.
  unfold removeSelfFilestore, os_Remove. destruct (sharedBySandbox sb src); [by do 2 eexists|].
  unfold_monad. cbn.
  destruct (fs (world st) !! _); [|by do 2 eexists].
  destruct (env_Remove env _); by do 2 eexists.
Qed.

(** X8. After a mount plan that succeeded, the removal of the self-backed
    filestores that Destroy performs stays within the planned
    configurations: as long as the plan and the mounts of the spec are the
    ones of the planning, forEachSelfMount returns, with the errors of the
    removals, and never indexes past the configurations. *)
Theorem cleanup_after_plan_returns `{Externals} (env : Env) (ovlConf : config.Overlay2)
    (hints : boot.PodMountHints) (rootfsHint : option boot.RootfsHint)
    (sb : option sandbox.Sandbox) (st st1 st2 : State) :
  GoferMountConfs (self st) = [] ->
  initGoferConfs ovlConf hints rootfsHint st = Ok None st1 ->
  GoferMountConfs (self st2) = GoferMountConfs (self st1) ->
  specs.Mounts (Spec (self st2)) = specs.Mounts (Spec (self st)) ->
  exists errs st3, forEachSelfMount (removeSelfFilestore env sb) st2 = Ok errs st3.
Proof.
  intros Hempty Hplan Hconfs Hmounts.
  apply initGoferConfs_planned in Hplan as (rootConf & subConfs & -> & Hlen).
  cbn in Hconfs. rewrite Hempty in Hconfs. cbn in Hconfs.
  unfold forEachSelfMount. unfold mbind, M_bind, getc.
  rewrite Hconfs, Hmounts.
  assert (Hrest : forall st3, exists es st4,
            forEachSelfMount_mounts (removeSelfFilestore env sb) (rootConf :: subConfs)
              (specs.Mounts (Spec (self st))) 1 st3 = Ok es st4).
  { intros st3. apply forEachSelfMount_mounts_returns;
      [apply removeSelfFilestore_returns | cbn; lia]. }
  destruct (boot.IsSelfBacked rootConf).
  - destruct (removeSelfFilestore_returns env sb
                (specs.Path (specs.Root (Spec (self st2)))) st2) as (e & st3 & ->).
    destruct (Hrest st3) as (es & st4 & ->). by do 2 eexists.
  - cbn. destruct (Hrest st2) as (es & st4 & ->). by do 2 eexists.
Qed.

Lemma cleanup_after_plan_returns_witness :
  exists errs st3,
    forEachSelfMount (H := test_externals) (removeSelfFilestore (H := test_externals) test_env None)
      (final (initGoferConfs (H := test_externals) planning_overlay planning_hints None
                planning_state)) = Ok errs st3.
Proof.
  apply (cleanup_after_plan_returns (H := test_externals) test_env planning_overlay
           planning_hints None None planning_state
           (final (initGoferConfs (H := test_externals) planning_overlay planning_hints None
                     planning_state)));
    vm_compute; reflexivity.
Defined.

(** ** The lifecycle service of the sentry *)

Section lifecycle_service.
Import config.
Import control.

Lemma updateContainerState_stopped cid l c :
  containerMap l !! cid = Some c ->
  updateContainerState cid (containerState_int stateStopped) l =
    Returned (None, store cid (set_state stateStopped c) l).
Proof. intros Hc. unfold updateContainerState. rewrite Hc. reflexivity. Qed.

Lemma serve_populated rpc l :
  populated l ->
  exists l', serve rpc l = Returned l' /\ populated l'.
Proof.
  intros Hp. destruct rpc as [created args|exitStatus cid|cid|kenv args| |]; cbn.
  - unfold StartContainer. case_bool_decide; [by eexists|].
    destruct created as [err|t]; [by eexists|].
    unfold updateContainerState. cbn. rewrite lookup_insert_eq. cbn.
    eexists; split; [reflexivity|].
    intros cid' c'. cbn. rewrite insert_insert_eq.
    destruct (decide (StartContainerID args = cid')) as [->|Hne].
    + rewrite lookup_insert_eq. by intros [= <-].
    + rewrite lookup_insert_ne by done. apply Hp.
  - unfold WaitContainer, getInitContainerProcess.
    destruct (containerMap l !! cid) as [c|] eqn:Hc; [|by eexists].
    destruct (tg c) as [t|] eqn:Ht; [|by apply Hp in Hc].
    rewrite (updateContainerState_stopped _ _ _ Hc).
    eexists; split; [reflexivity|].
    intros cid' c'. cbn.
    destruct (decide (cid = cid')) as [->|Hne].
    + rewrite lookup_insert_eq. intros [= <-]. cbn. by rewrite Ht.
    + rewrite lookup_insert_ne by done. apply Hp.
  - unfold IsContainerRunning.
    destruct (containerMap l !! cid) as [c|] eqn:Hc; [|by eexists].
    case_bool_decide; [by eexists|].
    destruct (tg c) as [t|] eqn:Ht; [|by apply Hp in Hc].
    case_bool_decide; [|by eexists].
    eexists; split; [reflexivity|].
    intros cid' c'. cbn.
    destruct (decide (cid = cid')) as [->|Hne].
    + rewrite lookup_insert_eq. intros [= <-]. cbn. by rewrite Ht.
    + rewrite lookup_insert_ne by done. apply Hp.
  - eexists; split; [reflexivity|].
    unfold SignalContainer, getInitContainerProcess.
    destruct (containerMap l !! ContainerID args) as [c|]; [|done].
    destruct (negb _); [done|]. destruct (negb _).
    + destruct (tg c); done.
    + done.
  - by eexists.
  - by eexists.
Qed.

(** X9. Served one after the other, the RPCs of the lifecycle service never
    reach a panic of its bookkeeping. From a sentry that has started no
    container, any sequence of StartContainer, WaitContainer,
    IsContainerRunning, SignalContainer, Pause and Resume returns: no state
    transition is refused by updateContainerState and no nil thread group is
    dereferenced, because every registered container has its init thread
    group and is registered anew, as created, by each StartContainer. *)
Theorem lifecycle_rpcs_never_panic (rpcs : list Rpc) :
  exists l, serveAll rpcs newLifecycle = Returned l /\ populated l.
Proof.
  assert (Hgen : forall l0, populated l0 ->
            exists l, serveAll rpcs l0 = Returned l /\ populated l).
  { induction rpcs as [|rpc rest IH]; intros l0 Hp; cbn.
    - by eexists.
    - destruct (serve_populated rpc l0 Hp) as (l1 & -> & Hp1). by apply IH. }
  apply Hgen. intros cid c. unfold newLifecycle. cbn. by rewrite lookup_empty.
Qed.


Lemma SignalContainer_refused kenv args l :
  stateOf (ContainerID args) l ≠ Some stateRunning ->
  exists msg, SignalContainer kenv args l = (Some msg, l).
Proof.
  unfold stateOf, SignalContainer, getInitContainerProcess.
  destruct (containerMap l !! ContainerID args) as [c|]; cbn; [|by eexists].
  intros Hs. rewrite bool_decide_eq_false_2 by congruence. by eexists.
Qed.

(** X10. When WaitContainer returns nil, the container is recorded as
    stopped; the other containers and the calls made to the kernel are as
    before. From then on SignalContainer refuses the container, with an
    error and without a call to the kernel, and IsContainerRunning leaves
    the answer of its caller untouched. *)
Theorem WaitContainer_marks_stopped exitStatus cid l ws l' :
  WaitContainer exitStatus cid l = Returned (None, ws, l') ->
  stateOf cid l' = Some stateStopped /\
  (forall cid', cid' ≠ cid -> containerMap l' !! cid' = containerMap l !! cid') /\
  kernelCalls l' = kernelCalls l /\
  (forall kenv args, ContainerID args = cid ->
     exists msg, SignalContainer kenv args l' = (Some msg, l')) /\
  (forall isRunning, IsContainerRunning cid isRunning l' = Returned (None, isRunning, l')).
Proof.
  unfold WaitContainer, getInitContainerProcess.
  destruct (containerMap l !! cid) as [c|] eqn:Hc; [|done].
  destruct (tg c) as [t|]; [|done].
  rewrite (updateContainerState_stopped _ _ _ Hc). intros [= <- <-].
  assert (Hs : stateOf cid (store cid (set_state stateStopped c) l) = Some stateStopped).
  { unfold stateOf, store. cbn. by rewrite lookup_insert_eq. }
  split; [done|]. split; [|split; [done|split]].
  - intros cid' Hne. cbn. by rewrite lookup_insert_ne.
  - intros kenv args <-. apply SignalContainer_refused. by rewrite Hs.
  - intros b. unfold IsContainerRunning. cbn. rewrite lookup_insert_eq. cbn.
    by rewrite bool_decide_eq_true_2.
Qed.

Lemma serve_advances rpc l l' cid s :
  starts cid rpc = false ->
  stateOf cid l = Some s ->
  serve rpc l = Returned l' ->
  exists s', stateOf cid l' = Some s' /\ advanced s s'.
Proof.
  intros Hstart Hs. unfold stateOf in *.
  destruct (containerMap l !! cid) as [c0|] eqn:Hc0; [|done]. cbn in Hs.
  injection Hs as <-.
  assert (Hstay : exists s', state <$> containerMap l !! cid = Some s' /\
                             advanced (state c0) s').
  { exists (state c0). rewrite Hc0. split; [done|]. unfold advanced. lia. }
  assert (Hstore : forall cid' c, containerMap l !! cid' = Some c ->
            forall s, (cid' = cid -> advanced (state c0) s) ->
            exists s', state <$> containerMap (store cid' (set_state s c) l) !! cid = Some s' /\
                       advanced (state c0) s').
  { intros cid' c Hc s Hadv. cbn.
    destruct (decide (cid' = cid)) as [->|Hne].
    - rewrite lookup_insert_eq. cbn. eauto.
    - rewrite lookup_insert_ne by done. done. }
  destruct rpc as [created args|exitStatus cid'|cid'|kenv args| |]; cbn in *.
  - apply bool_decide_eq_false in Hstart.
    unfold StartContainer. case_bool_decide; [by intros [= <-]|].
    destruct created as [err|t]; [by intros [= <-]|].
    unfold updateContainerState. cbn. rewrite lookup_insert_eq. cbn.
    intros [= <-]. cbn. rewrite insert_insert_eq.
    rewrite lookup_insert_ne by done. done.
  - unfold WaitContainer, getInitContainerProcess.
    destruct (containerMap l !! cid') as [c|] eqn:Hc; [|by intros [= <-]].
    destruct (tg c) as [t|]; [|done].
    rewrite (updateContainerState_stopped _ _ _ Hc). intros [= <-].
    apply Hstore; [done|]. intros _. unfold advanced. destruct (state c0); cbn; lia.
  - unfold IsContainerRunning.
    destruct (containerMap l !! cid') as [c|] eqn:Hc; [|by intros [= <-]].
    case_bool_decide; [by intros [= <-]|].
    destruct (tg c) as [t|]; [|done].
    case_bool_decide; [|by intros [= <-]].
    intros [= <-]. apply Hstore; [done|].
    intros _. unfold advanced. destruct (state c0); cbn; lia.
  - intros [= <-]. unfold SignalContainer, getInitContainerProcess.
    destruct (containerMap l !! ContainerID args) as [c|]; [|done].
    destruct (negb _); [done|]. destruct (negb _); [destruct (tg c)|]; done.
  - by intros [= <-].
  - by intros [= <-].
Qed.

(** X11. The state of a registered container only advances. Whatever RPCs
    are served, as long as none starts a container under the same id again,
    the container stays registered and its state never goes back: from
    created to running to stopped. *)
Theorem container_state_only_advances rpcs l l' cid s :
  forallb (fun rpc => negb (starts cid rpc)) rpcs = true ->
  stateOf cid l = Some s ->
  serveAll rpcs l = Returned l' ->
  exists s', stateOf cid l' = Some s' /\ advanced s s'.
Proof.
  revert l s. induction rpcs as [|rpc rest IH]; intros l s Hno Hs; cbn.
  - intros [= <-]. exists s. split; [done|]. unfold advanced. lia.
  - cbn in Hno. apply andb_true_iff in Hno as [Hrpc Hrest].
    apply negb_true_iff in Hrpc.
    destruct (serve rpc l) as [l1|] eqn:Hserve; [|done].
    destruct (serve_advances _ _ _ _ _ Hrpc Hs Hserve) as (s1 & Hs1 & Hadv1).
    intros Hall. destruct (IH _ _ Hrest Hs1 Hall) as (s' & Hs' & Hadv').
    exists s'. split; [done|]. unfold advanced in *. lia.
Qed.

End lifecycle_service.

Lemma WaitContainer_marks_stopped_witness :
  control.WaitContainer (fun _ => 0%Z) "c1" running_lifecycle =
    config.Returned (None, Some 0%Z, stopped_lifecycle []) /\
  stateOf "c1" (stopped_lifecycle []) = Some control.stateStopped /\
  control.kernelCalls (stopped_lifecycle []) = control.kernelCalls running_lifecycle.
Proof.
  assert (Hrun : control.WaitContainer (fun _ => 0%Z) "c1" running_lifecycle =
                 config.Returned (None, Some 0%Z, stopped_lifecycle []))
    by (vm_compute; reflexivity).
  split; [exact Hrun|].
  destruct (WaitContainer_marks_stopped _ _ _ _ _ Hrun) as (Hstate & _ & Hcalls & _).
  split; [exact Hstate | exact Hcalls].
Defined.

Lemma container_state_only_advances_witness :
  serveAll test_rpcs running_lifecycle =
    config.Returned (stopped_lifecycle [control.KPause; control.KUnpause]) /\
  exists s', stateOf "c1" (stopped_lifecycle [control.KPause; control.KUnpause]) = Some s' /\
             advanced control.stateRunning s'.
Proof.
  assert (Hrun : serveAll test_rpcs running_lifecycle =
                 config.Returned (stopped_lifecycle [control.KPause; control.KUnpause]))
    by (vm_compute; reflexivity).
  split; [exact Hrun|].
  apply (container_state_only_advances test_rpcs running_lifecycle _ "c1" control.stateRunning);
    [reflexivity | reflexivity | exact Hrun].
Defined.

(** ** The do and wait commands *)

Section commands.
Import specs.
Import cmd.

Lemma append_String c a b : String c a +:+ b = String c (a +:+ b).
Proof. reflexivity. Qed.

Lemma append_empty b : "" +:+ b = b.
Proof. reflexivity. Qed.

Lemma Split_without s sep : without sep s -> Split s sep = [s].
Proof.
  induction s as [|c s IH]; cbn; [done|]. intros [Hc Hs].
  rewrite bool_decide_eq_false_2 by done. by rewrite IH.
Qed.

Lemma Split_cons s sep : exists x xs, Split s sep = x :: xs.
Proof.
  induction s as [|c s (x & xs & IH)]; cbn; [by eexists _, _|].
  case_bool_decide; [by eexists _, _|]. rewrite IH. by eexists _, _.
Qed.

Lemma Split_app a b sep :
  without sep a -> Split (a +:+ String sep b) sep = a :: Split b sep.
Proof.
  induction a as [|c a IH]; cbn.
  - intros _. rewrite append_empty. cbn. by rewrite bool_decide_eq_true_2.
  - intros [Hc Ha]. rewrite append_String. cbn.
    rewrite bool_decide_eq_false_2 by done. by rewrite IH.
Qed.

Lemma Split_app_sep a b sep :
  without sep a -> Split (a +:+ String sep "" +:+ b) sep = a :: Split b sep.
Proof. apply Split_app. Qed.

Lemma Split_Join xs sep :
  xs ≠ [] -> Forall (without sep) xs ->
  Split (container.Join xs (String sep "")) sep = xs.
Proof.
  induction xs as [|x xs IH]; [done|]. intros _ Hall.
  apply Forall_cons in Hall as [Hx Hxs].
  destruct xs as [|y ys]; [by apply Split_without|].
  change (container.Join (x :: y :: ys) (String sep ""))
    with (x +:+ String sep "" +:+ container.Join (y :: ys) (String sep "")).
  change (x +:+ String sep "" +:+ container.Join (y :: ys) (String sep ""))
    with (x +:+ String sep (container.Join (y :: ys) (String sep ""))).
  rewrite Split_app by done. by rewrite IH.
Qed.


Lemma append_empty_r (a : string) : a +:+ "" = a.
Proof. induction a as [|x a IH]; [done|]. rewrite append_String. by rewrite IH. Qed.

Lemma append_assoc' (a b c : string) : (a +:+ b) +:+ c = a +:+ (b +:+ c).
Proof. induction a as [|x a IH]; [done|]. rewrite !append_String. by rewrite IH. Qed.

Lemma pretty_N_go_app x s : pretty_N_go x s = pretty_N_go x "" +:+ s.
Proof.
  revert s. induction (N.lt_wf_0 x) as [x _ IH]; intros s.
  destruct (decide (x = 0%N)) as [->|Hx]; [by rewrite !pretty_N_go_0|].
  rewrite (pretty_N_go_step x s), (pretty_N_go_step x "") by lia.
  assert (Hlt : (x `div` 10 < x)%N) by (apply N.div_lt; lia).
  rewrite (IH _ Hlt (String (pretty_N_char (x `mod` 10)) s)).
  rewrite (IH _ Hlt (String (pretty_N_char (x `mod` 10)) "")).
  by rewrite append_assoc'.
Qed.

Lemma digit_pretty_N_char d :
  (d < 10)%N -> digit (pretty_N_char d) = Some (Z.of_N d).
Proof.
  intros Hd.
  assert (d = 0 \/ d = 1 \/ d = 2 \/ d = 3 \/ d = 4 \/ d = 5 \/ d = 6 \/ d = 7 \/
          d = 8 \/ d = 9)%N as Hcases by lia.
  repeat (destruct Hcases as [->|Hcases]; [reflexivity|]). by subst.
Qed.

Lemma numeric_app a b : numeric a -> numeric b -> numeric (a +:+ b).
Proof.
  induction a as [|c a IH]; [done|]. rewrite append_String. cbn.
  intros [Hc Ha] Hb. auto.
Qed.

Lemma numeric_pretty_N_go x : numeric (pretty_N_go x "").
Proof.
  induction (N.lt_wf_0 x) as [x _ IH].
  destruct (decide (x = 0%N)) as [->|Hx]; [done|].
  rewrite pretty_N_go_step, pretty_N_go_app by lia.
  apply numeric_app; [apply IH, N.div_lt; lia|].
  cbn. split; [|done]. rewrite digit_pretty_N_char; [done|]. apply N.mod_lt. lia.
Qed.

Lemma pretty_N_go_nonempty x : (0 < x)%N -> pretty_N_go x "" ≠ "".
Proof.
  intros Hx. rewrite pretty_N_go_step, pretty_N_go_app by done.
  by destruct (pretty_N_go (x `div` 10) "").
Qed.

Lemma ParseUint_scan_app a b n :
  ParseUint_scan (a +:+ b) n =
    match ParseUint_scan a n with
    | Number m => ParseUint_scan b m
    | e => e
    end.
Proof.
  revert n. induction a as [|c a IH]; intros n; [done|].
  rewrite append_String. cbn. destruct (digit c); [|done].
  repeat case_bool_decide; done.
Qed.

Lemma ParseUint_scan_pretty_N_go x :
  (x < 2 ^ 64)%N -> ParseUint_scan (pretty_N_go x "") 0 = Number (Z.of_N x).
Proof.
  induction (N.lt_wf_0 x) as [x _ IH]. intros Hx.
  destruct (decide (x = 0%N)) as [->|Hx0]; [done|].
  rewrite pretty_N_go_step, pretty_N_go_app by lia.
  rewrite ParseUint_scan_app.
  assert (Hdiv : (x `div` 10 < x)%N) by (apply N.div_lt; lia).
  rewrite IH by (done || lia). cbn.
  rewrite digit_pretty_N_char by (apply N.mod_lt; lia).
  pose proof (N.div_mod x 10 ltac:(lia)) as Hdm.
  pose proof (N.mod_lt x 10 ltac:(lia)) as Hmod.
  assert (Hz : (Z.of_N (x `div` 10) * 10 + Z.of_N (x `mod` 10) = Z.of_N x)%Z).
  { rewrite Hdm at 3. rewrite N2Z.inj_add, N2Z.inj_mul. ring. }
  rewrite Hz.
  change (2 ^ 64)%N with 18446744073709551616%N in Hx.
  assert (Hbound : (Z.of_N x <= 18446744073709551615)%Z) by (clear -Hx; lia).
  assert (Hprefix : (Z.of_N (x `div` 10) <= 1844674407370955161)%Z).
  { clear -Hbound Hz Hmod. set (q := Z.of_N (x `div` 10)) in *.
    set (r := Z.of_N (x `mod` 10)) in *.
    assert (0 <= r)%Z by (subst r; apply N2Z.is_nonneg). lia. }
  rewrite bool_decide_eq_false_2.
  2:{ change ((2 ^ 64 - 1) / 10 + 1)%Z with 1844674407370955162%Z. clear -Hprefix. lia. }
  rewrite bool_decide_eq_false_2; [done|].
  change (2 ^ 64 - 1)%Z with 18446744073709551615%Z. clear -Hbound. lia.
Qed.

(** fmt's [%d] of a number that is not negative is a string of digits, and
    strconv.Atoi reads the number back. *)
Lemma pretty_numeric z : (0 <= z)%Z -> numeric (pretty z) /\ pretty z ≠ "".
Proof.
  destruct z as [|p|p]; [done| |lia]. intros _.
  unfold pretty, pretty_Z, pretty, pretty_positive, pretty, pretty_N.
  rewrite decide_False by done. split.
  - apply numeric_pretty_N_go.
  - by apply pretty_N_go_nonempty.
Qed.

Lemma Atoi_numeric s n :
  numeric s -> s ≠ "" -> ParseUint_scan s 0 = Number n -> (n < 2 ^ 63)%Z ->
  Atoi s = inr n.
Proof.
  intros Hnum Hne Hscan Hn. destruct s as [|c s]; [done|].
  destruct Hnum as [Hc _]. unfold Atoi.
  assert (c ≠ "-"%char) by (intros ->; by apply Hc).
  assert (c ≠ "+"%char) by (intros ->; by apply Hc).
  rewrite !bool_decide_eq_false_2 by done. rewrite Hscan.
  by rewrite bool_decide_eq_false_2 by lia.
Qed.

Lemma Atoi_pretty z : (0 <= z < 2 ^ 63)%Z -> Atoi (pretty z) = inr z.
Proof.
  intros [Hlo Hhi]. destruct (pretty_numeric z Hlo) as [Hnum Hne].
  apply Atoi_numeric; [done..| |done].
  destruct z as [|p|p]; [done| |lia].
  unfold pretty, pretty_Z, pretty, pretty_positive, pretty, pretty_N.
  rewrite decide_False by done.
  rewrite ParseUint_scan_pretty_N_go; [done|].
  change (2 ^ 64)%N with 18446744073709551616%N.
  change (2 ^ 63)%Z with 9223372036854775808%Z in Hhi. lia.
Qed.


Lemma spaceWidth_digit c rest : digit c ≠ None -> spaceWidth (String c rest) = 0.
Proof.
  unfold digit, spaceWidth. case_bool_decide as Hd; [|done]. intros _.
  rewrite !bool_decide_eq_false_2 by lia. cbn.
  destruct rest as [|c1 [|c2 rest]]; cbn; [done| |];
    rewrite ?bool_decide_eq_false_2 by lia; done.
Qed.

(** A field of digits is read to its end. *)
Lemma Fields_scan_numeric a rest cur :
  numeric a ->
  a ≠ "" ->
  Fields_scan (a +:+ rest) 0 cur =
    Fields_scan rest 0 (Some (match cur with Some f => f +:+ a | None => a end)).
Proof.
  revert cur. induction a as [|c a IH]; intros cur Hnum Hne; [done|].
  destruct Hnum as [Hc Ha]. rewrite append_String.
  change (Fields_scan (String c (a +:+ rest)) 0 cur) with
    (match spaceWidth (String c (a +:+ rest)) with
     | 0 =>
         Fields_scan (a +:+ rest) 0
           (Some (match cur with Some f => f +:+ String c "" | None => String c "" end))
     | S w =>
         match cur with
         | Some f => f :: Fields_scan (a +:+ rest) w None
         | None => Fields_scan (a +:+ rest) w None
         end
     end).
  rewrite spaceWidth_digit by done.
  destruct a as [|c' a'].
  - rewrite append_empty. destruct cur; done.
  - rewrite IH by done. destruct cur as [f|]; [|done].
    by rewrite append_assoc'.
Qed.

Lemma Fields_scan_space rest f :
  Fields_scan (String " " rest) 0 (Some f) = f :: Fields_scan rest 0 None.
Proof. reflexivity. Qed.

Lemma Fields_formatMapping m :
  (0 <= ContainerID m)%Z -> (0 <= HostID m)%Z -> (0 <= Size m)%Z ->
  Fields (formatMapping m) = [pretty (ContainerID m); pretty (HostID m); pretty (Size m)].
Proof.
  intros Hc Hh Hs. unfold Fields, formatMapping.
  destruct (pretty_numeric _ Hc) as [Hc1 Hc2].
  destruct (pretty_numeric _ Hh) as [Hh1 Hh2].
  destruct (pretty_numeric _ Hs) as [Hs1 Hs2].
  rewrite Fields_scan_numeric by done.
  change (" " +:+ ?x) with (String " " x). rewrite Fields_scan_space.
  rewrite Fields_scan_numeric by done.
  change (" " +:+ ?x) with (String " " x). rewrite Fields_scan_space.
  rewrite <- (append_empty_r (pretty (Size m))) at 1.
  rewrite Fields_scan_numeric by done. done.
Qed.

Lemma without_app c a b : without c a -> without c b -> without c (a +:+ b).
Proof.
  induction a as [|x a IH]; [done|]. rewrite append_String. cbn. intros [? ?] ?. auto.
Qed.

Lemma numeric_without c s : digit c = None -> numeric s -> without c s.
Proof.
  intros Hc. induction s as [|x s IH]; [done|]. cbn. intros [Hx Hs].
  split; [congruence | auto].
Qed.

Lemma formatMapping_without_comma m :
  (0 <= ContainerID m)%Z -> (0 <= HostID m)%Z -> (0 <= Size m)%Z ->
  without "," (formatMapping m).
Proof.
  intros Hc Hh Hs. unfold formatMapping.
  destruct (pretty_numeric _ Hc) as [Hc1 _].
  destruct (pretty_numeric _ Hh) as [Hh1 _].
  destruct (pretty_numeric _ Hs) as [Hs1 _].
  repeat apply without_app; try (by apply numeric_without); done.
Qed.

Lemma uint32_fits n : (0 <= n < 2 ^ 32)%Z -> uint32 n = n.
Proof. intros Hn. unfold uint32. by apply Z.mod_small. Qed.

(** Set reads back what String writes, one mapping after the other. *)
Lemma Set_idMaps_formatted maps ms :
  Forall fits32 ms ->
  Set_idMaps maps (formatMapping <$> ms) = (None, maps ++ ms).
Proof.
  revert maps. induction ms as [|m ms IH]; intros maps Hall; cbn.
  - by rewrite app_nil_r.
  - apply Forall_cons in Hall as [(Hc & Hh & Hs) Hms].
    rewrite Fields_formatMapping by lia.
    assert (H63 : (2 ^ 32 < 2 ^ 63)%Z) by done.
    rewrite !Atoi_pretty by lia.
    rewrite !uint32_fits by done.
    rewrite IH by done. destruct m. cbn. by rewrite <- app_assoc.
Qed.

Lemma Set_idMaps_app maps ms rest :
  Forall fits32 ms ->
  Set_idMaps maps ((formatMapping <$> ms) ++ rest) = Set_idMaps (maps ++ ms) rest.
Proof.
  revert maps. induction ms as [|m ms IH]; intros maps Hall; cbn.
  - by rewrite app_nil_r.
  - apply Forall_cons in Hall as [(Hc & Hh & Hs) Hms].
    rewrite Fields_formatMapping by lia.
    assert (H63 : (2 ^ 32 < 2 ^ 63)%Z) by done.
    rewrite !Atoi_pretty by lia.
    rewrite !uint32_fits by done.
    rewrite IH by done. destruct m. cbn. by rewrite <- app_assoc.
Qed.

Lemma Join_snoc xs x sep :
  xs ≠ [] -> container.Join (xs ++ [x]) sep = container.Join xs sep +:+ sep +:+ x.
Proof.
  induction xs as [|y xs IH]; [done|]. intros _.
  destruct xs as [|z xs]; [done|].
  change (container.Join ((y :: z :: xs) ++ [x]) sep)
    with (y +:+ sep +:+ container.Join ((z :: xs) ++ [x]) sep).
  rewrite IH by done.
  change (container.Join (y :: z :: xs) sep)
    with (y +:+ sep +:+ container.Join (z :: xs) sep).
  by rewrite !append_assoc'.
Qed.

(** X12. idMapSlice: Set reads back what String writes. For a list of
    mappings that is not empty, Set(String()) appends exactly these mappings
    and returns nil. The empty list is the exception: its String is the
    empty text, which Set rejects as an invalid mapping. And Set is not
    atomic: when a later part of the text is invalid, the mappings read
    before it stay appended although an error is returned. *)
Theorem idMapSlice_Set_reads_String (maps ms : list specs.LinuxIDMapping) :
  (ms ≠ [] -> Forall fits32 ms ->
   idMapSlice_Set maps (idMapSlice_String ms) = (None, maps ++ ms)) /\
  idMapSlice_Set maps (idMapSlice_String []) = (Some "invalid mapping: ", maps) /\
  (forall bad, ms ≠ [] -> Forall fits32 ms -> without "," bad -> length (Fields bad) ≠ 3 ->
   idMapSlice_Set maps (idMapSlice_String ms +:+ "," +:+ bad) =
     (Some ("invalid mapping: " +:+ bad), maps ++ ms)).
Proof.
  assert (Hcommas : Forall fits32 ms -> Forall (without ",") (formatMapping <$> ms)).
  { intros Hall. apply Forall_fmap. eapply Forall_impl; [done|].
    intros m (Hc & Hh & Hs). apply formatMapping_without_comma; lia. }
  split; [|split; [done|]].
  - intros Hne Hall. unfold idMapSlice_Set, idMapSlice_String.
    rewrite (Split_Join (formatMapping <$> ms) ",").
    + by apply Set_idMaps_formatted.
    + by destruct ms.
    + by apply Hcommas.
  - intros bad Hne Hall Hbad Hfields. unfold idMapSlice_Set, idMapSlice_String.
    rewrite <- (Join_snoc (formatMapping <$> ms) bad ",") by (by destruct ms).
    rewrite (Split_Join ((formatMapping <$> ms) ++ [bad]) ",").
    + rewrite Set_idMaps_app by done. cbn.
      destruct (Fields bad) as [|f0 [|f1 [|f2 [|f3 fs]]]]; done.
    + by destruct ms.
    + apply Forall_app. split; [by apply Hcommas | by apply Forall_singleton].
Qed.

(** X13. calculatePeerIP keeps the first three parts of a dotted IPv4 address
    and moves the last one to the next number, going from 255 back to 1: the
    peer address differs from the given one and its last part is never 0. *)
Theorem calculatePeerIP_next_address (p0 p1 p2 : string) (n : Z) :
  without "." p0 -> without "." p1 -> without "." p2 ->
  (0 <= n <= 255)%Z ->
  calculatePeerIP (p0 +:+ "." +:+ p1 +:+ "." +:+ p2 +:+ "." +:+ pretty n) =
    inr (p0 +:+ "." +:+ p1 +:+ "." +:+ p2 +:+ "." +:+ pretty (peerOctet n)) /\
  (1 <= peerOctet n <= 255)%Z /\
  peerOctet n ≠ n.
Proof.
  intros H0 H1 H2 Hn. split; [|unfold peerOctet; case_bool_decide; lia].
  destruct (pretty_numeric n ltac:(lia)) as [Hnum Hne].
  unfold calculatePeerIP.
  rewrite !Split_app_sep by done.
  rewrite (Split_without (pretty n)) by (apply numeric_without; [reflexivity | done]).
  rewrite Atoi_pretty.
  2:{ assert (H63 : (255 < 2 ^ 63)%Z) by done. lia. }
  assert (Hwrap : int64 (n + 1) = (n + 1)%Z).
  { unfold int64. rewrite Z.mod_small; [lia|].
    change (2 ^ 63)%Z with 9223372036854775808%Z.
    change (2 ^ 64)%Z with 18446744073709551616%Z. lia. }
  rewrite Hwrap. unfold peerOctet.
  destruct (decide (n = 255%Z)) as [->|Hne255].
  - done.
  - rewrite bool_decide_eq_false_2 by lia. by rewrite (bool_decide_eq_false_2 (n = 255)%Z).
Qed.

(** X14. The exit status that runsc wait reports follows the convention of
    the shells: the exit code of a process that exited; 128 plus the signal
    number for a process ended by a signal, whether or not it dumped core;
    and -1 exactly for a status that says stopped. It always lies between
    -1 and 255. *)
Theorem exitStatus_convention (status : Z) :
  (0 <= status < 2 ^ 32)%Z ->
  (-1 <= exitStatus status <= 255)%Z /\
  (exitStatus status = -1 <-> Z.land status 127 = 127)%Z /\
  (forall code, (0 <= code <= 255)%Z -> status = Z.shiftl code 8 -> exitStatus status = code) /\
  (forall sig, (1 <= sig <= 126)%Z -> (status = sig \/ status = Z.lor sig 128) ->
     exitStatus status = 128 + sig)%Z.
Proof.
  intros Hstatus.
  assert (Hlow : (0 <= Z.land status 127 <= 127)%Z).
  { split; [apply Z.land_nonneg; lia|].
    change 127%Z with (Z.ones 7). rewrite Z.land_ones by lia.
    pose proof (Z.mod_pos_bound status (2 ^ 7) ltac:(done)). 
    change (Z.ones 7) with 127%Z. change (2 ^ 7)%Z with 128%Z in *. lia. }
  assert (Hhigh : (0 <= Z.land (Z.shiftr status 8) 255 <= 255)%Z).
  { split; [apply Z.land_nonneg; lia|].
    change 255%Z with (Z.ones 8). rewrite Z.land_ones by lia.
    pose proof (Z.mod_pos_bound (Z.shiftr status 8) (2 ^ 8) ltac:(done)).
    change (Z.ones 8) with 255%Z. change (2 ^ 8)%Z with 256%Z in *. lia. }
  unfold exitStatus, Signal, ExitStatus, Signaled, Exited.
  split; [|split; [|split]].
  - repeat case_bool_decide; cbn; lia.
  - repeat case_bool_decide; cbn; lia.
  - intros code Hcode ->.
    assert (Hl : Z.land (Z.shiftl code 8) 127 = 0%Z).
    { change 127%Z with (Z.ones 7). rewrite Z.land_ones by lia.
      rewrite Z.shiftl_mul_pow2 by lia. change (2 ^ 8)%Z with (2 * 2 ^ 7)%Z.
      rewrite Z.mul_assoc. apply Z.mod_mul. done. }
    rewrite Hl. cbn. rewrite Z.shiftr_shiftl_l by lia. cbn.
    change 255%Z with (Z.ones 8). rewrite Z.land_ones by lia.
    apply Z.mod_small. change (2 ^ 8)%Z with 256%Z. lia.
  - intros sig Hsig Hst.
    assert (Hl : Z.land status 127 = sig).
    { destruct Hst as [->| ->].
      - change 127%Z with (Z.ones 7). rewrite Z.land_ones by lia.
        apply Z.mod_small. change (2 ^ 7)%Z with 128%Z. lia.
      - rewrite Z.land_lor_distr_l. change (Z.land 128 127) with 0%Z.
        rewrite Z.lor_0_r. change 127%Z with (Z.ones 7). rewrite Z.land_ones by lia.
        apply Z.mod_small. change (2 ^ 7)%Z with 128%Z. lia. }
    rewrite Hl. rewrite !bool_decide_eq_true_2 by lia. done.
Qed.

End commands.

Lemma calculatePeerIP_next_address_witness :
  cmd.calculatePeerIP ("192" +:+ "." +:+ "168" +:+ "." +:+ "0" +:+ "." +:+ pretty 255%Z) =
    inr ("192" +:+ "." +:+ "168" +:+ "." +:+ "0" +:+ "." +:+ pretty (peerOctet 255)) /\
  (1 <= peerOctet 255 <= 255)%Z /\
  peerOctet 255 ≠ 255%Z.
Proof.
  apply (calculatePeerIP_next_address "192" "168" "0" 255);
    [cbn; repeat split; discriminate.. | lia].
Defined.

Lemma exitStatus_convention_witness :
  (0 <= 139 < 2 ^ 32)%Z /\ cmd.exitStatus 139 = (128 + 11)%Z.
Proof.
  split; [lia|].
  apply (exitStatus_convention 139 ltac:(lia)); [lia | right; reflexivity].
Defined.

(** ** Overrides that are applied *)

Section override_frame.
Context `{config.ConfigExternals}.

(** What the loop of Override has done when it returns: nothing, because no
    field carries the name or the override is refused; or the Set of the
    flag has been called, and the field is written if it returned nil. *)
Lemma Override_fields_returns c flagSet name value force before rest err c' flagSet' :
  Forall (fun f => f.1 ≠ Some name) before ->
  config.Override_fields c flagSet name value force before rest =
    config.Returned (err, c', flagSet') ->
  (err ≠ None /\ c' = c /\ flagSet' = flagSet /\
   (Forall (fun f => f.1 ≠ Some name) (before ++ rest) \/
    (force = false /\ config.isOverrideAllowed c name value ≠ None))) \/
  (exists passed old later fl e x,
     before ++ rest = passed ++ (Some name, old) :: later /\
     Forall (fun f => f.1 ≠ Some name) passed /\
     flagSet !! name = Some fl /\
     (force = true \/ config.isOverrideAllowed c name value = None) /\
     config.Set' fl (config.Value fl) value = (e, x) /\
     flagSet' = <[name := {| config.Value := x; config.Set' := config.Set' fl |}]> flagSet /\
     match e with
     | Some _ => err ≠ None /\ c' = c
     | None => config.fields c' = passed ++ (Some name, x) :: later /\
               err = config.validate c'
     end).
Proof.
  revert before. induction rest as [|[tag old] rest IH]; intros before Hbefore; cbn.
  - intros [= <- <- <-]. left. rewrite app_nil_r. by repeat split; [|left].
  - case_bool_decide as Htag.
    + subst tag. destruct (flagSet !! name) as [fl|] eqn:Hfl; [|done].
      assert (Hperm : (if force then None else config.isOverrideAllowed c name value) = None ->
                      force = true \/ config.isOverrideAllowed c name value = None).
      { destruct force; [by left | by right]. }
      destruct (if force then None else config.isOverrideAllowed c name value) as [e|] eqn:Hp.
      { intros [= <- <- <-]. left. repeat split; [done|]. right.
        destruct force; [discriminate|]. split; [done|]. by rewrite Hp. }
      destruct (config.Set' fl (config.Value fl) value) as [e x] eqn:Hset.
      destruct e as [e|]; intros [= <- <- <-]; right;
        exists before, old, rest, fl; eexists _, x;
        (split; [done|]); (split; [done|]); (split; [done|]);
        (split; [by apply Hperm|]); (split; [exact Hset|]); by split.
    + intros Hrun. apply IH in Hrun.
      * rewrite <- app_assoc in Hrun. exact Hrun.
      * apply Forall_app. split; [done|]. by apply Forall_singleton.
Qed.

(** X15. What Override has done when it returns. Either it has written
    nothing and returns an error, and then no field carries the name or
    the override is not forced and not allowed. Or it has called the Set of
    the flag, with leave or by force, and the flag holds what that Set
    stored. If the Set returned an error, Override returns an error and the
    configuration is as it was, while the flag keeps what the failed Set
    stored. If the Set returned nil, the first field tagged with the name
    holds the value of the flag, every other field is as before, and the
    result is what the validation of the new configuration says: a value
    that fails the validation is reported and stays written. *)
Theorem Override_writes_one_field c flagSet name value force err c' flagSet' :
  config.Override c flagSet name value force = config.Returned (err, c', flagSet') ->
  (err ≠ None /\ c' = c /\ flagSet' = flagSet /\
   (Forall (fun f => f.1 ≠ Some name) (config.fields c) \/
    (force = false /\ config.isOverrideAllowed c name value ≠ None))) \/
  (exists passed old later fl e x,
     config.fields c = passed ++ (Some name, old) :: later /\
     Forall (fun f => f.1 ≠ Some name) passed /\
     flagSet !! name = Some fl /\
     (force = true \/ config.isOverrideAllowed c name value = None) /\
     config.Set' fl (config.Value fl) value = (e, x) /\
     flagSet' = <[name := {| config.Value := x; config.Set' := config.Set' fl |}]> flagSet /\
     match e with
     | Some _ => err ≠ None /\ c' = c
     | None => config.fields c' = passed ++ (Some name, x) :: later /\
               err = config.validate c'
     end).
Proof.
  unfold config.Override. intros Hrun.
  by apply (Override_fields_returns c flagSet name value force [] (config.fields c)) in Hrun.
Qed.

(** X16. What an annotation may do to the two guarded flags of the allowlist
    when the runtime does not allow flag overrides: it can switch the OCI
    seccomp filters on and cannot switch them off, and it can choose for the
    overlay no medium, memory or the container's own file system, and never
    a directory of the host. *)
Theorem annotations_cannot_weaken_the_sandbox c value :
  config.AllowFlagOverride c = false ->
  (config.isOverrideAllowed c config.flagOCISeccomp value = None <->
   config.ParseBool value = inr true) /\
  (config.isOverrideAllowed c config.flagOverlay2 value = None <->
   exists medium,
     config.Overlay2_Set value = inr medium /\
     medium ∈ [config.NoOverlay; config.MemoryOverlay; config.SelfOverlay]).
Proof.
  intros Hno. unfold config.isOverrideAllowed. rewrite Hno. split.
  - assert (Hlisted : config.allowlisted config.flagOCISeccomp =
                      Some (Some config.checkOciSeccomp)) by reflexivity.
    rewrite Hlisted. unfold config.checkOciSeccomp.
    destruct (config.ParseBool value) as [e|[]]; cbn; split; intros Heq;
      (done || discriminate).
  - assert (Hlisted : config.allowlisted config.flagOverlay2 =
                      Some (Some config.checkOverlay2)) by reflexivity.
    rewrite Hlisted. unfold config.checkOverlay2.
    destruct (config.Overlay2_Set value) as [e|medium]; cbn.
    + split; [discriminate|]. by intros (m & [=] & _).
    + destruct medium; cbn; split; try discriminate; try done.
      * intros _. eexists. split; [done|]. apply list_elem_of_here.
      * intros _. eexists. split; [done|]. apply list_elem_of_further, list_elem_of_here.
      * intros _. eexists. split; [done|].
        apply list_elem_of_further, list_elem_of_further, list_elem_of_here.
      * intros (m & [= <-] & Hin).
        repeat (apply elem_of_cons in Hin as [Hin|Hin]; [discriminate|]).
        by apply elem_of_nil in Hin.
      * intros (m & [= <-] & Hin).
        repeat (apply elem_of_cons in Hin as [Hin|Hin]; [discriminate|]).
        by apply elem_of_nil in Hin.
Qed.

End override_frame.

Lemma Override_writes_one_field_witness :
  (config.Override (H := test_config_externals)
     (runtime_config false false "sandbox") (runtime_flags false false "sandbox")
     "debug" "true" false =
     config.Returned (None, runtime_config false true "sandbox", debug_flags) /\
   exists fl x,
     runtime_flags false false "sandbox" !! "debug" = Some fl /\
     config.Set' fl (config.Value fl) "true" = (None, x) /\
     debug_flags = <["debug" := {| config.Value := x; config.Set' := config.Set' fl |}]>
                     (runtime_flags false false "sandbox")) /\
  (config.Override (H := test_config_externals)
     (runtime_config false true "sandbox") debug_flags "debug" "maybe" false =
     config.Returned (Some (config.errSetting "debug" "maybe" config.errParse),
                      runtime_config false true "sandbox",
                      runtime_flags false false "sandbox") /\
   config.Value <$> debug_flags !! "debug" = Some (config.VBool true) /\
   config.Value <$> runtime_flags false false "sandbox" !! "debug" =
     Some (config.VBool false) /\
   exists fl e x,
     debug_flags !! "debug" = Some fl /\
     config.Set' fl (config.Value fl) "maybe" = (Some e, x) /\
     runtime_flags false false "sandbox" =
       <["debug" := {| config.Value := x; config.Set' := config.Set' fl |}]> debug_flags).
Proof.
  assert (Hrun : config.Override (H := test_config_externals)
            (runtime_config false false "sandbox") (runtime_flags false false "sandbox")
            "debug" "true" false =
          config.Returned (None, runtime_config false true "sandbox", debug_flags))
    by (vm_compute; reflexivity).
  assert (Hfail : config.Override (H := test_config_externals)
            (runtime_config false true "sandbox") debug_flags "debug" "maybe" false =
          config.Returned (Some (config.errSetting "debug" "maybe" config.errParse),
                           runtime_config false true "sandbox",
                           runtime_flags false false "sandbox"))
    by (vm_compute; reflexivity).
  split; (split; [assumption|]).
  - destruct (Override_writes_one_field (H := test_config_externals) _ _ _ _ _ _ _ _ Hrun)
      as [[Hne _]|(passed & old & later & fl & e & x & _ & _ & Hfl & _ & Hset & Hflags & Hres)];
      [done|].
    destruct e as [e|]; [by destruct Hres|]. by exists fl, x.
  - split; [reflexivity|]. split; [reflexivity|].
    destruct (Override_writes_one_field (H := test_config_externals) _ _ _ _ _ _ _ _ Hfail)
      as [(_ & _ & Hflags & _)|(passed & old & later & fl & e & x & _ & _ & Hfl & _ & Hset &
                                Hflags & Hres)].
    + apply (f_equal (fun m : gmap string config.Flag => config.Value <$> m !! "debug"))
        in Hflags.
      vm_compute in Hflags. discriminate.
    + destruct e as [e|]; [by exists fl, e, x|]. destruct Hres as [_ Herr]. discriminate.
Defined.

Lemma annotations_cannot_weaken_the_sandbox_witness :
  config.AllowFlagOverride (runtime_config false false "sandbox") = false /\
  (config.isOverrideAllowed (H := test_config_externals)
     (runtime_config false false "sandbox") config.flagOCISeccomp "false" = None <->
   config.ParseBool "false" = inr true).
Proof.
  split; [reflexivity|].
  apply (annotations_cannot_weaken_the_sandbox (H := test_config_externals)
           (runtime_config false false "sandbox") "false").
  reflexivity.
Defined.

Section override_agreement.
Context `{config.ConfigExternals}.

Lemma tagged_elem_of (name : string) (v : config.FlagValue)
    (l : list (option string * config.FlagValue)) :
  (Some name, v) ∈ l -> name ∈ omap fst l.
Proof.
  intros Hin. apply list_elem_of_omap. by exists (Some name, v).
Qed.

(** X22. Override and the agreement of the configuration with the flag
    set. Let no two fields carry the same tag and every tagged field hold
    what the flag of its name holds. After an Override that returns, with
    nil or with an error, the same is true, with one exception: the Set
    of the flag returned an error after it had stored a value other than
    the one held. Then Override returns an error and the configuration is
    as it was, so the field of that name still holds the old value while
    the flag holds the stored one; every other field still agrees with its
    flag. *)
Theorem Override_keeps_agreement c flagSet name value force err c' flagSet' :
  NoDup (tags c) ->
  agree c flagSet ->
  config.Override c flagSet name value force = config.Returned (err, c', flagSet') ->
  agree c' flagSet' \/
  (exists fl e x,
     flagSet !! name = Some fl /\
     config.Set' fl (config.Value fl) value = (Some e, x) /\
     x ≠ config.Value fl /\
     err ≠ None /\
     c' = c /\
     (Some name, config.Value fl) ∈ config.fields c /\
     flagSet' = <[name := {| config.Value := x; config.Set' := config.Set' fl |}]> flagSet /\
     forall n v, n ≠ name -> (Some n, v) ∈ config.fields c ->
                 exists fl', flagSet' !! n = Some fl' /\ config.Value fl' = v).
Proof.
  intros Hnodup Hagree Hrun. unfold config.Override in Hrun.
  apply (Override_fields_returns c flagSet name value force [] (config.fields c)) in Hrun;
    [|done].
  destruct Hrun as [(_ & -> & -> & _)|(passed & old & later & fl & e & x & Hfields & Hpassed &
                                       Hfl & _ & Hset & -> & Hres)]; [by left|].
  cbn in Hfields.
  assert (Hold : old = config.Value fl).
  { destruct (Hagree name old) as (fl' & Hfl' & <-); [|congruence].
    rewrite Hfields. apply elem_of_app. right. apply list_elem_of_here. }
  assert (Hothers : forall n v, n ≠ name -> (Some n, v) ∈ config.fields c ->
            exists fl', <[name := {| config.Value := x; config.Set' := config.Set' fl |}]>
                          flagSet !! n = Some fl' /\ config.Value fl' = v).
  { intros n v Hn Hin. rewrite lookup_insert_ne by done. by apply Hagree. }
  destruct e as [e|].
  - destruct Hres as [Herr ->].
    destruct (decide (x = config.Value fl)) as [Hx|Hx].
    + left. intros n v Hin. destruct (decide (n = name)) as [->|Hn]; [|by apply Hothers].
      rewrite lookup_insert_eq. eexists. split; [done|]. cbn.
      destruct (Hagree name v Hin) as (fl' & Hfl' & <-). congruence.
    + right. exists fl, e, x. repeat split; try done.
      rewrite Hfields, <- Hold. apply elem_of_app. right. apply list_elem_of_here.
  - left. destruct Hres as [Hfields' _].
    unfold tags in Hnodup. rewrite Hfields in Hnodup.
    rewrite omap_app in Hnodup. cbn in Hnodup.
    apply NoDup_app in Hnodup as (_ & _ & Hlater). apply NoDup_cons in Hlater as [Hlater _].
    intros n v Hin. rewrite Hfields' in Hin.
    apply elem_of_app in Hin as [Hin|Hin].
    + assert (n ≠ name).
      { rewrite Forall_forall in Hpassed. intros ->. by apply (Hpassed _ Hin). }
      apply Hothers; [done|]. rewrite Hfields. apply elem_of_app. by left.
    + apply elem_of_cons in Hin as [[= -> ->]|Hin].
      * rewrite lookup_insert_eq. by eexists.
      * assert (n ≠ name).
        { intros ->. apply Hlater. by apply (tagged_elem_of name v). }
        apply Hothers; [done|]. rewrite Hfields.
        apply elem_of_app. right. by apply list_elem_of_further.
Qed.

End override_agreement.

Lemma Override_keeps_agreement_witness :
  (exists fl, debug_flags !! "debug" = Some fl /\ config.Value fl = config.VBool true) /\
  (exists fl e x,
     debug_flags !! "debug" = Some fl /\
     config.Set' fl (config.Value fl) "maybe" = (Some e, x) /\
     x ≠ config.VBool true /\
     (Some "debug", config.VBool true) ∈ config.fields (runtime_config false true "sandbox")).
Proof.
  assert (Hnodup : forall allow debug network,
            NoDup (tags (runtime_config allow debug network))).
  { intros. unfold tags. cbn. compute_done. }
  assert (Hagree : forall allow debug network flagSet,
            (config.Value <$> flagSet !! "allow-flag-override" = Some (config.VBool allow)) ->
            (config.Value <$> flagSet !! "debug" = Some (config.VBool debug)) ->
            (config.Value <$> flagSet !! "network" = Some (config.VString network)) ->
            agree (runtime_config allow debug network) flagSet).
  { intros allow debug network flagSet Ha Hd Hn name v Hin. unfold runtime_config in Hin.
    cbn in Hin.
    repeat (apply elem_of_cons in Hin as [Heq|Hin];
            [try discriminate Heq; injection Heq as -> ->;
             match goal with
             | Hl : config.Value <$> flagSet !! ?k = Some ?w |- context [flagSet !! ?k] =>
                 destruct (flagSet !! k) as [fl|]; [|discriminate Hl];
                 injection Hl as Hl; by exists fl
             end|]).
    by apply elem_of_nil in Hin. }
  split.
  - destruct (Override_keeps_agreement (H := test_config_externals)
                (runtime_config false false "sandbox") (runtime_flags false false "sandbox")
                "debug" "true" false None (runtime_config false true "sandbox") debug_flags)
      as [Hkept|(fl & e & x & _ & _ & _ & Herr & _)].
    + apply Hnodup.
    + by apply Hagree.
    + vm_compute. reflexivity.
    + apply Hkept. apply list_elem_of_further, list_elem_of_here.
    + done.
  - destruct (Override_keeps_agreement (H := test_config_externals)
                (runtime_config false true "sandbox") debug_flags
                "debug" "maybe" false
                (Some (config.errSetting "debug" "maybe" config.errParse))
                (runtime_config false true "sandbox") (runtime_flags false false "sandbox"))
      as [Hkept|(fl & e & x & Hfl & Hset & Hx & _ & _ & Hin & _)].
    + apply Hnodup.
    + by apply Hagree.
    + vm_compute. reflexivity.
    + exfalso.
      destruct (Hkept "debug" (config.VBool true)) as (fl & Hfl & Hv);
        [apply list_elem_of_further, list_elem_of_here|].
      assert (Hheld : config.Value <$> runtime_flags false false "sandbox" !! "debug" =
                      Some (config.VBool false)) by reflexivity.
      rewrite Hfl in Hheld. injection Hheld as Hheld. congruence.
    + assert (Hheld : config.Value <$> debug_flags !! "debug" = Some (config.VBool true))
        by reflexivity.
      rewrite Hfl in Hheld. injection Hheld as Hheld. rewrite Hheld in Hx, Hin.
      by exists fl, e, x.
Defined.

(** ** Creation *)

#[global] Instance sameIdentity_preorder : PreOrder sameIdentity.
Proof.
  split; [done|]. intros st1 st2 st3 (? & ? & ?) (? & ? & ?). unfold sameIdentity in *.
  repeat split; congruence.
Qed.

Ltac unfold_creation :=
  progress unfold Saver_LockForNew, executeHooks, createParentCgroup, cgroupInstall,
    setupCgroupForSubcontainer, setupCgroupForRoot, newRoot, newSubcontainer, newLocked.

Ltac sameIdentity_base :=
  match goal with
  | |- stable sameIdentity (emit _) => by intros ?
  | |- stable sameIdentity (modw _) => by intros ?
  | |- stable sameIdentity (modc (set_GoferPid _)) => by intros ?
  | |- stable sameIdentity (modc (set_goferIsChild _)) => by intros ?
  | |- stable sameIdentity (modc (set_Sandbox _)) => by intros ?
  | |- stable sameIdentity (modc (set_CompatCgroup _)) => by intros ?
  | |- stable sameIdentity (modc (set_Status _)) => by intros ?
  | |- stable sameIdentity (modc (fun c => set_GoferMountConfs _ c)) => by intros ?
  end.

Lemma sameIdentity_changeStatus s : stable sameIdentity (changeStatus s).
Proof.
  intros st. destruct (changeStatus_cases s st) as [(-> & _)|([msg ->] & _)]; done.
Qed.

Lemma sameIdentity_initGoferConfs_mounts `{Externals} ovlConf hints mounts :
  stable sameIdentity (initGoferConfs_mounts ovlConf hints mounts).
Proof.
  induction mounts as [|m rest IH]; cbn;
    [stable_tac ltac:(first [ sameIdentity_base | unfold_operations ])|].
  destruct (negb (IsGoferMount m)); [done|].
  destruct (FindMount hints (specs.Source m)) as [hint|];
    [destruct (boot.IsSandboxLocal hint)|];
    stable_tac ltac:(first [ sameIdentity_base | apply IH | unfold_operations ]).
Qed.

Ltac sameIdentity_ops :=
  stable_tac ltac:(first [ sameIdentity_base | apply sameIdentity_changeStatus
                         | apply sameIdentity_initGoferConfs_mounts
                         | unfold_operations | unfold_creation ]).

Lemma sameIdentity_newLocked `{Externals} env cenv conf args spec :
  stable sameIdentity (newLocked env cenv conf args spec).
Proof. sameIdentity_ops. Qed.

Ltac quiet_creation :=
  stable_tac ltac:(first [ emits_base | apply quiet_forEachSelfMount_mounts
                         | unfold_operations | unfold_creation ]).

Lemma quiet_newLocked `{Externals} env cenv conf args spec :
  quiet (newLocked env cenv conf args spec).
Proof. quiet_creation. Qed.

Lemma withCleanup_Ok_inv {A : Type} (f deferred : M unit) (body : M (bool * A)) st a st' :
  withCleanup f deferred body st = Ok a st' ->
  exists released st1 st2,
    body st = Ok (released, a) st1 /\ deferred st1 = Ok tt st2 /\
    if (released : bool) then st' = st2 else f st2 = Ok tt st'.
Proof.
  unfold withCleanup. destruct (body st) as [[released a'] st1|msg st1].
  - intros (st2 & (st1' & [= <- <-] & Hd)%defer_Ok_inv & Hf)%defer_Ok_inv.
    exists released, st1, st2. split; [done|]. split; [done|].
    destruct released; [by injection Hf as <- | done].
  - intros (st2 & (st1' & [=] & _)%defer_Ok_inv & _)%defer_Ok_inv.
Qed.

(** The part of New that precedes the lock. *)
Lemma New_runs `{Externals} env cenv cleanup conf args st :
  (exists err, New env cenv cleanup conf args st = Ok (Some err) st) \/
  (exists err sandboxID,
     env_LockForNew cenv = Some err /\
     New env cenv cleanup conf args st =
       Ok (Some ("cannot lock container metadata file: " +:+ err))
          {| self := newContainer conf args sandboxID; world := world st |}) \/
  (exists linux sandboxID,
     validateID (ArgsID args) = None /\
     env_LockForNew cenv = None /\
     (if isRoot (specs.Kept (ArgsSpec args)) then Some (ArgsID args)
      else specs.SandboxID (ArgsSpec args)) = Some sandboxID /\
     New env cenv cleanup conf args st =
       withCleanup (cleanup;; mret tt) (Saver_UnlockOrDie env)
         (e ← newLocked env cenv conf args (specs.set_Linux linux (ArgsSpec args));
          mret (bool_decide (e = None), e))
         {| self := newContainer conf args sandboxID;
            world := logged [EvLock] (world st) |}).
Proof.
  unfold New. destruct (validateID (ArgsID args)) as [err|]; [left; by eexists|].
  destruct (env_MkdirAll cenv) as [err|]; [left; by eexists|].
  destruct (modifySpecForDirectfs cenv conf (specs.Linux (ArgsSpec args))) as [[err|] linux];
    [left; by eexists|].
  cbn.
  destruct (if isRoot (specs.Kept (ArgsSpec args)) then Some (ArgsID args)
            else specs.SandboxID (ArgsSpec args)) as [sandboxID|] eqn:Hid;
    [|left; by eexists].
  unfold Saver_LockForNew.
  destruct (env_LockForNew cenv) as [err|] eqn:Hlock.
  - right; left. by exists err, sandboxID.
  - right; right. by exists linux, sandboxID.
Qed.

Lemma Saver_UnlockOrDie_Ok `{Externals} env st st' :
  Saver_UnlockOrDie env st = Ok tt st' ->
  env_unlock env = None /\ st' = {| self := self st; world := logged [EvUnlock] (world st) |}.
Proof.
  unfold Saver_UnlockOrDie. destruct (env_unlock env); [discriminate|].
  by intros [= <-].
Qed.

(** The lock is taken and released around what New does under it. *)
Lemma newLocked_region `{Externals} env cenv conf args spec st e stB st' :
  newLocked env cenv conf args spec {| self := self st; world := logged [EvLock] (world st) |} =
    Ok e stB ->
  Saver_UnlockOrDie env stB = Ok tt st' ->
  locksBetween {| self := self st; world := world st |} st' [EvLock; EvUnlock] /\
  self st' = self stB /\ saved (world st') = saved (world stB).
Proof.
  intros Hbody (Hunlock & ->)%Saver_UnlockOrDie_Ok.
  apply (stable_Ok _ _ _ _ _ (quiet_newLocked env cenv conf args spec)) in Hbody
    as (evs & Hlog & Hq).
  apply locking_quiet in Hq. split; [|done].
  exists ([EvLock] ++ evs ++ [EvUnlock]). cbn in *. split.
  - rewrite Hlog. by rewrite <- !app_assoc.
  - change (EvLock :: evs ++ [EvUnlock]) with ([EvLock] ++ evs ++ [EvUnlock]).
    by rewrite !locking_app, Hq.
Qed.

(** X17. A creation that fails leaves nothing half-made. When New returns an
    error, either nothing outside the process was touched (the id was
    refused, the root directory or the document could not be prepared, or
    the lock of a new state file could not be taken: an existing container
    of that id is never destroyed), or the lock had been taken and released
    and then Destroy has run as the cleanup; if that Destroy could take the
    lock, the record is Stopped, and the state file is gone if its removal
    succeeded. *)
Theorem New_failure_is_cleaned_up `{Externals} (env : Env) (cenv : CreateEnv) (denv : Env)
    (conf : config.Config) (args : Args) (st st' : State) (err : string) :
  New env cenv (Destroy denv) conf args st = Ok (Some err) st' ->
  (env_LockForNew cenv ≠ None -> world st' = world st) /\
  (world st' = world st \/
   exists st1 e,
     locksBetween st st1 [EvLock; EvUnlock] /\
     Destroy denv st1 = Ok e st' /\
     (env_lock denv = None ->
      Status_ (self st') = Stopped /\
      (env_SaverDestroy denv = None -> saved (world st') = None))).
Proof.
  intros Hrun.
  destruct (New_runs env cenv (Destroy denv) conf args st)
    as [[err' Hpre]|[(err' & sid & Hlock & Hpre)|(linux & sid & _ & Hlock & _ & Hgo)]].
  - rewrite Hpre in Hrun. injection Hrun as _ <-. auto.
  - rewrite Hpre in Hrun. injection Hrun as _ <-. auto.
  - split; [by rewrite Hlock|]. right.
    rewrite Hgo in Hrun.
    apply withCleanup_Ok_inv in Hrun as (released & st1 & st2 & Hbody & Hunlock & Hclean).
    apply bind_Ok_inv in Hbody as (e & st1' & Hbody & [= <- -> <-]).
    rewrite bool_decide_eq_false_2 in Hclean by done.
    apply bind_Ok_inv in Hclean as (e' & st3 & Hdestroy & [= <-]).
    exists st2, e'.
    destruct (newLocked_region env cenv conf args _
                {| self := newContainer conf args sid; world := world st |} _ _ _
                Hbody Hunlock) as ((evs & Hlog & Hl) & _).
    split; [by exists evs|]. split; [done|].
    intros Hdlock. by apply (Destroy_returns_stopped denv st2 e').
Qed.

Lemma New_failure_is_cleaned_up_witness :
  New (H := test_externals) test_env create_env (Destroy (H := test_externals) test_env)
    creation_config test_args host_state =
    Ok (Some "cannot create gofer process: gofer: not started")
       (final (New (H := test_externals) test_env create_env
                 (Destroy (H := test_externals) test_env) creation_config test_args
                 host_state)) /\
  Status_ (self (final (New (H := test_externals) test_env create_env
                          (Destroy (H := test_externals) test_env) creation_config test_args
                          host_state))) = Stopped /\
  saved (world (final (New (H := test_externals) test_env create_env
                         (Destroy (H := test_externals) test_env) creation_config test_args
                         host_state))) = None.
Proof.
  assert (Hrun :
    New (H := test_externals) test_env create_env (Destroy (H := test_externals) test_env)
      creation_config test_args host_state =
    Ok (Some "cannot create gofer process: gofer: not started")
       (final (New (H := test_externals) test_env create_env
                 (Destroy (H := test_externals) test_env) creation_config test_args
                 host_state))) by (vm_compute; reflexivity).
  split; [exact Hrun|].
  destruct (New_failure_is_cleaned_up (H := test_externals) _ _ _ _ _ _ _ _ Hrun)
    as [_ [Hsame|(st1 & e & _ & _ & Hstopped)]].
  - vm_compute in Hsame. discriminate.
  - destruct (Hstopped eq_refl) as [Hstatus Hsaved].
    split; [exact Hstatus | exact (Hsaved eq_refl)].
Defined.

Lemma forallb_idByte_without id :
  forallb idByte (list_ascii_of_string id) = true -> without "/" id.
Proof.
  induction id as [|c id IH]; cbn; [done|].
  intros [Hc Hid]%andb_true_iff. split; [|auto]. by intros ->.
Qed.

(** What has happened when the part of New under the lock returns nil. *)
Lemma newLocked_None `{Externals} env cenv conf args spec st st' :
  newLocked env cenv conf args spec st = Ok None st' ->
  sameIdentity st st' /\ Status_ (self st') = Created /\ Sandbox (self st') ≠ None /\
  synced st'.
Proof.
  intros Hrun. split.
  { by apply (stable_Ok _ _ _ _ _ (sameIdentity_newLocked env cenv conf args spec)) in Hrun. }
  unfold newLocked in Hrun.
  apply orReturn_None_inv in Hrun as (st1 & _ & Hrun).
  apply bind_Ok_inv in Hrun as (u & st2 & Hchange & Hrun).
  destruct (changeStatus_cases Created st1) as [(Hok & _ & [?|Hsb])|([msg Hpanic] & _)];
    [discriminate| |by rewrite Hpanic in Hchange].
  rewrite Hok in Hchange. injection Hchange as <- <-.
  apply orReturn_None_inv in Hrun as (st3 & Hsave & Hrun).
  apply saveLocked_None in Hsave as [Hself Hsync].
  match type of Hrun with ?m st3 = _ =>
    assert (Hs : stable sameRecord m)
      by stable_tac ltac:(first [ apply stable_sameRecord_emit | unfold_operations
                                | unfold_creation ]);
    apply (stable_Ok _ _ _ _ _ Hs) in Hrun
  end.
  destruct Hrun as [Hself' Hsaved'].
  rewrite Hself', Hself. cbn. split; [done|]. split; [done|].
  apply (synced_sameRecord st3); done.
Qed.

(** X18. A creation that succeeds leaves a created container on record. When
    New returns nil, the id is not empty and has no path separator, the
    record carries the id, the document and the state file location it was
    given (the sandbox id being the container id for a root container), the
    status is Created, the sandbox reference is set, the state file holds
    the record as it is in memory, and the lock was taken once and released
    once. The cleanup has not run. *)
Theorem New_success_is_created_and_saved `{Externals} (env : Env) (cenv : CreateEnv)
    (cleanup : M error) (conf : config.Config) (args : Args) (st st' : State) :
  New env cenv cleanup conf args st = Ok None st' ->
  (ArgsID args ≠ "" /\ without "/" (ArgsID args)) /\
  (ID (self st') = ArgsID args /\
   Spec (self st') = specs.Kept (ArgsSpec args) /\
   RootDir (Saver (self st')) = config.RootDir conf /\
   ContainerID (SaverID (Saver (self st'))) = ArgsID args /\
   Some (SandboxID (SaverID (Saver (self st')))) =
     if isRoot (specs.Kept (ArgsSpec args)) then Some (ArgsID args)
     else specs.SandboxID (ArgsSpec args)) /\
  Status_ (self st') = Created /\
  Sandbox (self st') ≠ None /\
  synced st' /\
  locksBetween st st' [EvLock; EvUnlock].
Proof.
  intros Hrun.
  destruct (New_runs env cenv cleanup conf args st)
    as [[err' Hpre]|[(err' & sid & Hlock & Hpre)|(linux & sid & Hvalid & Hlock & Hsid & Hgo)]];
    [by rewrite Hpre in Hrun..|].
  rewrite Hgo in Hrun.
  apply withCleanup_Ok_inv in Hrun as (released & st1 & st2 & Hbody & Hunlock & Hclean).
  apply bind_Ok_inv in Hbody as (e & st1' & Hbody & [= <- -> <-]).
  rewrite bool_decide_eq_true_2 in Hclean by done. subst st2.
  destruct (newLocked_region env cenv conf args _
              {| self := newContainer conf args sid; world := world st |} _ _ _
              Hbody Hunlock) as ((evs & Hlog & Hl) & Hself & Hsaved).
  apply newLocked_None in Hbody as ((Hid & Hspec & Hsaver) & Hstatus & Hsb & Hsync).
  cbn in *. split.
  { unfold validateID in Hvalid.
    destruct (bool_decide (ArgsID args ≠ "") && _) eqn:Hok; [|done].
    apply andb_true_iff in Hok as [Hne Hbytes]. apply bool_decide_eq_true in Hne.
    split; [done | by apply forallb_idByte_without]. }
  rewrite Hself, Hid, Hspec, Hsaver, Hstatus. cbn. rewrite Hsid.
  repeat split; try done.
  - unfold synced in *. by rewrite Hsaved, Hself.
  - by exists evs.
Qed.

Lemma New_success_is_created_and_saved_witness :
  New (H := test_externals) gofer_env create_env (Destroy (H := test_externals) test_env)
    creation_config test_args host_state =
    Ok None (final (New (H := test_externals) gofer_env create_env
                      (Destroy (H := test_externals) test_env) creation_config test_args
                      host_state)) /\
  Status_ (self (final (New (H := test_externals) gofer_env create_env
                          (Destroy (H := test_externals) test_env) creation_config test_args
                          host_state))) = Created /\
  synced (final (New (H := test_externals) gofer_env create_env
                   (Destroy (H := test_externals) test_env) creation_config test_args
                   host_state)).
Proof.
  assert (Hrun :
    New (H := test_externals) gofer_env create_env (Destroy (H := test_externals) test_env)
      creation_config test_args host_state =
    Ok None (final (New (H := test_externals) gofer_env create_env
                      (Destroy (H := test_externals) test_env) creation_config test_args
                      host_state))) by (vm_compute; reflexivity).
  split; [exact Hrun|].
  destruct (New_success_is_created_and_saved (H := test_externals) _ _ _ _ _ _ _ Hrun)
    as (_ & _ & Hstatus & _ & Hsync & _).
  split; [exact Hstatus | exact Hsync].
Defined.

(** What has happened when New returns an error. *)
Lemma New_Some_inv `{Externals} env cenv denv conf args st err st' :
  New env cenv (Destroy denv) conf args st = Ok (Some err) st' ->
  world st' = world st \/ exists st1 e, Destroy denv st1 = Ok e st'.
Proof.
  intros Hrun.
  destruct (New_runs env cenv (Destroy denv) conf args st)
    as [[err' Hpre]|[(err' & sid & Hlock & Hpre)|(linux & sid & _ & Hlock & _ & Hgo)]].
  - rewrite Hpre in Hrun. injection Hrun as _ <-. auto.
  - rewrite Hpre in Hrun. injection Hrun as _ <-. auto.
  - right. rewrite Hgo in Hrun.
    apply withCleanup_Ok_inv in Hrun as (released & st1 & st2 & Hbody & Hunlock & Hclean).
    apply bind_Ok_inv in Hbody as (e & st1' & Hbody & [= <- -> <-]).
    rewrite bool_decide_eq_false_2 in Hclean by done.
    apply bind_Ok_inv in Hclean as (e' & st3 & Hdestroy & [= <-]).
    by exists st2, e'.
Qed.

(** X19. Run leaves a running container or none. Provided the cleanup can
    take the lock, a Run that returns has either started a detached
    container, which is Running and saved, and returns no error and status
    0; or failed before anything outside the process was touched; or (always
    so when attached, and whenever creation after the lock or the start
    failed) destroyed the container: the record is Stopped, and the state
    file is gone if its removal succeeded. *)
Theorem Run_leaves_running_or_nothing `{Externals}
    (newEnv : Env) (cenv : CreateEnv) (startEnv waitEnv destroyEnv : Env)
    (conf : config.Config) (args : Args) (st st' : State) (ws : Z) (e : error) :
  env_lock destroyEnv = None ->
  Run newEnv cenv startEnv waitEnv destroyEnv conf args st = Ok (ws, e) st' ->
  (Attached args = false /\ e = None /\ ws = 0%Z /\
   Status_ (self st') = Running /\ synced st') \/
  (e ≠ None /\ world st' = world st) \/
  ((Attached args = true \/ e ≠ None) /\
   Status_ (self st') = Stopped /\
   (env_SaverDestroy destroyEnv = None -> saved (world st') = None)).
Proof.
  intros Hlock. unfold Run.
  intros (created & st1 & Hnew & Hrun)%bind_Ok_inv.
  destruct created as [err|].
  - injection Hrun as <- <- <-.
    apply New_Some_inv in Hnew as [Hsame|(st0 & e' & Hdestroy)].
    + right; left. done.
    + right; right. split; [by right|].
      by apply (Destroy_returns_stopped destroyEnv st0 e').
  - apply withCleanup_Ok_inv in Hrun as (released & st2 & st3 & Hbody & [= <-] & Hclean).
    apply bind_Ok_inv in Hbody as (started & st2' & Hstart & Hbody).
    assert (Hcleaned : forall st4, (Destroy destroyEnv;; mret tt) st4 = Ok tt st' ->
              Status_ (self st') = Stopped /\
              (env_SaverDestroy destroyEnv = None -> saved (world st') = None)).
    { intros st4 (e' & st5 & Hdestroy & [= <-])%bind_Ok_inv.
      by apply (Destroy_returns_stopped destroyEnv st4 e'). }
    destruct started as [err|].
    + injection Hbody as <- <- <- <-. right; right. split; [by right|]. by eapply Hcleaned.
    + destruct (Attached args) eqn:Hattached.
      * apply bind_Ok_inv in Hbody as (r & st2'' & Hwait & [= <- -> <-]).
        right; right. split; [by left|]. by eapply Hcleaned.
      * injection Hbody as <- <- <- <-. subst st'. left.
        apply startImpl_saves in Hstart as (_ & Hrunning & Hsync). done.
Qed.

Lemma Run_leaves_running_or_nothing_witness :
  Run (H := test_externals) gofer_env create_env gofer_env gofer_env gofer_env
    creation_config test_args host_state =
    Ok (0%Z, None)
       (final (Run (H := test_externals) gofer_env create_env gofer_env gofer_env gofer_env
                 creation_config test_args host_state)) /\
  Status_ (self (final (Run (H := test_externals) gofer_env create_env gofer_env gofer_env
                          gofer_env creation_config test_args host_state))) = Running.
Proof.
  assert (Hrun :
    Run (H := test_externals) gofer_env create_env gofer_env gofer_env gofer_env
      creation_config test_args host_state =
    Ok (0%Z, None)
       (final (Run (H := test_externals) gofer_env create_env gofer_env gofer_env gofer_env
                 creation_config test_args host_state))) by (vm_compute; reflexivity).
  split; [exact Hrun|].
  destruct (Run_leaves_running_or_nothing (H := test_externals) gofer_env create_env
              gofer_env gofer_env gofer_env creation_config test_args host_state _ 0%Z None
              eq_refl Hrun)
    as [(_ & _ & _ & Hrunning & _)|[[Herr _]|[[Hattached|Herr] _]]].
  - exact Hrunning.
  - destruct (Herr eq_refl).
  - discriminate Hattached.
  - destruct (Herr eq_refl).
Defined.

(** X20. setupCgroupForRoot, for a root container, returns installed cgroups
    or cleans up. When it returns cgroups they have been installed, there is
    no cgroup for the container without one for the sandbox, and there is
    one for the container only if the cgroup-parent annotation is set; the
    world is untouched. When it returns an error, either the world is
    untouched or the cgroup of the sandbox had been installed and its
    uninstallation is the one thing that has happened. The record of the
    container is never changed. *)
Theorem setupCgroupForRoot_installs_or_cleans `{Externals} (env : Env) (cenv : CreateEnv)
    (conf : config.Config) (spec : specs.Document) (st st' : State)
    (r : string + option cgroup.Cgroup * option cgroup.Cgroup) :
  isRoot (specs.Kept spec) = true ->
  setupCgroupForRoot env cenv conf spec st = Ok r st' ->
  self st' = self st /\
  match r with
  | inr (Some parent, sub) =>
      world st' = world st /\ env_Install cenv parent = None /\
      match sub with
      | Some cg =>
          env_Install cenv cg = None /\
          specs.Annotations spec !! cgroupParentAnnotation ≠ None
      | None => True
      end
  | inr (None, Some _) => False
  | inr (None, None) => world st' = world st
  | inl err =>
      world st' = world st \/
      exists parent,
        env_Install cenv parent = None /\ world st' = logged [EvUninstall parent] (world st)
  end.
Proof.
  destruct st as [c w].
  unfold setupCgroupForRoot, setupCgroupForSubcontainer, createParentCgroup, cgroupInstall,
    Cgroup_Uninstall.
  unfold_monad. cbn. intros Hroot. rewrite Hroot. intros Hrun.
  repeat first
    [ progress cbn in Hrun
    | match type of Hrun with
      | context [match ?x with _ => _ end] =>
          lazymatch x with
          | context [match _ with _ => _ end] => fail
          | _ => destruct x eqn:?
          end
      end ];
    try discriminate Hrun; injection Hrun as <- <-; cbn;
    (split; [done|]); try done; eauto 10.
Qed.

Lemma setupCgroupForRoot_installs_or_cleans_witness :
  setupCgroupForRoot test_env create_env creation_config pod_document host_state =
    Ok (inr (Some {| cgroup.CgroupPath := "/pod" |},
             Some {| cgroup.CgroupPath := "/pod/c1" |})) host_state /\
  env_Install create_env {| cgroup.CgroupPath := "/pod" |} = None /\
  env_Install create_env {| cgroup.CgroupPath := "/pod/c1" |} = None.
Proof.
  assert (Hrun :
    setupCgroupForRoot test_env create_env creation_config pod_document host_state =
    Ok (inr (Some {| cgroup.CgroupPath := "/pod" |},
             Some {| cgroup.CgroupPath := "/pod/c1" |})) host_state)
    by (vm_compute; reflexivity).
  split; [exact Hrun|].
  destruct (setupCgroupForRoot_installs_or_cleans (H := test_externals) test_env create_env
              creation_config pod_document host_state host_state _ eq_refl Hrun)
    as (_ & _ & Hparent & Hsub & _).
  split; [exact Hparent | exact Hsub].
Defined.

Lemma identityMappings_inv mapFile lines acc ms :
  identityMappings mapFile lines acc = inr ms ->
  exists new, ms = acc ++ new /\ length new = length lines /\ Forall identity new.
Proof.
  revert acc. induction lines as [|[line scanned] lines IH]; intros acc; cbn.
  - intros [= <-]. exists []. by rewrite app_nil_r.
  - destruct scanned as [err|n myStart parentStart rangeLen]; [done|].
    case_bool_decide; [done|].
    intros (new & -> & Hlen & Hall)%IH.
    eexists (_ :: new). rewrite <- app_assoc. split; [done|]. cbn.
    split; [by rewrite Hlen|]. by constructor.
Qed.

Lemma getIdentityMapping_inv cenv mapFileName ms :
  getIdentityMapping cenv mapFileName = inr ms ->
  length ms = mapFileLines cenv mapFileName /\ Forall identity ms.
Proof.
  unfold getIdentityMapping, mapFileLines.
  destruct (env_OpenMapFile cenv _) as [err|file]; [done|].
  destruct (identityMappings _ _ _) as [err|ms'] eqn:Hloop; [done|].
  destruct (scanErr file); [done|]. intros [= <-].
  by apply identityMappings_inv in Hloop as (new & -> & Hlen & Hall).
Qed.

(** X21. modifySpecForDirectfs gives the sandbox a user namespace that maps
    every id to itself. Unless directfs is in effect (the flag is on, this
    is no unsafe test run, the network is not the host's and the document
    names no user namespace) the document is left as it is, without error.
    When it is in effect, a document that defines id mappings is refused;
    and when the function returns nil, the user namespace has been appended
    to the namespaces, the cgroup path is kept, and the mappings of user and
    group ids are one per line of the map files of /proc/self, each mapping
    an id to itself. *)
Theorem directfs_maps_ids_to_themselves (cenv : CreateEnv) (conf : config.Config)
    (linux linux' : option specs.Linux_t) (e : error) :
  modifySpecForDirectfs cenv conf linux = (e, linux') ->
  (~ directfsInEffect cenv conf linux -> e = None /\ linux' = linux) /\
  (directfsInEffect cenv conf linux ->
   (specs.UIDMappings (default specs.emptyLinux linux) ≠ [] \/
    specs.GIDMappings (default specs.emptyLinux linux) ≠ [] ->
    e = Some "spec defines UID/GID mappings without defining userns") /\
   (e = None ->
    exists l',
      linux' = Some l' /\
      specs.Namespaces l' =
        specs.Namespaces (default specs.emptyLinux linux) ++ [userNamespace] /\
      specs.CgroupsPath l' = specs.CgroupsPath (default specs.emptyLinux linux) /\
      length (specs.UIDMappings l') = mapFileLines cenv "uid_map" /\
      length (specs.GIDMappings l') = mapFileLines cenv "gid_map" /\
      Forall identity (specs.UIDMappings l') /\
      Forall identity (specs.GIDMappings l'))).
Proof.
  unfold modifySpecForDirectfs, directfsInEffect.
  destruct (config.DirectFS conf); cbn;
    [|intros [= <- <-]; split; [done | by intros (? & _)]].
  destruct (config.TestOnlyAllowRunAsCurrentUserWithoutChroot conf); cbn;
    [intros [= <- <-]; split; [done | by intros (_ & ? & _)]|].
  case_bool_decide as Hnet; [intros [= <- <-]; split; [done | by intros (_ & _ & ? & _)]|].
  destruct (env_GetNS_user cenv linux) eqn:Hns;
    [intros [= <- <-]; split; [done | by intros (_ & _ & _ & ?)]|].
  intros Hrun. split; [intros Hno; by destruct Hno|]. intros _. revert Hrun.
  destruct (bool_decide (specs.UIDMappings _ ≠ []) || bool_decide (specs.GIDMappings _ ≠ []))
    eqn:Hmapped.
  { by intros [= <- <-]. }
  apply orb_false_iff in Hmapped as [Hu Hg].
  apply bool_decide_eq_false in Hu, Hg.
  destruct (getIdentityMapping cenv "uid_map") as [err|uids] eqn:Huid.
  { intros [= <- <-]. split; [intros [?|?]; done | done]. }
  destruct (getIdentityMapping cenv "gid_map") as [err|gids] eqn:Hgid.
  { intros [= <- <-]. split; [intros [?|?]; done | done]. }
  intros [= <- <-]. split; [intros [?|?]; done|].
  intros _. eexists. split; [done|]. cbn.
  apply getIdentityMapping_inv in Huid as [? ?], Hgid as [? ?]. done.
Qed.

Lemma directfs_maps_ids_to_themselves_witness :
  modifySpecForDirectfs create_env creation_config None = (None, Some directfs_linux) /\
  exists l',
    Some directfs_linux = Some l' /\
    specs.Namespaces l' = specs.Namespaces specs.emptyLinux ++ [userNamespace] /\
    specs.CgroupsPath l' = specs.CgroupsPath specs.emptyLinux /\
    length (specs.UIDMappings l') = mapFileLines create_env "uid_map" /\
    length (specs.GIDMappings l') = mapFileLines create_env "gid_map" /\
    Forall identity (specs.UIDMappings l') /\
    Forall identity (specs.GIDMappings l').
Proof.
  assert (Hrun : modifySpecForDirectfs create_env creation_config None =
                 (None, Some directfs_linux)) by (vm_compute; reflexivity).
  split; [exact Hrun|].
  destruct (directfs_maps_ids_to_themselves _ _ _ _ _ Hrun) as [_ Heffect].
  apply Heffect; [|reflexivity].
  repeat split; (reflexivity || discriminate).
Defined.

(** ** Creation without a sandbox *)

#[global] Instance bare_preorder : PreOrder bare.
Proof.
  split.
  - intros st Hst. split; [reflexivity | done].
  - intros st1 st2 st3 H12 H23 Hst. destruct (H12 Hst) as [He1 Hst2].
    destruct (H23 Hst2) as [He2 Hst3]. split; [by etransitivity | done].
Qed.

Lemma bare_emits st st' :
  emits notUninstall st st' -> self st' = self st -> bare st st'.
Proof. intros He Hself Hst. split; [done|]. unfold unclaimed. by rewrite Hself. Qed.

Lemma stable_bare_emit e : notUninstall e = true -> stable bare (emit e).
Proof. intros He st. apply bare_emits; [by apply stable_emits_emit | done]. Qed.

Lemma stable_bare_modw (f : World -> World) :
  (forall w, log (f w) = log w) -> stable bare (modw f).
Proof. intros Hf st. apply bare_emits; [by apply stable_emits_modw | done]. Qed.

Lemma stable_bare_modc (f : Container -> Container) :
  (forall c, Sandbox c = None -> Sandbox (f c) = None) ->
  (forall c, CompatCgroup c = None -> CompatCgroup (f c) = None) ->
  stable bare (modc f).
Proof.
  intros Hsb Hcg st [Hs Hc]. split; [apply (stable_emits_modc notUninstall f)|].
  split; cbn; auto.
Qed.

Lemma stable_bare_changeStatus s : stable bare (changeStatus s).
Proof.
  intros st. destruct (changeStatus_cases s st) as [(-> & _)|([msg ->] & _)]; cbn.
  - apply (stable_bare_modc (set_Status s)); done.
  - reflexivity.
Qed.

Ltac bare_base :=
  first
    [ apply stable_bare_emit; reflexivity
    | apply stable_bare_modw; reflexivity
    | apply stable_bare_modc; done
    | apply stable_bare_changeStatus ].

Lemma bare_forEachSelfMount_mounts `{Externals} fn confs mounts idx :
  (forall src, stable bare (fn src)) ->
  stable bare (forEachSelfMount_mounts fn confs mounts idx).
Proof.
  intros Hfn. revert idx.
  induction mounts as [|m rest IH]; intros idx; cbn;
    stable_tac ltac:(first [ bare_base | unfold_operations ]).
Qed.

Lemma bare_removeSharedFilestores `{Externals} env sid hints :
  stable bare (removeSharedFilestores env sid hints).
Proof.
  induction hints as [|hint rest IH]; cbn;
    stable_tac ltac:(first [ bare_base | apply bare_forEachSelfMount_mounts
                           | unfold_operations ]).
Qed.

Lemma bare_initGoferConfs_mounts `{Externals} ovlConf hints mounts :
  stable bare (initGoferConfs_mounts ovlConf hints mounts).
Proof.
  induction mounts as [|m rest IH]; cbn;
    [stable_tac ltac:(first [ bare_base | unfold_operations ])|].
  destruct (negb (IsGoferMount m)); [done|].
  destruct (FindMount hints (specs.Source m)) as [hint|];
    [destruct (boot.IsSandboxLocal hint)|];
    stable_tac ltac:(first [ bare_base | apply IH | unfold_operations ]).
Qed.

(** stop, for a container that holds neither sandbox nor cgroup, uninstalls
    nothing. *)
Lemma bare_stop `{Externals} env : stable bare (stop env).
Proof.
  intros st [Hsb Hcg].
  assert (Hin : stopInSandbox env st = Ok (inr None) st).
  { destruct st as [c w]. unfold stopInSandbox. unfold_monad. cbn in *. by rewrite Hsb. }
  unfold stop. unfold mbind, M_bind. rewrite Hin. rewrite stopGofer_runs, Hcg.
  set (kill := if bool_decide (GoferPid (self st) ≠ 0%Z)
               then emit (EvKill (GoferPid (self st)) SIGKILL) else mret tt).
  assert (Hkill : stable bare kill)
    by (subst kill; stable_tac ltac:(first [ bare_base | unfold_operations ])).
  assert (Hwait : stable bare (waitForStopped env)).
  { unfold waitForStopped.
    stable_tac ltac:(first [ bare_base | unfold_operations ]). }
  specialize (Hkill st). destruct (kill st) as [u st1|msg st1]; cbn in Hkill; [|by apply Hkill].
  destruct (Hkill (conj Hsb Hcg)) as [He1 Hst1].
  specialize (Hwait st1).
  destruct (waitForStopped env st1) as [[err|] st2|msg st2]; cbn in *;
    destruct (Hwait Hst1) as [He2 Hst2]; (split; [by etransitivity | done]).
Qed.

Ltac bare_ops :=
  repeat first
    [ apply bare_stop
    | apply bare_forEachSelfMount_mounts
    | apply bare_removeSharedFilestores
    | apply bare_initGoferConfs_mounts
    | stable_step ltac:(first
        [ bare_base
        | progress unfold Saver_lock, Saver_UnlockOrDie, Saver_close, Saver_SaveLocked,
            Saver_Destroy, theSandbox, saveLocked, IsSandboxRunning, requireStatus,
            os_Remove, os_Open, setOOMScoreAdj, adjustSandboxOOMScoreAdj,
            executeHooksBestEffort, removeSelfFilestore, createGoferConf, appendGoferConf,
            initGoferConfs, createGoferProcess, runInCgroup, forEachSelfMount,
            Saver_LockForNew, executeHooks ]) ].

Lemma bare_Destroy `{Externals} env : stable bare (Destroy env).
Proof. unfold Destroy, destroyLocked. bare_ops. Qed.

Lemma stable_withCleanup (R : relation State) `{!PreOrder R} {A : Type}
    (f deferred : M unit) (body : M (bool * A)) :
  stable R f -> stable R deferred -> stable R body ->
  stable R (withCleanup f deferred body).
Proof.
  intros Hf Hd Hb st. unfold withCleanup. specialize (Hb st).
  destruct (body st) as [[released a] st1|msg st1]; cbn in Hb.
  - etransitivity; [done|].
    apply (stable_defer R); [destruct released; [apply stable_ret; apply _ | done]|].
    apply (stable_defer R); [done | apply stable_ret; apply _].
  - etransitivity; [done|].
    apply (stable_defer R); [done|].
    apply (stable_defer R); [done | apply stable_panic; apply _].
Qed.

Section without_sandbox.
Context `{Externals}.
Context (env : Env) (cenv : CreateEnv) (conf : config.Config) (args : Args).
Hypothesis Hnosandbox : forall sand, env_sandboxNew cenv ≠ inr sand.

(** Without the annotation of the parent, the set-up of the cgroups of a
    root container yields no cgroup for the container itself, and changes
    nothing. *)
Lemma setupCgroupForRoot_unannotated spec st :
  isRoot (specs.Kept spec) = true ->
  specs.Annotations spec !! cgroupParentAnnotation = None ->
  match setupCgroupForRoot env cenv conf spec st with
  | Ok r st' =>
      st' = st /\ match r with inr (_, Some _) => False | _ => True end
  | Panic _ st' => st' = st
  end.
Proof.
  intros Hroot Hannot. destruct st as [c w].
  unfold setupCgroupForRoot, setupCgroupForSubcontainer, createParentCgroup, cgroupInstall,
    Cgroup_Uninstall.
  unfold_monad. cbn. rewrite Hroot, Hannot. cbn.
  repeat first
    [ progress cbn
    | match goal with
      | |- context [match ?x with _ => _ end] =>
          lazymatch x with
          | context [match _ with _ => _ end] => fail
          | _ => destruct x eqn:?
          end
      end ]; done.
Qed.

Ltac bare_creation :=
  repeat first
    [ match goal with
      | Hno : forall sand, inr ?s ≠ inr sand |- _ => destruct (Hno s eq_refl)
      end
    | bare_ops ].

Lemma bare_newRoot spec :
  isRoot (specs.Kept spec) = true ->
  specs.Annotations spec !! cgroupParentAnnotation = None ->
  stable bare (newRoot env cenv conf args spec).
Proof.
  intros Hroot Hannot st. unfold newRoot.
  set (spec' := specs.set_Linux _ spec).
  assert (Hrest : forall containerCgroup,
    stable bare
      (modc (set_CompatCgroup None);;
       match env_NewPodMountHints cenv with
       | inl err => mret (Some ("error creating pod mount hints: " +:+ err))
       | inr mountHints =>
           match nvProxyPreGoferHostSetup cenv (specs.Kept spec') conf with
           | Some err => mret (Some err)
           | None =>
               runInCgroup env containerCgroup
                 (r ← createGoferProcess env conf mountHints (Attached args);
                  match r with
                  | inl err => mret (Some ("cannot create gofer process: " +:+ err))
                  | inr _ =>
                      match env_sandboxNew cenv with
                      | inl err => mret (Some ("cannot create sandbox: " +:+ err))
                      | inr sand => modc (set_Sandbox (Some sand));; mret None
                      end
                  end)
           end
       end)).
  { intros containerCgroup. bare_creation. }
  unfold mbind at 1. unfold M_bind at 1.
  destruct (negb (config.IgnoreCgroups conf)).
  - unfold mbind at 1. unfold M_bind at 1.
    pose proof (setupCgroupForRoot_unannotated spec' st Hroot Hannot) as Hsetup.
    destruct (setupCgroupForRoot env cenv conf spec' st) as [[err|[parent sub]] st'|msg st'];
      cbn in *.
    + destruct Hsetup as [-> _]. reflexivity.
    + destruct Hsetup as [-> Hsub]. destruct sub as [cg|]; [done|].
      rewrite (bool_decide_eq_false_2 (@None cgroup.Cgroup ≠ None)) by (by intros ?).
      exact (Hrest parent st).
    + subst st'. reflexivity.
  - exact (Hrest None st).
Qed.

Lemma bare_newLocked spec :
  isRoot (specs.Kept spec) = true ->
  specs.Annotations spec !! cgroupParentAnnotation = None ->
  stable bare (newLocked env cenv conf args spec).
Proof.
  intros Hroot Hannot. unfold newLocked. rewrite Hroot.
  apply stable_orReturn; [apply _ | by apply bare_newRoot | bare_ops].
Qed.

End without_sandbox.

(** X23. A root container whose sandbox is never created gets no cgroup
    uninstalled. For a root container without the cgroup-parent annotation
    and an environment in which sandbox.New does not succeed, New never
    returns nil, and from its first step to the end of its cleanup no cgroup
    is uninstalled: Destroy uninstalls the cgroup of the sandbox only
    through the sandbox reference, which was never set, so a cgroup that the
    set-up installed and the gofer was started in stays installed. *)
Theorem creation_without_sandbox_uninstalls_nothing `{Externals}
    (env : Env) (cenv : CreateEnv) (denv : Env) (conf : config.Config) (args : Args)
    (st : State) :
  isRoot (specs.Kept (ArgsSpec args)) = true ->
  specs.Annotations (ArgsSpec args) !! cgroupParentAnnotation = None ->
  (forall sand, env_sandboxNew cenv ≠ inr sand) ->
  emits notUninstall st (final (New env cenv (Destroy denv) conf args st)) /\
  (forall st', New env cenv (Destroy denv) conf args st ≠ Ok None st').
Proof.
  intros Hroot Hannot Hnosandbox.
  destruct (New_runs env cenv (Destroy denv) conf args st)
    as [[err' Hpre]|[(err' & sid & Hlock & Hpre)|(linux & sid & _ & Hlock & _ & Hgo)]].
  - rewrite Hpre. split; [reflexivity | discriminate].
  - rewrite Hpre. split; [|discriminate]. exists []. cbn. by rewrite app_nil_r.
  - set (st0 := {| self := newContainer conf args sid; world := logged [EvLock] (world st) |})
      in Hgo.
    match type of Hgo with _ = ?m st0 => assert (Hbare : stable bare m) end.
    { apply stable_withCleanup; [apply _ | | |].
      - apply stable_bind; [apply _ | apply bare_Destroy | intros; apply stable_ret; apply _].
      - bare_ops.
      - apply stable_bind; [apply _ | by apply bare_newLocked
                           | intros; apply stable_ret; apply _]. }
    destruct (Hbare st0) as [(evs & Hlog & Hevs) [Hsb _]]; [done|].
    rewrite <- Hgo in Hlog, Hsb. split.
    + exists (EvLock :: evs). split; [|done].
      etransitivity; [exact Hlog|]. cbn. by rewrite <- app_assoc.
    + intros st' Hrun. rewrite Hrun in Hsb. cbn in Hsb. rewrite Hgo in Hrun.
      apply withCleanup_Ok_inv in Hrun as (released & st1 & st2 & Hbody & Hunlock & Hclean).
      apply bind_Ok_inv in Hbody as (e & st1' & Hbody & [= <- -> <-]).
      rewrite bool_decide_eq_true_2 in Hclean by done. subst st2.
      apply newLocked_None in Hbody as (_ & _ & Hset & _).
      apply Saver_UnlockOrDie_Ok in Hunlock as [_ ->]. done.
Qed.

Lemma creation_without_sandbox_uninstalls_nothing_witness :
  exists evs,
    log (world (final (New (H := test_externals) gofer_env sandboxless_env
                         (Destroy (H := test_externals) test_env) creation_config test_args
                         host_state))) = log (world host_state) ++ evs /\
    forallb notUninstall evs = true /\
    In (EvCgroupJoin {| cgroup.CgroupPath := "/c1" |}) evs.
Proof.
  destruct (creation_without_sandbox_uninstalls_nothing (H := test_externals)
              gofer_env sandboxless_env test_env creation_config test_args host_state
              eq_refl eq_refl ltac:(discriminate)) as [(evs & Hlog & Hevs) _].
  exists evs. split; [exact Hlog|]. split; [exact Hevs|].
  vm_compute in Hlog. rewrite <- Hlog. right; left; reflexivity.
Defined.

(** ** Pause and Resume *)

Lemma recorded_and_saved_self env s st st' :
  (changeStatus s;; saveLocked env) st = Ok None st' ->
  permitted (Status_ (self st)) s = true /\
  self st' = set_Status s (self st) /\ synced st'.
Proof.
  intros (u & st1 & Hchange & Hsave)%bind_Ok_inv.
  apply changeStatus_Ok in Hchange as [-> Hp].
  apply saveLocked_None in Hsave as [Hself Hsync]. by rewrite Hself.
Qed.

(** The shape Pause and Resume share: under the lock, [refused] tests the
    status, [rpc] is the call to the sandbox, then the status [s] is
    recorded and saved. *)
Lemma status_change_locked env s (refused : Container -> bool)
    (refusal : Container -> string) (rpc : Container -> M error)
    (failure : Container -> string -> string) st st' :
  (forall c, stable sameSelf (rpc c)) ->
  orReturn (Saver_lock env)
    (defer (Saver_UnlockOrDie env)
       (c ← getc;
        if refused c then mret (Some (refusal c))
        else
          r ← rpc c;
          match r with
          | Some err => mret (Some (failure c err))
          | None => changeStatus s;; saveLocked env
          end)) st = Ok None st' ->
  refused (self st) = false /\
  permitted (Status_ (self st)) s = true /\
  self st' = set_Status s (self st) /\ synced st'.
Proof.
  intros Hrpc (st0 & Hlock & Hrun)%orReturn_None_inv.
  rewrite Saver_lock_runs in Hlock. destruct (env_lock env); [discriminate|].
  injection Hlock as <-.
  apply defer_Ok_inv in Hrun as (stB & Hbody & Hclean).
  apply (stable_Ok _ _ _ _ _ (unlock_sameRecord env)) in Hclean.
  apply bind_Ok_inv in Hbody as (c & st1 & [= <- <-] & Hbody). cbn in Hbody.
  destruct (refused (self st)); [discriminate|]. split; [done|].
  apply bind_Ok_inv in Hbody as (r & st2 & Hcall & Hbody).
  destruct r as [err|]; [discriminate|].
  apply (stable_Ok _ _ _ _ _ (Hrpc (self st))) in Hcall. unfold sameSelf in Hcall. cbn in Hcall.
  apply recorded_and_saved_self in Hbody as (Hp & Hself & Hsync).
  destruct Hclean as [Hself' Hsaved'].
  rewrite Hcall in Hp, Hself.
  split; [done|].
  split; [by rewrite Hself', Hself | by apply (synced_sameRecord stB)].
Qed.

(** X24. When Pause returns nil and Resume, run on the state Pause left,
    returns nil too, the record after Pause is the record before it with
    the status Paused, the record after Resume is the record before Pause
    (so the container was Running: Pause lets Created pass its check, but
    the change of status then panics), and the state file holds the
    record as it is in memory. *)
Theorem Pause_then_Resume_restores_the_record
    (pauseEnv resumeEnv : Env) (st st1 st2 : State) :
  Pause pauseEnv st = Ok None st1 ->
  Resume resumeEnv st1 = Ok None st2 ->
  self st1 = set_Status Paused (self st) /\
  self st2 = self st /\
  synced st2.
Proof.
  intros Hpause Hresume.
  apply (status_change_locked pauseEnv Paused
           (fun c => bool_decide (Status_ c ≠ Created) && bool_decide (Status_ c ≠ Running))
           _ (fun c => Sandbox_Pause pauseEnv (ID c)) _) in Hpause
    as (_ & Hran & Hself1 & Hsync1); [|intros c; sameSelf_ops].
  apply (status_change_locked resumeEnv Running
           (fun c => bool_decide (Status_ c ≠ Paused))
           _ (fun c => Sandbox_Resume resumeEnv (ID c)) _) in Hresume
    as (_ & _ & Hself2 & Hsync2); [|intros c; sameSelf_ops].
  split; [done|]. split; [|done].
  rewrite Hself2, Hself1.
  destruct (self st). cbn in *.
  match type of Hran with permitted ?status _ = _ => by destruct status end.
Qed.

Lemma Pause_then_Resume_restores_the_record_witness :
  exists st1 st2,
    Pause test_env (test_state Running) = Ok None st1 /\
    Resume test_env st1 = Ok None st2 /\
    Status_ (self st1) = Paused /\
    self st2 = test_container Running /\
    saved (world st2) = Some (test_container Running).
Proof.
  set (st1 := final (Pause test_env (test_state Running))).
  set (st2 := final (Resume test_env st1)).
  assert (Hpause : Pause test_env (test_state Running) = Ok None st1)
    by (vm_compute; reflexivity).
  assert (Hresume : Resume test_env st1 = Ok None st2) by (vm_compute; reflexivity).
  destruct (Pause_then_Resume_restores_the_record _ _ _ _ _ Hpause Hresume)
    as (Hself1 & Hself2 & Hsync).
  exists st1, st2. split; [exact Hpause|]. split; [exact Hresume|].
  split; [by rewrite Hself1|]. split; [exact Hself2|].
  unfold synced in Hsync. by rewrite Hsync, Hself2.
Defined.
